(** * Snapshot distribution and verification engine (snapshot.cpp / snapshot.h)

    A shallow embedding of the chunk manifest, the chunk store, the download
    state, the serving-side rate limiter, the fetching-side download
    coordinator and the UTXO-hash verifier, followed by the properties
    established for them.

    Conventions of the embedding:
    - [uint32_t], [uint64_t] and [size_t] values are [N]; an increment of a
      [uint32_t] is written with its wrap-around ([u32]).
    - [int64_t] values (wall-clock seconds returned by [GetTime()], node ids)
      are [Z]; the code only adds and subtracts small offsets to clock values,
      so the arithmetic is the one of [Z].
    - [std::vector<unsigned char>] is [list byte]; [uint256] is the list of
      its 32 data bytes, index 0 first.
    - [std::map] is [gmap]; [operator[]] default-constructs a missing entry.
    - [GetTime()] is an input of every operation that calls it.
    - Log output is not part of the state. *)

From Stdlib Require Import ZArith NArith Lia List Bool.
From Stdlib Require Import Strings.Byte Strings.Ascii Strings.String.
From stdpp Require Import gmap strings list fin_maps sorting.

Local Open Scope N_scope.

(** ** Machine integers *)

Definition u32 (x : N) : N := x mod 2 ^ 32.

#[global] Instance byte_eq_dec : EqDecision byte := Byte.byte_eq_dec.

Definition byte_of_Z (z : Z) : byte :=
  match Byte.of_N (Z.to_N (z mod 256)) with
  | Some b => b
  | None => x00
  end.

Definition Z_of_byte (b : byte) : Z := Z.of_N (Byte.to_N b).

(** ** SHA-256 *)

(** Modelled from the spec: class [CSHA256] (crypto/sha256.cpp) is not among
    the sources; the spec names the digest "single-pass SHA-256 of the raw
    chunk bytes", which is the function of FIPS 180-4 written out here.
    [CSHA256().Write(data, len).Finalize(out)] is [SHA256.digest data]. *)
Module SHA256.
Local Open Scope Z_scope.

Definition w32 (x : Z) : Z := Z.land x 0xffffffff.
Definition add32 (x y : Z) : Z := w32 (x + y).
Definition rotr (n x : Z) : Z :=
  Z.lor (Z.shiftr x n) (w32 (Z.shiftl x (32 - n))).

Definition Ch (x y z : Z) : Z := Z.lxor (Z.land x y) (Z.land (w32 (Z.lnot x)) z).
Definition Maj (x y z : Z) : Z :=
  Z.lxor (Z.lxor (Z.land x y) (Z.land x z)) (Z.land y z).
Definition Sigma0 (x : Z) : Z := Z.lxor (Z.lxor (rotr 2 x) (rotr 13 x)) (rotr 22 x).
Definition Sigma1 (x : Z) : Z := Z.lxor (Z.lxor (rotr 6 x) (rotr 11 x)) (rotr 25 x).
Definition sigma0 (x : Z) : Z := Z.lxor (Z.lxor (rotr 7 x) (rotr 18 x)) (Z.shiftr x 3).
Definition sigma1 (x : Z) : Z := Z.lxor (Z.lxor (rotr 17 x) (rotr 19 x)) (Z.shiftr x 10).

(** The round constants are "the first thirty-two bits of the fractional
    parts of the cube roots of the first sixty-four prime numbers", the
    initial hash value the same of the square roots of the first eight. *)
Definition is_prime (n : nat) : bool :=
  forallb (fun d => negb (Nat.eqb (Nat.modulo n d) 0)) (seq 2 (n - 2)).

Definition primes64 : list Z :=
  map Z.of_nat (firstn 64 (List.filter is_prime (seq 2 400))).

(** Integer cube root by bisection between [lo] and [hi]. *)
Fixpoint icbrt (fuel : nat) (lo hi n : Z) : Z :=
  match fuel with
  | O => lo
  | S fuel' =>
      let mid := (lo + hi) / 2 in
      if mid * mid * mid <=? n then icbrt fuel' mid hi n else icbrt fuel' lo mid n
  end.

Definition K : list Z :=
  Eval vm_compute in map (fun p => w32 (icbrt 48 0 (2 ^ 40) (p * 2 ^ 96))) primes64.

Definition H0 : list Z :=
  Eval vm_compute in map (fun p => w32 (Z.sqrt (p * 2 ^ 64))) (firstn 8 primes64).

(** The eight working words a..h. *)
Definition state : Type := Z * Z * Z * Z * Z * Z * Z * Z.

Definition init : state :=
  Eval vm_compute in
    match H0 with
    | [a; b; c; d; e; f; g; h] => (a, b, c, d, e, f, g, h)
    | _ => (0, 0, 0, 0, 0, 0, 0, 0)
    end.

(** The [n] low bytes of [x], most significant first. *)
Definition be_bytes (n : nat) (x : Z) : list byte :=
  map (fun i => byte_of_Z (Z.shiftr x (8 * Z.of_nat i))) (rev (seq 0 n)).

(** Padding: a 1 bit, zero bits up to 56 mod 64 bytes, then the bit length
    as a 64-bit big-endian integer. *)
Definition pad (msg : list byte) : list byte :=
  let len := Z.of_nat (length msg) in
  let zeros := Z.to_nat ((55 - len) mod 64) in
  msg ++ x80 :: repeat x00 zeros ++ be_bytes 8 (8 * len).

Definition be_word (bs : list byte) : Z :=
  fold_left (fun acc b => acc * 256 + Z_of_byte b) bs 0.

(** Split into big-endian 32-bit words; [n] counts the words to read. *)
Fixpoint words (n : nat) (bs : list byte) : list Z :=
  match n with
  | O => []
  | S n' => be_word (firstn 4 bs) :: words n' (skipn 4 bs)
  end.

(** Message schedule, most recent word first: [extend k ws] appends [k]
    words to the 16 words of the block. *)
Fixpoint extend (k : nat) (ws : list Z) : list Z :=
  match k with
  | O => ws
  | S k' =>
      let w := add32 (add32 (sigma1 (nth 1 ws 0)) (nth 6 ws 0))
                     (add32 (sigma0 (nth 14 ws 0)) (nth 15 ws 0)) in
      extend k' (w :: ws)
  end.

Definition schedule (block : list Z) : list Z := rev (extend 48 (rev block)).

Definition round (s : state) (kw : Z * Z) : state :=
  let '(a, b, c, d, e, f, g, h) := s in
  let t1 := add32 (add32 (add32 h (Sigma1 e)) (add32 (Ch e f g) (fst kw))) (snd kw) in
  let t2 := add32 (Sigma0 a) (Maj a b c) in
  (add32 t1 t2, a, b, c, add32 d t1, e, f, g).

Definition compress (s : state) (block : list Z) : state :=
  let '(a, b, c, d, e, f, g, h) := s in
  let '(a', b', c', d', e', f', g', h') :=
    fold_left round (combine K (schedule block)) s in
  (add32 a a', add32 b b', add32 c c', add32 d d',
   add32 e e', add32 f f', add32 g g', add32 h h').

Fixpoint blocks (n : nat) (s : state) (ws : list Z) : state :=
  match n with
  | O => s
  | S n' => blocks n' (compress s (firstn 16 ws)) (skipn 16 ws)
  end.

Definition out (s : state) : list byte :=
  let '(a, b, c, d, e, f, g, h) := s in
  be_bytes 4 a ++ be_bytes 4 b ++ be_bytes 4 c ++ be_bytes 4 d ++
  be_bytes 4 e ++ be_bytes 4 f ++ be_bytes 4 g ++ be_bytes 4 h.

Definition digest (msg : list byte) : list byte :=
  let p := pad msg in
  let nblocks := Nat.div (length p) 64 in
  out (blocks nblocks init (words (16 * nblocks) p)).
End SHA256.

Definition bytes_of_string (s : string) : list byte :=
  map byte_of_ascii (list_ascii_of_string s).

Definition hex_of_bytes (bs : list byte) : string :=
  let digit (n : N) : ascii :=
    ascii_of_N (if n <? 10 then 48 + n else 87 + n) in
  string_of_list_ascii
    (flat_map (fun b => [digit (Byte.to_N b / 16); digit (Byte.to_N b mod 16)]) bs).

(** ** uint256 *)

(** The 32 data bytes of a [uint256], [begin()] first. *)
Abbreviation uint256 := (list byte).

(** [uint256()] : all bytes zero. *)
Definition uint256_zero : uint256 := repeat x00 32.

Definition HexDigit (c : ascii) : option N :=
  let n := N_of_ascii c in
  if (48 <=? n) && (n <=? 57) then Some (n - 48)
  else if (97 <=? n) && (n <=? 102) then Some (n - 87)
  else if (65 <=? n) && (n <=? 70) then Some (n - 55)
  else None.

Fixpoint hex_prefix (s : list ascii) : list N :=
  match s with
  | [] => []
  | c :: r =>
      match HexDigit c with
      | Some d => d :: hex_prefix r
      | None => []
      end
  end.

(** Nibbles taken from the end of the text, low nibble first. *)
Fixpoint pack_nibbles (ds : list N) : list byte :=
  match ds with
  | [] => []
  | [lo] => [byte_of_Z (Z.of_N lo)]
  | lo :: hi :: r => byte_of_Z (Z.of_N (lo + 16 * hi)) :: pack_nibbles r
  end.

Definition skip_0x (s : list ascii) : list ascii :=
  match s with
  | "0"%char :: ("x"%char | "X"%char) :: r => r
  | _ => s
  end.

(** Modelled from the spec: [uint256S] / [base_blob::SetHex] (uint256.cpp) is
    not among the sources. The manifest digests are published as the text
    printed by sha256sum; [SetHex] reads the hex digits from the end of the
    text and stores them from byte 0 upwards, so the stored bytes are the
    printed bytes in reverse order. *)
Definition uint256S (s : string) : uint256 :=
  firstn 32 (pack_nibbles (rev (hex_prefix (skip_0x (list_ascii_of_string s))))
             ++ uint256_zero).

(** ** Manifest (snapshot.h) *)

Record CSnapshotChunkInfo := ChunkInfo {
  nChunkNumber : N;      (* uint32_t *)
  hashChunk : uint256;   (* SHA256 hash of chunk data *)
  nSize : N              (* uint64_t, size in bytes *)
}.

Record CSnapshotManifest := {
  nBlockHeight : N;      (* uint32_t *)
  nTimestamp : N;        (* uint64_t *)
  nTotalSize : N;        (* uint64_t *)
  vChunks : list CSnapshotChunkInfo
}.

(** [uint32_t GetChunkCount() const { return vChunks.size(); }] *)
Definition GetChunkCount (m : CSnapshotManifest) : N :=
  u32 (N.of_nat (length (vChunks m))).

(** The loop of [IsValid]: [i] is the index of the head of [cs]. *)
Fixpoint chunks_sequential (i : N) (cs : list CSnapshotChunkInfo) : bool :=
  match cs with
  | [] => true
  | c :: r =>
      if negb (nChunkNumber c =? i) then false
      else chunks_sequential (i + 1) r
  end.

Definition IsValid (m : CSnapshotManifest) : bool :=
  if nBlockHeight m =? 0 then false
  else if bool_decide (vChunks m = []) then false
  else if nTotalSize m =? 0 then false
  else chunks_sequential 0 (vChunks m).

(** ** Chunk store (CSnapshotStore) *)

(** The chunk files [chunk-NNN.dat] of [pathSnapshotDir], keyed by chunk
    number; absent key: the file does not exist. *)
Abbreviation Files := (gmap N (list byte)).

Record CSnapshotStore := { manifest : CSnapshotManifest }.

(** The loop [hash.begin()[i] = hashBytes[31 - i]] for [i] in 0..31. *)
Definition reverse_hash (hashBytes : list byte) : uint256 :=
  map (fun i => nth (31 - i)%nat hashBytes x00) (seq 0 32).

Definition VerifyChunk (st : CSnapshotStore) (nChunk : N) (vData : list byte) : bool :=
  match vChunks (manifest st) !! N.to_nat nChunk with
  | None => false
  | Some info =>
      if negb (N.of_nat (length vData) =? nSize info) then false
      else
        let hashBytes := SHA256.digest vData in
        let hash := reverse_hash hashBytes in
        if bool_decide (hash <> hashChunk info) then false else true
  end.

Definition HasChunk (st : CSnapshotStore) (fs : Files) (nChunk : N) : bool :=
  if GetChunkCount (manifest st) <=? nChunk then false
  else bool_decide (is_Some (fs !! nChunk)).

(** What the output stream does during one [SaveChunk]:
    - [OpenFails]: the stream does not open ([!file]); nothing is created;
    - [Opened k ex]: the file is created or truncated and the first [k] bytes
      of the data reach it; [ex] tells whether a [std::exception] is then
      raised inside the [try] block. The stream is in its default mode, in
      which a failed [write] raises nothing. *)
Inductive StreamOutcome :=
  | OpenFails
  | Opened (k : nat) (ex : bool).

Definition SaveChunk (st : CSnapshotStore) (fs : Files) (io : StreamOutcome)
    (nChunk : N) (vData : list byte) : bool * Files :=
  if GetChunkCount (manifest st) <=? nChunk then (false, fs)
  else if negb (VerifyChunk st nChunk vData) then (false, fs)
  else
    match io with
    | OpenFails => (false, fs)
    | Opened k ex => (negb ex, <[nChunk := firstn k vData]> fs)
    end.

(** ** Compile-time manifests *)

Local Open Scope string_scope.

Definition GetHardcodedManifest : CSnapshotManifest :=
  {| nBlockHeight := 2879438;
     nTimestamp := 1760886990;
     nTotalSize := 8953014312;
     vChunks :=
     [
       ChunkInfo 0 (uint256S "e38c36e582ceefdda0a62c0b5d900ae70d656fb08f5f9999ef580dfbd208a23c") 52428800;
       ChunkInfo 1 (uint256S "d5407180ebec16c81a8e4bf74c9cf7fbdca20b72f45c027667b16f0c83432627") 52428800;
       ChunkInfo 2 (uint256S "b2a3cf86143db02d419eeaf77fb71bb3c2eaa93944511768afcb3465e486aca4") 52428800;
       ChunkInfo 3 (uint256S "8e2c6e2fd97573d0954b01ab5824959175b65faa9823cd61af264691aeb5f569") 52428800;
       ChunkInfo 4 (uint256S "bac389ff47bb8085416559a6732b840121622627263b8c4ddc35889c26eeeb99") 52428800;
       ChunkInfo 5 (uint256S "cfbbdda3ee7df41091f6386a415d0a0b7cf673aef77112440039f8116146f38f") 52428800;
       ChunkInfo 6 (uint256S "2508a27d2cbcb2f1140910408d0cc2858c2b027a73c5d43d8b43074f9cd6d044") 52428800;
       ChunkInfo 7 (uint256S "3b1d1a41aadfb4ba30f4fc206ce6da20531f593276f9f988798ccaf42b6bcd45") 52428800;
       ChunkInfo 8 (uint256S "5dd3589b6f31bcf8151159e606c6dd9eec8e72e83b75e10eeed46081d5ba6476") 52428800;
       ChunkInfo 9 (uint256S "58fe81496a9f0b860ecc9286f9cf6419f9289325a8781fa920a806e193ca742a") 52428800;
       ChunkInfo 10 (uint256S "727c9b44225d35b57bbfdbcaa4becc3a671ff63ac3485d147186898c157302b3") 52428800;
       ChunkInfo 11 (uint256S "b65c4ffbee3e1f1ab2edb91aa3d37800ccf86442dc0a33fe5d0c06e84181c5b9") 52428800;
       ChunkInfo 12 (uint256S "3b4b2a5514dca25af92b058551bd2d7d01d9d8a73c9514fe23068c29414e76f4") 52428800;
       ChunkInfo 13 (uint256S "dc2c5aa1852f6b19e93fb7bdcdbcb242f5b66ec6cd7de72b554067ec06cea524") 52428800;
       ChunkInfo 14 (uint256S "0f7496a4d3ab49e8c2ec06d4c383eec0b3fd14f99471d97acf21a8697b5e0f13") 52428800;
       ChunkInfo 15 (uint256S "55f519125cd225dcacd742097f364461b4e676326fbb86055886888e38bf46c3") 52428800;
       ChunkInfo 16 (uint256S "9f72efa68284ff81bea4b36b452169baf65340c7668c7f510abe4d47088acd30") 52428800;
       ChunkInfo 17 (uint256S "0e228ae7407b0bd7c39a19b41abac3cd5fe7c9eebb9b8d72333bbb06df834fb2") 52428800;
       ChunkInfo 18 (uint256S "d6047cbc29b11620f017ec89d8cc86a0d0258db0c55e90b50599e754b11fb91f") 52428800;
       ChunkInfo 19 (uint256S "68d6217a6a89381c06128e748500708ab226ea49b26ade8a803f1c009ace7068") 52428800;
       ChunkInfo 20 (uint256S "ed5bfc006acb01007858cde7d49eefec0c881d90cf879b2d98a13132dc9481b3") 52428800;
       ChunkInfo 21 (uint256S "2cea773273b37b21b1b5554b8a0e6f47097da7d0f144eda79a4f2902ed222d91") 52428800;
       ChunkInfo 22 (uint256S "5c6c09c53bf97aa6c54612288fe3f63183c8cdcbfea7865bee2ae34d7b1bc0cc") 52428800;
       ChunkInfo 23 (uint256S "a1b3c73ca152502fb05c9f429afd294d3c5746b4d063bbcbc8ca883b888f0f35") 52428800;
       ChunkInfo 24 (uint256S "2662599e9d9795508668252d5898d920e540ea45b1e735aba825988d9a061270") 52428800;
       ChunkInfo 25 (uint256S "d8d85f699408ca4f0e7ae31b91e6d37508468def47519b31c77785b75e7118e3") 52428800;
       ChunkInfo 26 (uint256S "d98717fb1aac8fa12b8db443011860e94d1770e238d26b80f5d98220c923326c") 52428800;
       ChunkInfo 27 (uint256S "256b50e8bcf82eaae50acdba162fdfebd823da0b86812dd99602c5f961b47144") 52428800;
       ChunkInfo 28 (uint256S "c630d32e583d2f6aa38b89235d98dbff171818fef973604470fef8b04f61f348") 52428800;
       ChunkInfo 29 (uint256S "e98d32acc3acc34d85b846105a914a14af95892f5d7c98010030a385aa953747") 52428800;
       ChunkInfo 30 (uint256S "7ea2dc3340a7649404a4ace788558e13dd0591cb958d8a03b1b2d44a412e0cb4") 52428800;
       ChunkInfo 31 (uint256S "3a452b597869bed16f967ec038d909d08dd05a88e19b9d4a5a92e1571b774cf2") 52428800;
       ChunkInfo 32 (uint256S "78fd824527c3296b50378cc456198e0e30421b583876c49a61b955df2b0b8464") 52428800;
       ChunkInfo 33 (uint256S "2a0efcc5ab09b2193cba2d167938ff66f23987d39d833f4b619dd4908a4962dd") 52428800;
       ChunkInfo 34 (uint256S "aee149793d80d326b3122555ac9d37b68a8744bffe13fd8bd93983e5b59cdab6") 52428800;
       ChunkInfo 35 (uint256S "4d228c9d298b60cfbe5b3d2de6a859b8209da933e0aa723b164ed1777bca95e9") 52428800;
       ChunkInfo 36 (uint256S "8f75532327d628fdfe4fd91804a95d3e9b4f59b19051b878880417ddcfc358f5") 52428800;
       ChunkInfo 37 (uint256S "a67206b51135837aa3b2c5655b2ddda2db0c6f55df5c14bc7ae0d8df38c0b2cc") 52428800;
       ChunkInfo 38 (uint256S "9ec6dad4f403a391d36b64238155c6f6bcfb3a1ff06dd9d90de6465bfafc9ae0") 52428800;
       ChunkInfo 39 (uint256S "b2effdb7eb30ad9cc370aae07d07f31ac17dff411b5c2948cadcd86dff8a668d") 52428800;
       ChunkInfo 40 (uint256S "6a788caffcb154750e6168ee6d84c483dc0a17cd5f75771bc1636645e1b7b651") 52428800;
       ChunkInfo 41 (uint256S "986da50c38ec19700bbb12279108087f0488836ccfc035b1b2b496c6b7f4e199") 52428800;
       ChunkInfo 42 (uint256S "263d101cd2aa377d16ab6b1010389d082d26bc5c0e30e5254cc51554ecbddff6") 52428800;
       ChunkInfo 43 (uint256S "2401d94e829daaa0b3fae36dcb3349b7929825e867ad79b4758fa3f9f5e220cd") 52428800;
       ChunkInfo 44 (uint256S "9b3903c6faf8d9620e551630bd6503d6ed82662b9c38e816142da03c500ca3d8") 52428800;
       ChunkInfo 45 (uint256S "8b1cad0649ee5f5dc02cbfe29bce466118a4e5ef83e0fb3d00776fc198e065c6") 52428800;
       ChunkInfo 46 (uint256S "c0abbfe48d05de579503fdc70b694952e29b43e6a6caff4ed89f67546e2e5d53") 52428800;
       ChunkInfo 47 (uint256S "55325c4b139ce800ea67f0ad0e32276d49df1f7bd5b1e12a7eceb52e3a8bd647") 52428800;
       ChunkInfo 48 (uint256S "84e0760c3d8157e8d6fcdb38ed9100652c61448e529ebd5c394165ec0afaaaea") 52428800;
       ChunkInfo 49 (uint256S "387ee373d5b4bdcb4ad37d611491721322ef5ebfed4b79004e439e53aeb3b798") 52428800;
       ChunkInfo 50 (uint256S "15627454c84d954f5505b03855402dfa828e6c4b466e436b978f7daf20c02d89") 52428800;
       ChunkInfo 51 (uint256S "88124b1891f4773103aabf7dd185274dd27024d9152a5a8d9d17c1c3f2e26050") 52428800;
       ChunkInfo 52 (uint256S "3245002534ae0bc65d6d81db199c4875bf9fbfe6619540747d92dd85947244e6") 52428800;
       ChunkInfo 53 (uint256S "4ac0b23d1cae85034e60da6e011c2e888bf94f1233fe3b7c72d7aabca831a20c") 52428800;
       ChunkInfo 54 (uint256S "b1173c397b77e0101703a02a1da9bcac7c22a0c2821fab4f5b87960b79361909") 52428800;
       ChunkInfo 55 (uint256S "40ecde451471d44b13f8530df30184c4ea80130c6971e48dd95e49d90ca80452") 52428800;
       ChunkInfo 56 (uint256S "a9c7775de64da2ad9d732563d210940210f07d7ad937b1ed6068552d981783c6") 52428800;
       ChunkInfo 57 (uint256S "0dffbb1d004f09057b75443a4f37f84105a241ee2b11ad79c6d47d8ccfccc277") 52428800;
       ChunkInfo 58 (uint256S "ca4eec52ed96c2fd63c4819154c7ce8f0518603238cfdefd8242d159ede648e5") 52428800;
       ChunkInfo 59 (uint256S "c59fc48dfd40eb144ba98452ca260305934df689788726d8f9a1fe9c7907bc4b") 52428800;
       ChunkInfo 60 (uint256S "230cbb840409be367af840fb737bc855bd80c8841f542eae0f915b6773711b4e") 52428800;
       ChunkInfo 61 (uint256S "4a8032f1c0a5c28020dc32bb8b51ed2adad896d48a99f2f7aad28254477c98ac") 52428800;
       ChunkInfo 62 (uint256S "d406a7fb2c6bf9adf400c647b321a60c3e4f7f8d49673f0d1d9136947211e817") 52428800;
       ChunkInfo 63 (uint256S "554f409d010c727593ea0e29e6fcb521bc8a2572f6603bbc11b47c8f316988a9") 52428800;
       ChunkInfo 64 (uint256S "23ea989ed943382845313e158f4ec7ab826817598af62788fab9eb6c0515820a") 52428800;
       ChunkInfo 65 (uint256S "4628797d30551f27a164d489781b77b3ae221ddeadcc71da0fa55071959cf6ce") 52428800;
       ChunkInfo 66 (uint256S "6a0bf0aaf18bf9fd9fa117186be6e2880a210cc7484143c39e30b4544c5853f9") 52428800;
       ChunkInfo 67 (uint256S "0a02fbf7f3891513c01df52468afcfa94d72e990ce7106776bc3889a6d3a7a39") 52428800;
       ChunkInfo 68 (uint256S "c1c9d4bfd91b67c476ccfb6bc26911d4174d21809b75927b7bf6869828e8053a") 52428800;
       ChunkInfo 69 (uint256S "e73562096fb52cc3cffa5bc5a75b1a548d9b3f2f81238c7c5fa4f535f12d2911") 52428800;
       ChunkInfo 70 (uint256S "1cf30fc0d4a8499f287b19826e65e6fb333c06e76c53922f1f17cf96f961cbdf") 52428800;
       ChunkInfo 71 (uint256S "31d9bbb42fb71e9a7f7ddc2d2c8e846e72a369914e02dbfbd57fb57516467051") 52428800;
       ChunkInfo 72 (uint256S "e95ad01e6bf224d1fefb3c600eef235169c21bbe7f792416e90d50342d5f131c") 52428800;
       ChunkInfo 73 (uint256S "3c4d6f58fe267d0b489d9e44ecc0d2cbbb1155edfd5dd300c9ab2db34591315c") 52428800;
       ChunkInfo 74 (uint256S "6ef9ee05c05651ad676b29d76319b780db1b5a4623d2ec2173c68d2d078d5427") 52428800;
       ChunkInfo 75 (uint256S "ab2c84b8dd4ebe3c346e41d26cb90d9e3133625a82e2930928b09e4e3fdabab0") 52428800;
       ChunkInfo 76 (uint256S "4e7ea0a43158648e421fb9d3925d78d403f63963225739f995aec36085e1ff8b") 52428800;
       ChunkInfo 77 (uint256S "893416a8fb987d748cfe2fa3775beb7ce2e43ca04470f8687397d9e581f887ad") 52428800;
       ChunkInfo 78 (uint256S "2fc52590251c07e990df62bc7a35e587c9acf442d9c4cecc10eeaeee9068659b") 52428800;
       ChunkInfo 79 (uint256S "a9c7376205904591b77955a11c235e9339188750c4d0e59b5695616d1d2e589a") 52428800;
       ChunkInfo 80 (uint256S "a30b72f480dbffd2e5222f402e5072f6b16c71bcc5b7b0175d412f4e4b7e7ef3") 52428800;
       ChunkInfo 81 (uint256S "0e5cd004def0cc06dbb8299a2e9db9feab2849bd887639e0dd90fa9e4a2bd31f") 52428800;
       ChunkInfo 82 (uint256S "550403c8860f35af058471d47c8d16bc22e3ea9be4f2323822251baea18b1edd") 52428800;
       ChunkInfo 83 (uint256S "71def6e4d8a51257398dec201910c48bef57b08ec85f4b78097f98df98a4090b") 52428800;
       ChunkInfo 84 (uint256S "8f9f98c39d319a0a15f7284e95951c3bb3248ad77fe5b312beb08fdfbba2e105") 52428800;
       ChunkInfo 85 (uint256S "e8b8c15580542b55eca3ece1e327a32fdf1a282d99f87fe52fca8099ba87ba52") 52428800;
       ChunkInfo 86 (uint256S "44cc3d005f20552c7e4605fb5245ce7d3917af6debee94c1fd41f8b2b7f22d69") 52428800;
       ChunkInfo 87 (uint256S "7a87d5c39fce58749bd7504b0318edb0dfbde5ccb507145dfcd188b7bd1a8021") 52428800;
       ChunkInfo 88 (uint256S "afc0a40b277ea2549f500a8c7491932e13f211a02262d8be1c262890debc53f6") 52428800;
       ChunkInfo 89 (uint256S "d322a021f54833ff529ebcb708c668a2b69495c4cff3ebec1e8e3359294f53e8") 52428800;
       ChunkInfo 90 (uint256S "1f7733351c0c68cd1bc3f47bf34897fc209ab1f2fafde3b6a153e7d61541aaf7") 52428800;
       ChunkInfo 91 (uint256S "74cdc6dd292386fdd4ac6fc699b6d72d7bfd0643ff25839e2db71218e4cc31f8") 52428800;
       ChunkInfo 92 (uint256S "9e0cb226a128ef1fc8d9b36eb8ace88175158cc29dc8c17b6a6b4c5e061112fa") 52428800;
       ChunkInfo 93 (uint256S "0b256226bd421b52c357a39eb5e754a7bd9b8c4f37f9582a981a6eba2fe36b08") 52428800;
       ChunkInfo 94 (uint256S "2af7ab13e097fe09a3bf5c4b1b873d4699819b4c9164f286c92151796d739433") 52428800;
       ChunkInfo 95 (uint256S "7d7e3f30ea6ded736ee370d9d2679a6396086e1e162ceacc6637b70557e16563") 52428800;
       ChunkInfo 96 (uint256S "eccd6e66a23c39dacd67bfa466a3f3d4b7d0871e147ec38195a76b5068b32306") 52428800;
       ChunkInfo 97 (uint256S "da3f8590607480af70c667efa0c3d5983b68338921bb3aeceb00e06c016f95d3") 52428800;
       ChunkInfo 98 (uint256S "8e0b21a52a5237974291988c366bc4d0ade40003ce322f877b6399d128e4bf63") 52428800;
       ChunkInfo 99 (uint256S "dab3d8d2d4421be9babe1668ac9ebfdfd9fba3465e2222ad743e255c3bdca240") 52428800;
       ChunkInfo 100 (uint256S "c04a79584ba6d7985f8f409909d465f73b3dc326735a0d593f400afcdbdc1c41") 52428800;
       ChunkInfo 101 (uint256S "8b0d76852bc194bfaf5ff64d318943274d79d392094e936cbbeba05f81f76332") 52428800;
       ChunkInfo 102 (uint256S "56155b3138e0c5860f456dfaefd386e6134bb26e20c5e05416a71dd1c6ae6d0e") 52428800;
       ChunkInfo 103 (uint256S "5e6e0c6e00bf0801d9ff2cee0aedd0936f3bc71bc0463127427e75646d090f91") 52428800;
       ChunkInfo 104 (uint256S "a333f7ca131bde238a1b7ca3c761f310c2cf3dcfb2eee824dbf9bf964dec80d8") 52428800;
       ChunkInfo 105 (uint256S "a318357d14fd22194806ae605030cc8aa917e1c98d3acdaad78ba089c4dbb390") 52428800;
       ChunkInfo 106 (uint256S "047db461a515e7cc14be2632e374a7923a058b8543b3469cf113f5048e074757") 52428800;
       ChunkInfo 107 (uint256S "80f8110f214696a1c11f7d8d40172719689254e402201496e1c67508470033fd") 52428800;
       ChunkInfo 108 (uint256S "b4da1aea1c3b8c6d440cbbfa0483b1af7385d4d8514a6832e11095ea4dc35d2c") 52428800;
       ChunkInfo 109 (uint256S "383c86b3e43f256e425fa53bf5d1aef45600c8a567cc14c224e50e773f2f0cea") 52428800;
       ChunkInfo 110 (uint256S "5d880e24d51a3154df3138d2d46240d684c33e481c9418b778e75d56dd293e03") 52428800;
       ChunkInfo 111 (uint256S "41378fa23a82dd66032343056e63b591d8897b2114024d922fba450c3f8b6623") 52428800;
       ChunkInfo 112 (uint256S "47565fe962cad279f5aa8262f883dd21a551d9aa0a9ecada110bd8e1f08ab9e6") 52428800;
       ChunkInfo 113 (uint256S "366a079cb3e902e867706f2d0170264a1796762bfc348c2d098e62c6b386ffb4") 52428800;
       ChunkInfo 114 (uint256S "abc74b8fe1fd8377a0469146661f1cbd88759813fa390818d0afdc1782421914") 52428800;
       ChunkInfo 115 (uint256S "f2bffa87dc9776f4639eb6002110366bd706e8ac57035abeb20f122c786a3470") 52428800;
       ChunkInfo 116 (uint256S "7a66fcb47d5d9d9bdc6070b48d6d0b0bf69a218b650eb110303bde43f28c899d") 52428800;
       ChunkInfo 117 (uint256S "2ad75290f043fad0d58edb10e658d44a719b206a7eb1dbee00ddafc8fa2c53e9") 52428800;
       ChunkInfo 118 (uint256S "f7509d851f7e7323351b9fdc2687bd0f29234f6085ecd0fc2ae4bc51051a2208") 52428800;
       ChunkInfo 119 (uint256S "4b1eb35ad7bc3e06be99cfede0e4c16b308ccae451223651abf9afc7c642df81") 52428800;
       ChunkInfo 120 (uint256S "11321c2f2360707a793419524fc4ccf1d00fab0d5dbf6a0e15f60aaa2977276e") 52428800;
       ChunkInfo 121 (uint256S "1d2674aaba4db787a41146e797d23401fd057df6cbda7c2b45035d0ce7e034d6") 52428800;
       ChunkInfo 122 (uint256S "5794c28139a9222ce497a97475033e3234ebda6d8284859851e08d4e88ef77f0") 52428800;
       ChunkInfo 123 (uint256S "9971a2ae5884ea520870a0ab7c807c9a950ccb650173062e199a1eb718cd45bb") 52428800;
       ChunkInfo 124 (uint256S "79682e895f08a4192358c84c25c2659ca17a39dd0131673f6bc42b2d7a0ef255") 52428800;
       ChunkInfo 125 (uint256S "36476d9106de3ad7f70e97c2ca6ed7ce969febf5f87602c7c3bacc34aea6652d") 52428800;
       ChunkInfo 126 (uint256S "987e5bc27e8eb4523a6761f404c5326306392fbbafce1bfbde5cc0e5071c9267") 52428800;
       ChunkInfo 127 (uint256S "09d178c896e8859c03f79e7cf316686976892849087fe7a0870461b80182569c") 52428800;
       ChunkInfo 128 (uint256S "1e6b8a636fd2fe1a7343dc4e4326a5d38449639c21e6767cb352fbdcb7ceae12") 52428800;
       ChunkInfo 129 (uint256S "351508b2af4cb6bc79f768303ac728611bb7a0ce89227c92fd5c18b62085e9be") 52428800;
       ChunkInfo 130 (uint256S "b059428265de73c2577031389d49244320b091920acc237b7570355023eb1268") 52428800;
       ChunkInfo 131 (uint256S "46de5a1f5c02f7027af3344c54b90f480a9f0b94191818f9461ca169ffd857f6") 52428800;
       ChunkInfo 132 (uint256S "68f67cbf9f58984d4f0f9fbf8b15edabd22600726ac576bbebe512cf75008921") 52428800;
       ChunkInfo 133 (uint256S "6e8e0be5933f05d800ed13ffed9275b5fb312d6f7a481e72333835d7a9702b55") 52428800;
       ChunkInfo 134 (uint256S "c1e953945b2df9b4261d3e3b81db62a2412c48e98890bd53ff4173de3e3a17aa") 52428800;
       ChunkInfo 135 (uint256S "79afc3ade1f9b0c94cd9512d152cc41d64812c826cc5ce5b64b929c07713fe50") 52428800;
       ChunkInfo 136 (uint256S "1719378f17284dd461e7812d230797cfdebbb9d7ee6e1c0d2390a37401a0c582") 52428800;
       ChunkInfo 137 (uint256S "af81c62616164dfd190d094223ae0b2975076910d9fce52406ba3ddcc9b5cc3b") 52428800;
       ChunkInfo 138 (uint256S "02beabed5eb2d12c9567509a62a7e1e482794f845f8aff8966bb34c7ab05d9f4") 52428800;
       ChunkInfo 139 (uint256S "6f00a58676c0f1c3bab07b3039461a165012f6079245594a7e9e9156b6f2106e") 52428800;
       ChunkInfo 140 (uint256S "decf73bdb5e678fc64a4997bbb6abf8a918c2dbceb01333b63dd98659bd6eabd") 52428800;
       ChunkInfo 141 (uint256S "83e8e87758e9c4601b4ef6eef50e56aebb1afd0fb6d21db55692b9c674b42d52") 52428800;
       ChunkInfo 142 (uint256S "b9a507bca753b08ba32e8cc9df36978f6e597674f1416983c6a84e33e0b96b64") 52428800;
       ChunkInfo 143 (uint256S "2602937a1ff0412c37b727f19618db3280015c8effa7c1f65ec69095bfdfd4e6") 52428800;
       ChunkInfo 144 (uint256S "c2764e2c68524a6ae369f8e924baff134f1c888e187eba797dbe3de7dd46396b") 52428800;
       ChunkInfo 145 (uint256S "6aa680fe27da34f3e54ae1b2b7df455cb497f0b5974a261add9866fb8c26d94e") 52428800;
       ChunkInfo 146 (uint256S "55c6425cb9ebefc1f5a1221c160cb1b7ef950a1eed506645c96e76d926d88330") 52428800;
       ChunkInfo 147 (uint256S "c9c605ac0bb194a5276a2ac14892d57b52abfe9258285c7a8a27ebb56848d5f9") 52428800;
       ChunkInfo 148 (uint256S "e91072a472a257e3f387a3109c6e1521bbc73e26030985f8117313e3fac10fda") 52428800;
       ChunkInfo 149 (uint256S "5bb0242392e537c1b37a12e886806102c0254639ce6ec790a400f4e448314788") 52428800;
       ChunkInfo 150 (uint256S "031bf898502ee1a088233326a93ad878b09d51779534cd9600ee3e2548cf5aa5") 52428800;
       ChunkInfo 151 (uint256S "4d696947ac80f32ab8577cb1a00dcaba982148c0103eb72026b5fab6ddd77eca") 52428800;
       ChunkInfo 152 (uint256S "8276ab7f7193b7947160eb0946fc007bd3dc4ce32c92d9d2d7b4ee1a86a91b7f") 52428800;
       ChunkInfo 153 (uint256S "93f5778e30040d9df60b0fac08368b6ed1d7dd2e13b79b086722a8925a98e5d2") 52428800;
       ChunkInfo 154 (uint256S "3aae45aef62e87e1e2c09e2aab4923043771fe6e20a78c4f6ab5960c6dbe5542") 52428800;
       ChunkInfo 155 (uint256S "1f86e231039597aade4cc8136bd8a0fe44768b4d4b9e0d5335470ae3afdf7de5") 52428800;
       ChunkInfo 156 (uint256S "652e1520c9594caeadc3edf22ba91cd6e54f173bea593156d487ec02c1040016") 52428800;
       ChunkInfo 157 (uint256S "8969d9073dba3ff20af00eff6216bcbad60879ea4ff543f7672abd8575ec380a") 52428800;
       ChunkInfo 158 (uint256S "6c2aacb206f9359f3bbc5093ea6c3c69116a33eba8b7163b75b22665acb046a0") 52428800;
       ChunkInfo 159 (uint256S "b5999dbb40fbbda0a2b6be0d95069c4e937ed882b7184fb1d667ee9373265c80") 52428800;
       ChunkInfo 160 (uint256S "97ff53a2c18cd994f8021b7568af9afb6458cf7cafc1e3b82cb810bf641fe2af") 52428800;
       ChunkInfo 161 (uint256S "7a0d8412aea9a9e7d0e7bccc8a214cbb6ad66ffe75e7daa864418d82c92133d4") 52428800;
       ChunkInfo 162 (uint256S "65ba7f3449cda0f0a9af31e564db91ac12c384ed6df6258576736b6bd213dada") 52428800;
       ChunkInfo 163 (uint256S "86b92a4b560a6d46ab52bb672040b575b03c5b4d002281da54dd2127d6fb403f") 52428800;
       ChunkInfo 164 (uint256S "19434df675c1bee008ea9450e643c5d84ba48c0b3271f377c979aa75329b42a4") 52428800;
       ChunkInfo 165 (uint256S "09da3a2a3dba988c4d88f1dd59250fa9f6fade408d436e58f06846c1b813da4c") 52428800;
       ChunkInfo 166 (uint256S "4fe41d008b49da7c23ca714081b0cbc121f6801b644ff59b7f50ccb70d762810") 52428800;
       ChunkInfo 167 (uint256S "fcc1252a2b3e25eb29c5750acb5b5b8c0e608bc0b3adf4aa3806fb32c3a1bde7") 52428800;
       ChunkInfo 168 (uint256S "f0261c4e5ce5c6169bf427c5a7cbe67e2209b3dd242c1e81283b41e512800896") 52428800;
       ChunkInfo 169 (uint256S "313b0350d7f46d3e5629515cb205ca19d0e5eef37d344e34c90616940b277170") 52428800;
       ChunkInfo 170 (uint256S "916f76fdc915398167419bec551a8697face9a1200e19cfd3e4fcd45b583f32f") 40118312 ] |}.

Definition GetHardcodedParamsManifest : CSnapshotManifest :=
  {| nBlockHeight := 0; (* Params are version-specific, not height-specific *)
     nTimestamp := 1760889827;
     nTotalSize := 1624488461;
     vChunks :=
     [
       ChunkInfo 0 (uint256S "a46904a35985af803cc57ad3f32a4062f47181034b09aefb5e9aa026d759176a") 52428800;
       ChunkInfo 1 (uint256S "0b74c5a2dc84818f89647eb762dfacdc5f74fde601b15841b4916660432b0a4b") 52428800;
       ChunkInfo 2 (uint256S "cfe658eb76c7d90dc205c46f6b8e9b8428f4739ac7d35ae627e87b6e5adfd0e2") 52428800;
       ChunkInfo 3 (uint256S "4fc7126fa201f01d1d9b3b1f82c3c1f042e08e864da91adc598699555c9a8b13") 52428800;
       ChunkInfo 4 (uint256S "c86b18955df31669feeecf873142d595dfecf5bf15d852e06a21593cb90c31ca") 52428800;
       ChunkInfo 5 (uint256S "b4e63753c5fe732c2e7af36161c3cfeef5c4d90df7ed1586d695e3c68227ca99") 52428800;
       ChunkInfo 6 (uint256S "f5e134ff763f5aff24acb210e386886755b3124c5470f0d808e6f808ef2101d1") 52428800;
       ChunkInfo 7 (uint256S "3e86e8376d13ff15551206cd72ce27176b6bf9ef1101e57101c9dbb5aea06700") 52428800;
       ChunkInfo 8 (uint256S "08f25b63388e2944143501924f189b27255de993d3626ffaca5c1d3322c14089") 52428800;
       ChunkInfo 9 (uint256S "05912f9ab06fc9777b07116807aa7ea0b29fb7306e5971ef5bd929bb04ecd14a") 52428800;
       ChunkInfo 10 (uint256S "1f57bef4b8eb50d6891f82ac5f32579bab2b4cab7adb1ef7a8295fffaa5ac16e") 52428800;
       ChunkInfo 11 (uint256S "b4b65d27bb87a54ec8a9cac3b96d146e3bb12786750a318bfbbe6cfb0bfd9c37") 52428800;
       ChunkInfo 12 (uint256S "55adf7896737363688a160c3b16dad9a6cec9110dbbcf492d9e1878c6b3f5766") 52428800;
       ChunkInfo 13 (uint256S "f9e85550026030d149d16e54e554788fb1cc4b4794c0c4e3c3621b7507a15e01") 52428800;
       ChunkInfo 14 (uint256S "f774b63dc9efd500045d0e9f5fb29bc02e8ff664633b591e604a5a7bf0e4dfff") 52428800;
       ChunkInfo 15 (uint256S "5da0ce24fdb36c8910512ef642e5629a7149c4d0c3e1a2b48f64cf65dc59abd4") 52428800;
       ChunkInfo 16 (uint256S "f033d49e967867ef134230ec0317fc80ef8769a711aa3b270a0328c200cf7c14") 52428800;
       ChunkInfo 17 (uint256S "eed88f02d384a3ccd5c5f7d5a8ab64eb632042ac41ac8a34f4e72f2d3b8d93d3") 52428800;
       ChunkInfo 18 (uint256S "4d7616ef6d2a10103d279e7c67445dcb7ff2118a110849179539a23d056b6bf9") 52428800;
       ChunkInfo 19 (uint256S "1840f59366848a59f44306d51ac82588e6fa59f5fc1293f21eef3244345a3853") 52428800;
       ChunkInfo 20 (uint256S "6a4faa50032983f53acd1391c8f39bbae90c9acccb5e6a9b94d698cd6f3afabc") 52428800;
       ChunkInfo 21 (uint256S "5aa5caac0ace9586c909da3dc7724d6670769f60a93f2ba3925bf7ce70a64993") 52428800;
       ChunkInfo 22 (uint256S "daab4c9149d510611b340f6738abb0017f6f26f3f195e7026e0fc11dc807ad7b") 52428800;
       ChunkInfo 23 (uint256S "836d492c799d79d5f008247f16c8af62e73849fc0e5a264f455edcf305167de7") 52428800;
       ChunkInfo 24 (uint256S "97814dae6056a18c7a776ae35445a7fcad4b06581f6987b7d2c4700bd9ff5243") 52428800;
       ChunkInfo 25 (uint256S "c1f64f1b7c3f92ae9da0997ae9ddbfb3ad08ea55220054d626a25206a9404281") 52428800;
       ChunkInfo 26 (uint256S "94d7cf482692251f012db6b12aa9bd7619f35f7d49c82108b07d7162110cb7b0") 52428800;
       ChunkInfo 27 (uint256S "7c633ad18809ecc6ae6f106b69f9e0c1f41beacd5134eebdb676cf6d8aa1332c") 52428800;
       ChunkInfo 28 (uint256S "792491c4e05898f2fff3cfc59e06d1c5b46ec057f1bc41a941c7101e6640df89") 52428800;
       ChunkInfo 29 (uint256S "21c9578131d7309e280699cde2579055359a5332346ec905b57565d7056d7d95") 52428800;
       ChunkInfo 30 (uint256S "1d3af3bd7366ddda8703cf6cbbaede45fb6e9dd710c1baf71a2c4ac22d1f4e04") 51624461 ] |}.

Local Close Scope string_scope.

(** The sum of the chunk sizes of a manifest (used to state the data-model
    invariant [sum(size) == total_size]; the code never computes it). *)
Definition sum_sizes (cs : list CSnapshotChunkInfo) : N :=
  fold_right (fun c acc => nSize c + acc) 0 cs.

(** ** Fixtures used by the concrete evaluations below *)

(** A manifest that passes [IsValid] although its chunk sizes do not add up
    to [nTotalSize]. *)
Definition manifest_wrong_total : CSnapshotManifest :=
  {| nBlockHeight := 1; nTimestamp := 0; nTotalSize := 7;
     vChunks := [ChunkInfo 0 uint256_zero 5] |}.

(** A one-chunk store whose chunk is the three bytes of "abc"; the digest is
    the text sha256sum prints for them. *)
Definition abc : list byte := bytes_of_string "abc".

Definition abc_store : CSnapshotStore :=
  {| manifest :=
       {| nBlockHeight := 1; nTimestamp := 0; nTotalSize := 3;
          vChunks :=
            [ChunkInfo 0
               (uint256S "ba7816bf8f01cfea414140de5dae2223b00361a396177a9cb410ff61f20015ad")
               3] |} |}.

(** The same store with the digest of the double hash [SHA256(SHA256(abc))]
    published instead. *)
Definition abc_store_double : CSnapshotStore :=
  {| manifest :=
       {| nBlockHeight := 1; nTimestamp := 0; nTotalSize := 3;
          vChunks :=
            [ChunkInfo 0 (rev (SHA256.digest (SHA256.digest abc))) 3] |} |}.

(** ** Download state (CSnapshotDownloadState) *)

Record CSnapshotDownloadState := mkDownloadState {
  mapChunksReceived : gmap N bool;   (* chunk number -> received *)
  mapChunkRequests : gmap N Z;       (* chunk number -> request time *)
  nTotalChunks : N;                  (* uint32_t *)
  nDownloadStartTime : Z;
  nLastProgressTime : Z;
  nLastProgressCount : N             (* uint32_t *)
}.

(** [explicit CSnapshotDownloadState(uint32_t nTotalChunksIn)] *)
Definition NewDownloadState (nTotalChunksIn : N) : CSnapshotDownloadState :=
  mkDownloadState ∅ ∅ nTotalChunksIn 0 0 0.

Definition IsChunkReceived (s : CSnapshotDownloadState) (nChunk : N) : bool :=
  match mapChunksReceived s !! nChunk with
  | Some b => b
  | None => false
  end.

(** The loop shared by [IsComplete] and [GetNextChunkToRequest]: scan [cnt]
    indices from [i] upwards and stop at the first one not received. *)
Fixpoint first_missing (s : CSnapshotDownloadState) (i : N) (cnt : nat) : option N :=
  match cnt with
  | O => None
  | S cnt' =>
      if negb (IsChunkReceived s i) then Some i
      else first_missing s (i + 1) cnt'
  end.

Definition IsComplete (s : CSnapshotDownloadState) : bool :=
  match first_missing s 0 (N.to_nat (nTotalChunks s)) with
  | Some _ => false
  | None => true
  end.

Definition GetNextChunkToRequest (s : CSnapshotDownloadState) : N :=
  match first_missing s 0 (N.to_nat (nTotalChunks s)) with
  | Some i => i
  | None => nTotalChunks s   (* All received *)
  end.

(** [uint32_t count = 0; for (pair : map) if (pair.second) count++;] *)
Definition GetReceivedCount (s : CSnapshotDownloadState) : N :=
  map_fold (fun _ (b : bool) count => if b then u32 (count + 1) else count)
           0 (mapChunksReceived s).

(** [tStart] is the value [GetTime()] returns when the timer is started (read
    only on the first received chunk), [tNow] the value of the later call
    that sets [nNow]. *)
Definition MarkChunkReceived (tStart tNow : Z) (s : CSnapshotDownloadState)
    (nChunk : N) : CSnapshotDownloadState :=
  if nChunk <? nTotalChunks s then
    let received := <[nChunk := true]> (mapChunksReceived s) in
    (* Start timer on first chunk *)
    let '(start, last) :=
      if (nDownloadStartTime s =? 0)%Z then (tStart, tStart)
      else (nDownloadStartTime s, nLastProgressTime s) in
    let s1 := mkDownloadState received (mapChunkRequests s) (nTotalChunks s)
                              start last (nLastProgressCount s) in
    (* Log progress every 10 chunks or every 30 seconds *)
    let nReceived := GetReceivedCount s1 in
    let nNow := tNow in
    let bShouldLog := (nReceived mod 10 =? 0) || (nNow - last >=? 30)%Z in
    if bShouldLog && (nLastProgressCount s1 <? nReceived) then
      mkDownloadState received (mapChunkRequests s) (nTotalChunks s)
                      start nNow nReceived
    else s1
  else s.

Definition RecordChunkRequest (s : CSnapshotDownloadState) (nChunk : N) (nTime : Z)
    : CSnapshotDownloadState :=
  mkDownloadState (mapChunksReceived s) (<[nChunk := nTime]> (mapChunkRequests s))
                  (nTotalChunks s) (nDownloadStartTime s) (nLastProgressTime s)
                  (nLastProgressCount s).

Definition HasRecentRequest (s : CSnapshotDownloadState) (nChunk : N) (nNow : Z) : bool :=
  match mapChunkRequests s !! nChunk with
  | None => false
  | Some t => (nNow - t <? 60)%Z   (* "recent" if within last 60 seconds *)
  end.

(** The state-changing calls a client can make on a download state. *)
Inductive DownloadOp :=
  | OpMarkChunkReceived (tStart tNow : Z) (nChunk : N)
  | OpRecordChunkRequest (nChunk : N) (nTime : Z).

Definition download_step (s : CSnapshotDownloadState) (op : DownloadOp)
    : CSnapshotDownloadState :=
  match op with
  | OpMarkChunkReceived tStart tNow nChunk => MarkChunkReceived tStart tNow s nChunk
  | OpRecordChunkRequest nChunk nTime => RecordChunkRequest s nChunk nTime
  end.

Definition download_run (ops : list DownloadOp) (s : CSnapshotDownloadState)
    : CSnapshotDownloadState :=
  fold_left download_step ops s.

(** Invariant of the download state: the keys of the received map stay below
    [n], and only [true] is ever stored. *)
Definition received_ok (n : N) (s : CSnapshotDownloadState) : Prop :=
  nTotalChunks s = n /\
  forall k b, mapChunksReceived s !! k = Some b -> k < n /\ b = true.

(** A download of three chunks arriving out of order, with one request
    recorded and one chunk number out of range. *)
Definition three_chunk_ops : list DownloadOp :=
  [ OpMarkChunkReceived 1000 1000 2; OpRecordChunkRequest 1 1001;
    OpMarkChunkReceived 1003 1003 0; OpMarkChunkReceived 1004 1004 7;
    OpMarkChunkReceived 1005 1005 1 ].

(** ** Download coordinator (CSnapshotDownloadCoordinator) *)

Module Coordinator.

(** [typedef int NodeId] *)
Abbreviation NodeId := Z.

Record PeerDownloadState := mkPeerDownloadState {
  nLastRequestTime : Z;
  nChunksRequested : N;       (* uint32_t *)
  nChunksFailed : N;          (* uint32_t *)
  nConsecutiveFailures : N;   (* uint32_t *)
  nBackoffUntil : Z
}.

(** [PeerDownloadState()] *)
Definition NewPeerDownloadState : PeerDownloadState :=
  mkPeerDownloadState 0 0 0 0 0.

(** The download state is reached through the pointer [pDownloadState]; the
    operations that read it take it as an argument. *)
Record CSnapshotDownloadCoordinator := mkCoordinator {
  mapPeerStates : gmap Z PeerDownloadState;
  mapChunkToNode : gmap N Z   (* Track which peer we requested from *)
}.

Definition NewCoordinator : CSnapshotDownloadCoordinator := mkCoordinator ∅ ∅.

Definition MAX_CONCURRENT_PEER_REQUESTS : N := 12.
Definition MIN_SECONDS_BETWEEN_REQUESTS : N := 3.
Definition REQUEST_TIMEOUT_SEC : N := 60.

(** [mapPeerStates[node]] *)
Definition peer_state (c : CSnapshotDownloadCoordinator) (node : Z) : PeerDownloadState :=
  default NewPeerDownloadState (mapPeerStates c !! node).

Definition RecordRequest (nNow : Z) (c : CSnapshotDownloadCoordinator)
    (node : Z) (nChunk : N) : CSnapshotDownloadCoordinator :=
  let state := peer_state c node in
  let state' :=
    mkPeerDownloadState nNow (u32 (nChunksRequested state + 1))
      (nChunksFailed state) (nConsecutiveFailures state) (nBackoffUntil state) in
  mkCoordinator (<[node := state']> (mapPeerStates c))
                (<[nChunk := node]> (mapChunkToNode c)).

Definition RecordSuccess (c : CSnapshotDownloadCoordinator)
    (node : Z) (nChunk : N) : CSnapshotDownloadCoordinator :=
  let state := peer_state c node in
  (* Reset failure counters on success *)
  let state' :=
    mkPeerDownloadState (nLastRequestTime state) (nChunksRequested state)
      (nChunksFailed state) 0 0 in
  mkCoordinator (<[node := state']> (mapPeerStates c))
                (delete nChunk (mapChunkToNode c)).

Definition RecordFailure (nNow : Z) (c : CSnapshotDownloadCoordinator)
    (node : Z) (nChunk : N) : CSnapshotDownloadCoordinator :=
  let state := peer_state c node in
  let failures := u32 (nConsecutiveFailures state + 1) in
  (* Exponential backoff: 10s, 30s, 60s, 300s *)
  let backoffTime : N :=
    if 4 <=? failures then 300
    else if failures =? 3 then 60
    else if failures =? 2 then 30
    else 10 in
  let state' :=
    mkPeerDownloadState (nLastRequestTime state) (nChunksRequested state)
      (u32 (nChunksFailed state + 1)) failures (nNow + Z.of_N backoffTime) in
  mkCoordinator (<[node := state']> (mapPeerStates c))
                (delete nChunk (mapChunkToNode c)).

Definition GetPeerBackoff (nNow : Z) (c : CSnapshotDownloadCoordinator) (node : Z) : Z :=
  match mapPeerStates c !! node with
  | None => 0
  | Some st => if (nNow <? nBackoffUntil st)%Z then nBackoffUntil st - nNow else 0
  end%Z.

(** Iteration over a [std::map] visits the entries by increasing key. *)
Definition key_le (x y : N * Z) : Prop := x.1 <= y.1.
#[global] Instance key_le_dec : RelDecision key_le := fun x y => decide (x.1 <= y.1).

Definition in_key_order (m : gmap N Z) : list (N * Z) :=
  merge_sort key_le (map_to_list m).

(** The test applied to one in-flight entry: the peer has a state entry
    and more than [REQUEST_TIMEOUT_SEC] seconds passed since that peer's
    [nLastRequestTime]. *)
Definition timed_out (nNow : Z) (peers : gmap Z PeerDownloadState) (node : Z) : bool :=
  match peers !! node with
  | Some st => (Z.of_N REQUEST_TIMEOUT_SEC <? nNow - nLastRequestTime st)%Z
  | None => false
  end.

(** One turn of the loop of [GetTimedOutRequests]. *)
Definition reap_step (nNow : Z) (peers : gmap Z PeerDownloadState)
    (acc : list (Z * N) * gmap N Z) (e : N * Z) : list (Z * N) * gmap N Z :=
  let '(nChunk, node) := e in
  if timed_out nNow peers node
  then (acc.1 ++ [(node, nChunk)], delete nChunk acc.2)
  else acc.

Definition GetTimedOutRequests (nNow : Z) (c : CSnapshotDownloadCoordinator)
    : list (Z * N) * CSnapshotDownloadCoordinator :=
  let r := fold_left (reap_step nNow (mapPeerStates c))
                     (in_key_order (mapChunkToNode c)) ([], mapChunkToNode c) in
  (r.1, mkCoordinator (mapPeerStates c) r.2).

Definition RemovePeer (c : CSnapshotDownloadCoordinator) (node : Z)
    : CSnapshotDownloadCoordinator :=
  mkCoordinator (delete node (mapPeerStates c))
                (filter (fun e : N * Z => e.2 <> node) (mapChunkToNode c)).

(** The calls that change the coordinator, with the clock value each one
    reads. *)
Inductive CoordOp :=
  | OpRecordRequest (nNow : Z) (node : Z) (nChunk : N)
  | OpRecordSuccess (node : Z) (nChunk : N)
  | OpRecordFailure (nNow : Z) (node : Z) (nChunk : N)
  | OpRemovePeer (node : Z).

Definition coord_step (c : CSnapshotDownloadCoordinator) (op : CoordOp)
    : CSnapshotDownloadCoordinator :=
  match op with
  | OpRecordRequest nNow node nChunk => RecordRequest nNow c node nChunk
  | OpRecordSuccess node nChunk => RecordSuccess c node nChunk
  | OpRecordFailure nNow node nChunk => RecordFailure nNow c node nChunk
  | OpRemovePeer node => RemovePeer c node
  end.

Definition coord_run (ops : list CoordOp) : CSnapshotDownloadCoordinator :=
  fold_left coord_step ops NewCoordinator.

(** The clock value at which the request for [nChunk] was recorded: the
    time read by the most recent [RecordRequest] for that chunk. The
    coordinator keeps no such value; it is defined on the history of
    calls. *)
Definition recorded_step (g : gmap N Z) (op : CoordOp) : gmap N Z :=
  match op with
  | OpRecordRequest nNow _ nChunk => <[nChunk := nNow]> g
  | _ => g
  end.

Definition recorded_at (ops : list CoordOp) (nChunk : N) : option Z :=
  fold_left recorded_step ops ∅ !! nChunk.

(** Two requests to peer 7: chunk 0 at second 1000, chunk 1 at second
    1050. *)
Definition two_requests : list CoordOp :=
  [OpRecordRequest 1000 7 0; OpRecordRequest 1050 7 1].

End Coordinator.

(** ** UTXO-set hash verification *)

Module Stats.
(** Modelled from the spec: [CCoinsStats] (coins.h) is not among the
    sources; the fields are the ones [CalculateUTXOSetHash] reads, the
    "(hash_serialized, tip_hash, tx_count, ...)" of the spec. *)
Record CCoinsStats := {
  nHeight : Z;
  hashBlock : uint256;
  nTransactions : N;
  nTransactionOutputs : N;
  hashSerialized : uint256;
  nTotalAmount : Z
}.
End Stats.

(** Modelled from the spec: [CSnapshotCheckpoint] (chainparams.h) is not among
    the sources; it is the checkpoint tuple "(height, block_hash, utxo_hash,
    tx_count)" of the spec. *)
Record CSnapshotCheckpoint := {
  nHeight : Z;            (* int *)
  hashBlock : uint256;
  hashUTXOSet : uint256;
  nChainTx : N
}.

(** The coins database as [CalculateUTXOSetHash] sees it: [pcoinsTip] is
    [None] for a null pointer; otherwise it holds what [GetStats] yields,
    [None] when [GetStats] returns false. *)
Record ChainState := { pcoinsTip : option (option Stats.CCoinsStats) }.

(** Calls into the validation engine, in the order they are made. *)
Inductive ExtCall := CallFlushStateToDisk | CallGetStats.

(** The third component tells whether the "Block hash mismatch" warning was
    logged. *)
Definition CalculateUTXOSetHash (env : ChainState) (blockHash : uint256)
    : uint256 * list ExtCall * bool :=
  match pcoinsTip env with
  | None => (uint256_zero, [], false)
  | Some view =>
      match view with
      | None => (uint256_zero, [CallFlushStateToDisk; CallGetStats], false)
      | Some stats =>
          (* Verify we got stats for the expected block *)
          let warned := bool_decide (Stats.hashBlock stats <> blockHash) in
          (Stats.hashSerialized stats, [CallFlushStateToDisk; CallGetStats], warned)
      end
  end.

(** The loop that looks for the matching checkpoint. *)
Definition find_checkpoint (checkpoints : list CSnapshotCheckpoint)
    (blockHash : uint256) (height : Z) : option CSnapshotCheckpoint :=
  List.find (fun cp => (nHeight cp =? height)%Z && bool_decide (hashBlock cp = blockHash))
            checkpoints.

(** [checkpoints] is [Params().SnapshotCheckpoints()]. *)
Definition VerifySnapshotUTXOHash (env : ChainState)
    (checkpoints : list CSnapshotCheckpoint) (blockHash : uint256) (height : Z)
    : bool * list ExtCall :=
  if bool_decide (checkpoints = []) then (true, [])
  else
    match find_checkpoint checkpoints blockHash height with
    | None => (true, [])    (* No checkpoint for this height, skip verification *)
    | Some cp =>
        if bool_decide (hashUTXOSet cp = uint256_zero) then (true, [])
        else
          let '(actualUTXOHash, calls, _) := CalculateUTXOSetHash env blockHash in
          if bool_decide (actualUTXOHash <> hashUTXOSet cp) then (false, calls)
          else (true, calls)
    end.

(** A checkpoint with a real UTXO hash, and a coins database whose statistics
    carry that UTXO hash but were computed at another tip. *)
Definition checkpoint_1 : CSnapshotCheckpoint :=
  {| nHeight := 1; hashBlock := repeat x01 32; hashUTXOSet := repeat x02 32;
     nChainTx := 0 |}.

Definition stats_other_tip : ChainState :=
  {| pcoinsTip := Some (Some
       {| Stats.nHeight := 1; Stats.hashBlock := repeat x03 32;
          Stats.nTransactions := 0; Stats.nTransactionOutputs := 0;
          Stats.hashSerialized := repeat x02 32; Stats.nTotalAmount := 0 |}) |}.

(** ** Rate limiter (CSnapshotRateLimiter) *)

(** A [uint64_t] sum stored into an [int64_t]. *)
Definition s64 (x : Z) : Z := ((x + 2 ^ 63) mod 2 ^ 64 - 2 ^ 63)%Z.

Module RateLimiter.

(** [CNetAddr], the key of [mapPeerRequests]. *)
Abbreviation CNetAddr := N.

Record PeerRequestInfo := mkPeerRequestInfo {
  requestTimes : list Z;       (* std::deque, front first *)
  servedChunks : gmap N Z;     (* chunk -> last serve time *)
  nLastRequestTime : Z;
  nTotalRequests : N;          (* uint32_t *)
  bIsBanned : bool;
  nBanUntil : Z
}.

(** [PeerRequestInfo()] *)
Definition NewPeerRequestInfo : PeerRequestInfo :=
  mkPeerRequestInfo [] ∅ 0 0 false 0.

Record CSnapshotRateLimiter := mkRateLimiter {
  mapPeerRequests : gmap N PeerRequestInfo;
  nActiveTransfers : N;             (* uint32_t *)
  nTotalBytesServed : Z;
  nLastResetTime : Z;
  nMaxChunksPerPeerPerMinute : N;   (* uint32_t, as the five below *)
  nMaxConcurrentTransfers : N;
  nMinSecondsBetweenRequests : N;
  nDuplicateChunkWindowSec : N;
  nBanThreshold : N;
  nBanDurationSec : N
}.

(** The constructor; [tNow] is the [GetTime()] it reads. *)
Definition NewRateLimiter (tNow : Z) : CSnapshotRateLimiter :=
  mkRateLimiter ∅ 0 0 tNow 30 25 2 300 100 300.

Definition SetLimits (maxChunksPerMin maxConcurrent minSecBetween : N)
    (rl : CSnapshotRateLimiter) : CSnapshotRateLimiter :=
  mkRateLimiter (mapPeerRequests rl) (nActiveTransfers rl) (nTotalBytesServed rl)
    (nLastResetTime rl) maxChunksPerMin maxConcurrent minSecBetween
    (nDuplicateChunkWindowSec rl) (nBanThreshold rl) (nBanDurationSec rl).

(** The content of [strError] when a request is refused. *)
Inductive Rejection :=
  | Banned (nBanUntil : Z)                    (* "Peer banned until %d" *)
  | AtCapacity (nMax : N)                     (* "Server at capacity ..." *)
  | TooFast (wait : Z)                        (* "Too fast - wait %d seconds ..." *)
  | AlreadyServed (nChunk : N) (ago : Z)      (* "Already served chunk %d ..." *)
  | RateLimit (nMax : N).                     (* "Rate limit: max %d chunks per minute" *)

(** [Allowed] is the return value [true]; [Rejected e] is [false] with
    [strError] set. *)
Inductive Verdict :=
  | Allowed
  | Rejected (strError : Rejection).

(** [while (!times.empty() && (nNow - times.front()) > 60) times.pop_front();] *)
Fixpoint drop_old (nNow : Z) (times : list Z) : list Z :=
  match times with
  | [] => []
  | t :: rest => if (60 <? nNow - t)%Z then drop_old nNow rest else times
  end.

(** [mapPeerRequests[addr]] *)
Definition peer_info (rl : CSnapshotRateLimiter) (addr : N) : PeerRequestInfo :=
  default NewPeerRequestInfo (mapPeerRequests rl !! addr).

(** Write the entry of [addr] back and set the transfer counter. *)
Definition store (rl : CSnapshotRateLimiter) (addr : N) (info : PeerRequestInfo)
    (active : N) : CSnapshotRateLimiter :=
  mkRateLimiter (<[addr := info]> (mapPeerRequests rl)) active
    (nTotalBytesServed rl) (nLastResetTime rl) (nMaxChunksPerPeerPerMinute rl)
    (nMaxConcurrentTransfers rl) (nMinSecondsBetweenRequests rl)
    (nDuplicateChunkWindowSec rl) (nBanThreshold rl) (nBanDurationSec rl).

(** The lifting of an expired ban at the top of [AllowRequest]. *)
Definition unban (info : PeerRequestInfo) : PeerRequestInfo :=
  if bIsBanned info then
    mkPeerRequestInfo [] (servedChunks info) (nLastRequestTime info)
      (nTotalRequests info) false 0
  else info.

Definition AllowRequest (nNow : Z) (rl : CSnapshotRateLimiter) (addr : N) (nChunk : N)
    : Verdict * CSnapshotRateLimiter :=
  let info := peer_info rl addr in
  (* Check if peer is banned *)
  if bIsBanned info && (nNow <? nBanUntil info)%Z then
    (Rejected (Banned (nBanUntil info)), store rl addr info (nActiveTransfers rl))
  else
    let info := unban info in
    (* Check global concurrent transfer limit *)
    if nMaxConcurrentTransfers rl <=? nActiveTransfers rl then
      (Rejected (AtCapacity (nMaxConcurrentTransfers rl)),
       store rl addr info (nActiveTransfers rl))
    (* Check minimum time between requests from this peer *)
    else if (0 <? nLastRequestTime info)%Z &&
            (nNow - nLastRequestTime info <? Z.of_N (nMinSecondsBetweenRequests rl))%Z then
      (Rejected (TooFast (Z.of_N (nMinSecondsBetweenRequests rl)
                          - (nNow - nLastRequestTime info))),
       store rl addr info (nActiveTransfers rl))
    else
      (* Check if we recently served this exact chunk to this peer *)
      let duplicate :=
        match servedChunks info !! nChunk with
        | Some tServed =>
            if (nNow - tServed <? Z.of_N (nDuplicateChunkWindowSec rl))%Z then
              Some (nNow - tServed)%Z
            else None
        | None => None
        end in
      match duplicate with
      | Some ago =>
          (Rejected (AlreadyServed nChunk ago), store rl addr info (nActiveTransfers rl))
      | None =>
          (* Clean up old request times (only keep last 60 seconds) *)
          let times := drop_old nNow (requestTimes info) in
          (* Check requests per minute limit *)
          if nMaxChunksPerPeerPerMinute rl <=? N.of_nat (length times) then
            (* Check if this peer is abusing (way over limit) *)
            let '(banned, banUntil) :=
              if nBanThreshold rl <=? N.of_nat (length times)
              then (true, (nNow + Z.of_N (nBanDurationSec rl))%Z)
              else (bIsBanned info, nBanUntil info) in
            (Rejected (RateLimit (nMaxChunksPerPeerPerMinute rl)),
             store rl addr
               (mkPeerRequestInfo times (servedChunks info) (nLastRequestTime info)
                  (nTotalRequests info) banned banUntil)
               (nActiveTransfers rl))
          else
            (* Request is allowed *)
            (Allowed,
             store rl addr
               (mkPeerRequestInfo (times ++ [nNow]) (servedChunks info) nNow
                  (u32 (nTotalRequests info + 1)) (bIsBanned info) (nBanUntil info))
               (u32 (nActiveTransfers rl + 1)))
      end.

Definition RecordServed (nNow : Z) (rl : CSnapshotRateLimiter) (addr : N)
    (nChunk : N) (nBytes : N) : CSnapshotRateLimiter :=
  let info := peer_info rl addr in
  let info' :=
    mkPeerRequestInfo (requestTimes info) (<[nChunk := nNow]> (servedChunks info))
      (nLastRequestTime info) (nTotalRequests info) (bIsBanned info) (nBanUntil info) in
  mkRateLimiter (<[addr := info']> (mapPeerRequests rl)) (nActiveTransfers rl)
    (s64 (nTotalBytesServed rl + Z.of_N nBytes)) (nLastResetTime rl)
    (nMaxChunksPerPeerPerMinute rl) (nMaxConcurrentTransfers rl)
    (nMinSecondsBetweenRequests rl) (nDuplicateChunkWindowSec rl)
    (nBanThreshold rl) (nBanDurationSec rl).

Definition CompleteTransfer (rl : CSnapshotRateLimiter) : CSnapshotRateLimiter :=
  if 0 <? nActiveTransfers rl then
    mkRateLimiter (mapPeerRequests rl) (nActiveTransfers rl - 1)
      (nTotalBytesServed rl) (nLastResetTime rl) (nMaxChunksPerPeerPerMinute rl)
      (nMaxConcurrentTransfers rl) (nMinSecondsBetweenRequests rl)
      (nDuplicateChunkWindowSec rl) (nBanThreshold rl) (nBanDurationSec rl)
  else rl.

Definition IsBanned (nNow : Z) (rl : CSnapshotRateLimiter) (addr : N) : bool :=
  match mapPeerRequests rl !! addr with
  | None => false
  | Some info => bIsBanned info && (nNow <? nBanUntil info)%Z
  end.

(** The entries the sweep of [Cleanup] erases. *)
Definition stale (nNow : Z) (info : PeerRequestInfo) : bool :=
  (600 <? nNow - nLastRequestTime info)%Z && negb (bIsBanned info).

Definition Cleanup (nNow : Z) (rl : CSnapshotRateLimiter) : CSnapshotRateLimiter :=
  let peers :=
    filter (fun e : N * PeerRequestInfo => stale nNow e.2 = false)
           (mapPeerRequests rl) in
  (* Reset bandwidth counter every hour *)
  let '(bytes, reset) :=
    if (3600 <? nNow - nLastResetTime rl)%Z then (0%Z, nNow)
    else (nTotalBytesServed rl, nLastResetTime rl) in
  mkRateLimiter peers (nActiveTransfers rl) bytes reset
    (nMaxChunksPerPeerPerMinute rl) (nMaxConcurrentTransfers rl)
    (nMinSecondsBetweenRequests rl) (nDuplicateChunkWindowSec rl)
    (nBanThreshold rl) (nBanDurationSec rl).

Definition GetActiveTransfers (rl : CSnapshotRateLimiter) : N := nActiveTransfers rl.

(** *** Histories of calls *)

(** One call on the limiter. A history pairs each call with the clock value
    at the time it is made; [CompleteTransfer] does not read it. *)
Inductive Call :=
  | CallAllowRequest (addr : N) (nChunk : N)
  | CallRecordServed (addr : N) (nChunk : N) (nBytes : N)
  | CallCompleteTransfer
  | CallCleanup.

(** An answered request: clock value, peer, chunk, verdict. *)
Record Answer := mkAnswer {
  a_time : Z;
  a_addr : N;
  a_chunk : N;
  a_verdict : Verdict
}.

(** The limiter together with the answers given so far, oldest first. *)
Definition step (st : CSnapshotRateLimiter * list Answer) (ev : Z * Call)
    : CSnapshotRateLimiter * list Answer :=
  let '(rl, log) := st in
  let '(nNow, call) := ev in
  match call with
  | CallAllowRequest addr nChunk =>
      let '(v, rl') := AllowRequest nNow rl addr nChunk in
      (rl', log ++ [mkAnswer nNow addr nChunk v])
  | CallRecordServed addr nChunk nBytes => (RecordServed nNow rl addr nChunk nBytes, log)
  | CallCompleteTransfer => (CompleteTransfer rl, log)
  | CallCleanup => (Cleanup nNow rl, log)
  end.

Definition run (evs : list (Z * Call)) (rl : CSnapshotRateLimiter)
    : CSnapshotRateLimiter * list Answer :=
  fold_left step evs (rl, []).

(** The clock never runs backwards along a history. *)
Fixpoint nondecreasing (ts : list Z) : bool :=
  match ts with
  | t1 :: ((t2 :: _) as rest) => (t1 <=? t2)%Z && nondecreasing rest
  | _ => true
  end.

Definition is_allowed (v : Verdict) : bool :=
  match v with Allowed => true | Rejected _ => false end.

(** The clock values of the requests of [addr] that were allowed. *)
Definition granted (addr : N) (log : list Answer) : list Z :=
  omap (fun a => if bool_decide (a_addr a = addr) && is_allowed (a_verdict a)
                 then Some (a_time a) else None) log.

(** How many of the clock values [ts] fall in the window [t, t + 60]. *)
Definition in_window (t : Z) (ts : list Z) : nat :=
  length (filter (fun x : Z => (t <= x <= t + 60)%Z) ts).

End RateLimiter.

(** *** A flood from one peer

    Peer 1 sends 150 chunk requests within 60 seconds to a limiter with the
    default limits: chunks 0..29 at seconds 1000, 1002, ..., 1058, each one
    served and completed as the protocol handler does after an admission,
    then chunks 30..149 at second 1060. *)
Definition flood_150 : list (Z * RateLimiter.Call) :=
  flat_map (fun i : nat =>
              let t := (1000 + 2 * Z.of_nat i)%Z in
              [ (t, RateLimiter.CallAllowRequest 1 (N.of_nat i));
                (t, RateLimiter.CallRecordServed 1 (N.of_nat i) 52428800);
                (t, RateLimiter.CallCompleteTransfer) ])
           (seq 0 30)
  ++ map (fun i : nat => (1060%Z, RateLimiter.CallAllowRequest 1 (N.of_nat i)))
         (seq 30 120).

(** Under the default limits no entry of [mapPeerRequests] is ever banned and
    no window holds more than 30 clock values. *)
Definition never_banned (st : RateLimiter.CSnapshotRateLimiter * list RateLimiter.Answer)
    : Prop :=
  RateLimiter.nMaxChunksPerPeerPerMinute st.1 = 30 /\
  RateLimiter.nBanThreshold st.1 = 100 /\
  (forall addr info, RateLimiter.mapPeerRequests st.1 !! addr = Some info ->
     RateLimiter.bIsBanned info = false /\ RateLimiter.nBanUntil info = 0%Z /\
     (length (RateLimiter.requestTimes info) <= 30)%nat) /\
  (forall a until, a ∈ st.2 ->
     RateLimiter.a_verdict a <> RateLimiter.Rejected (RateLimiter.Banned until)).

(** *** Invariant behind the per-peer window bound

    [g] is the list of clock values at which requests of one peer were
    allowed, [info] the entry of that peer, [T] a clock value no later call
    will precede. The allowed requests are those still in the window of
    [info], preceded by requests more than 60 s older than [T]; the window
    holds nothing later than [nLastRequestTime] or [T]; under a ban the
    window ends 300 s before the ban does; and no 60-second window holds more
    than [maxChunks] allowed requests. *)
Definition peer_inv (maxChunks : N) (T : Z) (g : list Z)
    (info : RateLimiter.PeerRequestInfo) : Prop :=
  (exists old, g = old ++ RateLimiter.requestTimes info /\
               Forall (fun x => x + 60 < T)%Z old) /\
  Forall (fun x => x <= RateLimiter.nLastRequestTime info /\ x <= T)%Z
         (RateLimiter.requestTimes info) /\
  (RateLimiter.bIsBanned info = true ->
   Forall (fun x => x + 300 <= RateLimiter.nBanUntil info)%Z
          (RateLimiter.requestTimes info)) /\
  forall t, (RateLimiter.in_window t g <= N.to_nat maxChunks)%nat.

Definition window_inv (maxChunks : N) (T : Z)
    (st : RateLimiter.CSnapshotRateLimiter * list RateLimiter.Answer) : Prop :=
  RateLimiter.nMaxChunksPerPeerPerMinute st.1 = maxChunks /\
  RateLimiter.nBanDurationSec st.1 = 300 /\
  forall addr,
    peer_inv maxChunks T (RateLimiter.granted addr st.2) (RateLimiter.peer_info st.1 addr).

(** The same peer against a limiter whose per-minute limit was raised to the
    ban threshold and whose pacing was switched off ([SetLimits(100, 25, 0)]):
    102 requests at second 1000, the allowed ones completed at once. *)
Definition flood_raised_limit : list (Z * RateLimiter.Call) :=
  flat_map (fun i : nat =>
              [ (1000%Z, RateLimiter.CallAllowRequest 1 (N.of_nat i));
                (1000%Z, RateLimiter.CallCompleteTransfer) ])
           (seq 0 102).

(** * Further operations and histories *)

(** ** Download state: what a history asked for *)

(** The chunk numbers passed to [MarkChunkReceived], in call order. *)
Definition marked_chunks (ops : list DownloadOp) : list N :=
  omap (fun op => match op with
                  | OpMarkChunkReceived _ _ nChunk => Some nChunk
                  | OpRecordChunkRequest _ _ => None
                  end) ops.

(** The time given to the most recent [RecordChunkRequest] for [nChunk]. *)
Definition last_request (ops : list DownloadOp) (nChunk : N) : option Z :=
  fold_left (fun acc op =>
               match op with
               | OpRecordChunkRequest c t => if bool_decide (c = nChunk) then Some t else acc
               | OpMarkChunkReceived _ _ _ => acc
               end) ops None.

(** ** Chunk store: loading, assembling, initialising *)

(** What the input stream does during one [LoadChunk]:
    - [ReadOpenFails]: the stream does not open ([!file]);
    - [ReadBytes k]: the stream opens and [read] delivers the first [k] bytes
      of the file (all of it when [k] is at least its size);
    - [ReadThrows]: a [std::exception] is raised inside the [try] block
      before the buffer is touched. *)
Inductive ReadOutcome :=
  | ReadOpenFails
  | ReadBytes (k : nat)
  | ReadThrows.

(** [v.resize(n)]: cut, or fill with zero bytes. *)
Definition resize (n : nat) (v : list byte) : list byte :=
  firstn n (v ++ repeat x00 n).

(** [vData] is the caller's buffer; the second component is its content
    after the call. *)
Definition LoadChunk (st : CSnapshotStore) (fs : Files) (io : ReadOutcome)
    (nChunk : N) (vData : list byte) : bool * list byte :=
  if GetChunkCount (manifest st) <=? nChunk then (false, vData)
  else
    match fs !! nChunk with
    | None => (false, vData)     (* !boost::filesystem::exists(chunkPath) *)
    | Some content =>
        match io with
        | ReadOpenFails => (false, vData)
        | ReadThrows => (false, vData)
        | ReadBytes k =>
            let size := length content in
            let buf := resize size vData in
            (true, firstn k content ++ skipn k buf)
        end
    end.

(** The snapshot directory as [ExtractSnapshot] sees it: the chunk files and
    the temporary file [snapshot-combined.tar.gz]. *)
Record SnapshotDir := mkSnapshotDir {
  chunk_files : Files;
  combined_file : option (list byte)
}.

(** The surroundings of one [ExtractSnapshot]:
    - whether the combined file opens for writing;
    - how many bytes the output stream takes before it fails: the stream is
      never tested after [write] and [close], and a stream that has failed
      ignores what is written to it afterwards;
    - what each chunk read does;
    - what [system] does with the tar command: the exit status and the
      snapshot directory tar leaves behind, since tar unpacks under
      [dataDir], which may contain the snapshot directory;
    - whether [boost::filesystem::remove] throws, which the [catch] block
      turns into failure. *)
Record ExtractEnv := {
  out_opens : bool;
  out_takes : nat;
  read_of : N -> ReadOutcome;
  tar_run : SnapshotDir -> Z * SnapshotDir;
  remove_throws : bool
}.

(** The first loop of [ExtractSnapshot]: all chunks from [i] on exist. *)
Fixpoint all_chunks_present (st : CSnapshotStore) (fs : Files) (i : N) (cnt : nat) : bool :=
  match cnt with
  | O => true
  | S cnt' =>
      if negb (HasChunk st fs i) then false
      else all_chunks_present st fs (i + 1) cnt'
  end.

(** The second loop: append chunk after chunk to the combined file; stop at
    the first chunk that does not load. *)
Fixpoint concat_chunks (st : CSnapshotStore) (fs : Files) (read : N -> ReadOutcome)
    (i : N) (cnt : nat) (written : list byte) : bool * list byte :=
  match cnt with
  | O => (true, written)
  | S cnt' =>
      let '(ok, vData) := LoadChunk st fs (read i) i [] in
      if negb ok then (false, written)
      else concat_chunks st fs read (i + 1) cnt' (written ++ vData)
  end.

(** Result, directory afterwards, and the content of the combined file
    handed to tar if tar was run. Opening the combined file creates it; what
    it holds when the function leaves the loop is the part of the bytes
    written that the stream took. *)
Definition ExtractSnapshot (st : CSnapshotStore) (dir : SnapshotDir) (env : ExtractEnv)
    : bool * SnapshotDir * option (list byte) :=
  let cnt := N.to_nat (GetChunkCount (manifest st)) in
  if negb (all_chunks_present st (chunk_files dir) 0 cnt) then (false, dir, None)
  else if negb (out_opens env) then (false, dir, None)
  else
    let '(ok, written) := concat_chunks st (chunk_files dir) (read_of env) 0 cnt [] in
    let on_disk := firstn (out_takes env) written in
    let dir1 := mkSnapshotDir (chunk_files dir) (Some on_disk) in
    if negb ok then (false, dir1, None)
    else
      (* Extract tarball using system tar command *)
      let '(result, dir2) := tar_run env dir1 in
      if negb (result =? 0)%Z then (false, dir2, Some on_disk)
      (* Clean up combined file *)
      else if remove_throws env then (false, dir2, Some on_disk)
      else (true, mkSnapshotDir (chunk_files dir2) None, Some on_disk).

(** What reading [manifest.dat] yields: the file is missing or does not
    open; [file >> manifest] reads a whole manifest into the member; or it
    throws part of the way, when the fields read so far have already been
    stored, leaving the member as given. *)
Inductive ManifestFile :=
  | ManifestAbsent
  | ManifestRead (m : CSnapshotManifest)
  | ManifestThrows (partly : CSnapshotManifest).

Definition LoadManifest (disk : ManifestFile) (st : CSnapshotStore)
    : bool * CSnapshotStore :=
  match disk with
  | ManifestAbsent => (false, st)
  | ManifestRead m =>
      if negb (IsValid m) then (false, {| manifest := m |})
      else (true, {| manifest := m |})
  | ManifestThrows partly => (false, {| manifest := partly |})
  end.

(** [written] tells whether [manifest.dat] opens for writing and the
    manifest is serialised without an exception; the member is assigned only
    after that. *)
Definition SaveManifest (written : bool) (st : CSnapshotStore) (manifestIn : CSnapshotManifest)
    : bool * CSnapshotStore :=
  if written then (true, {| manifest := manifestIn |}) else (false, st).

(** [dir_ok]: the snapshot directory exists or could be created. *)
Definition Initialize (dir_ok : bool) (disk : ManifestFile) (written : bool)
    (st : CSnapshotStore) : bool * CSnapshotStore :=
  if negb dir_ok then (false, st)
  else
    let '(loaded, st1) := LoadManifest disk st in
    if negb loaded then
      (* If no manifest exists, create from hardcoded data *)
      let st2 := {| manifest := GetHardcodedManifest |} in
      if negb (IsValid (manifest st2)) then (false, st2)
      else (true, (SaveManifest written st2 (manifest st2)).2)
    else (true, st1).

(** [psnapshotstore] is [None] for a null pointer; [listen] is
    [GetBoolArg("-listen", true)]. *)
Definition CanServeSnapshots (psnapshotstore : option (CSnapshotStore * Files))
    (listen : bool) : bool :=
  match psnapshotstore with
  | None => false
  | Some (st, fs) =>
      if negb (all_chunks_present st fs 0 (N.to_nat (GetChunkCount (manifest st))))
      then false
      else if negb listen then false
      else true
  end.

(** A store of two chunks, "abc" and the empty chunk, used to evaluate the
    assembling. *)
Definition two_chunk_store : CSnapshotStore :=
  {| manifest :=
       {| nBlockHeight := 1; nTimestamp := 0; nTotalSize := 3;
          vChunks :=
            [ChunkInfo 0 (rev (SHA256.digest abc)) 3;
             ChunkInfo 1 (rev (SHA256.digest [])) 0] |} |}.

(** Everything works: the stream takes up to 100 bytes, each read delivers
    up to 3 bytes, tar exits with 0 and leaves the snapshot directory alone. *)
Definition plain_env : ExtractEnv :=
  {| out_opens := true; out_takes := 100; read_of := fun _ => ReadBytes 3;
     tar_run := fun d => (0%Z, d); remove_throws := false |}.

(** The output stream fails after two bytes. *)
Definition short_write_env : ExtractEnv :=
  {| out_opens := true; out_takes := 2; read_of := fun _ => ReadBytes 3;
     tar_run := fun d => (0%Z, d); remove_throws := false |}.

(** The archive holds a file that tar unpacks over chunk 0. *)
Definition overwriting_env : ExtractEnv :=
  {| out_opens := true; out_takes := 100; read_of := fun _ => ReadBytes 3;
     tar_run := fun d => (0%Z, mkSnapshotDir (<[0 := [x00]]> (chunk_files d))
                                              (combined_file d));
     remove_throws := false |}.

(** Tar exits with 0 and removing the combined file throws. *)
Definition remove_fails_env : ExtractEnv :=
  {| out_opens := true; out_takes := 100; read_of := fun _ => ReadBytes 3;
     tar_run := fun d => (0%Z, d); remove_throws := true |}.

(** The chunk files [0 .. cnt-1] one after the other. *)
Definition archive_of (fs : Files) (cnt : nat) : list byte :=
  flat_map (fun i : nat => default [] (fs !! N.of_nat i)) (seq 0 cnt).

(** ** Rate limiter: further histories *)

(** Every call of the history is made before the clock value [U]. *)
Definition all_before (U : Z) (evs : list (Z * RateLimiter.Call)) : bool :=
  forallb (fun ev : Z * RateLimiter.Call => (ev.1 <? U)%Z) evs.

(** Every call of the history is made at a positive clock value. *)
Definition all_positive (evs : list (Z * RateLimiter.Call)) : bool :=
  forallb (fun ev : Z * RateLimiter.Call => (0 <? ev.1)%Z) evs.

(** Neighbours in [g] are at least [gap] apart. *)
Fixpoint spaced (gap : Z) (g : list Z) : Prop :=
  match g with
  | x :: ((y :: _) as rest) => (x + gap <= y)%Z /\ spaced gap rest
  | _ => True
  end.

(** The limiter and the answers after the flood against the raised limit:
    peer 1 is banned until second 1300. *)
Definition banned_state : RateLimiter.CSnapshotRateLimiter * list RateLimiter.Answer :=
  RateLimiter.run flood_raised_limit
    (RateLimiter.SetLimits 100 25 0 (RateLimiter.NewRateLimiter 0)).

(** Three more calls during the ban. *)
Definition during_ban : list (Z * RateLimiter.Call) :=
  [ (1100%Z, RateLimiter.CallAllowRequest 1 7);
    (1200%Z, RateLimiter.CallCleanup);
    (1299%Z, RateLimiter.CallAllowRequest 1 8) ].

(** Invariant behind the pacing of one peer: the allowed requests in [g] are
    at least [gap] apart, and the latest of them is positive, not later than
    [T], and either still recorded as [nLastRequestTime] or more than 600 s
    older than [T] with the entry reset. *)
Definition pace_inv (gap : Z) (T : Z) (g : list Z)
    (info : RateLimiter.PeerRequestInfo) : Prop :=
  spaced gap g /\
  forall x, last g = Some x ->
    (x <= T /\ 0 < x /\
     (RateLimiter.nLastRequestTime info = x \/
      (RateLimiter.nLastRequestTime info = 0 /\ x + 600 < T)))%Z.

(** ** Download coordinator: peer selection and histories with reaping *)

(** One turn of the loop of [SelectPeerForNextChunk]: the peer states (in
    which [mapPeerStates[node]] creates a missing entry), the best peer so
    far and its [nLastRequestTime]. *)
Definition select_step (nNow : Z)
    (acc : gmap Z Coordinator.PeerDownloadState * Z * Z) (node : Z)
    : gmap Z Coordinator.PeerDownloadState * Z * Z :=
  let '(peers, bestPeer, oldestRequestTime) := acc in
  let state := default Coordinator.NewPeerDownloadState (peers !! node) in
  let peers' := <[node := state]> peers in
  (* Skip if peer is in backoff *)
  if (nNow <? Coordinator.nBackoffUntil state)%Z then (peers', bestPeer, oldestRequestTime)
  (* Skip if too soon since last request to this peer *)
  else if (nNow - Coordinator.nLastRequestTime state
           <? Z.of_N Coordinator.MIN_SECONDS_BETWEEN_REQUESTS)%Z
  then (peers', bestPeer, oldestRequestTime)
  (* Prefer peer we haven't used in a while (load balancing) *)
  else if (bestPeer =? -1)%Z || (Coordinator.nLastRequestTime state <? oldestRequestTime)%Z
  then (peers', node, Coordinator.nLastRequestTime state)
  else (peers', bestPeer, oldestRequestTime).

(** Returns the peer (or -1), the content of [nChunkOut] after the call, and
    the coordinator. [pDownloadState] is [None] for a null pointer;
    [nChunkOut] is the content of the out-parameter before the call. *)
Definition SelectPeerForNextChunk (nNow : Z) (c : Coordinator.CSnapshotDownloadCoordinator)
    (pDownloadState : option CSnapshotDownloadState)
    (vAvailablePeers : list Z) (nChunkOut : N)
    : Z * N * Coordinator.CSnapshotDownloadCoordinator :=
  if bool_decide (vAvailablePeers = []) then ((-1)%Z, nChunkOut, c)
  else
    match pDownloadState with
    | None => ((-1)%Z, nChunkOut, c)
    | Some ds =>
        (* Get next chunk we need *)
        let nChunkOut := GetNextChunkToRequest ds in
        (* Check if we already have all chunks *)
        if IsComplete ds then ((-1)%Z, nChunkOut, c)
        (* Check if this chunk is already in-flight *)
        else if bool_decide (is_Some (Coordinator.mapChunkToNode c !! nChunkOut))
        then ((-1)%Z, nChunkOut, c)
        (* Check how many concurrent requests we have *)
        else if Coordinator.MAX_CONCURRENT_PEER_REQUESTS
                <=? N.of_nat (size (Coordinator.mapChunkToNode c))
        then ((-1)%Z, nChunkOut, c)
        else
          let '(peers, bestPeer, _) :=
            fold_left (select_step nNow) vAvailablePeers
                      (Coordinator.mapPeerStates c, (-1)%Z, nNow) in
          (bestPeer, nChunkOut,
           Coordinator.mkCoordinator peers (Coordinator.mapChunkToNode c))
    end.

(** A peer passes the two tests of the selection loop. *)
Definition eligible (nNow : Z) (c : Coordinator.CSnapshotDownloadCoordinator) (node : Z)
    : Prop :=
  (Coordinator.nBackoffUntil (Coordinator.peer_state c node) <= nNow /\
   Z.of_N Coordinator.MIN_SECONDS_BETWEEN_REQUESTS
     <= nNow - Coordinator.nLastRequestTime (Coordinator.peer_state c node))%Z.

(** Histories of the coordinator in which timed-out requests are reaped. *)
Inductive CoordEvent :=
  | EvOp (op : Coordinator.CoordOp)
  | EvReap (nNow : Z).

Definition coord_event_step (c : Coordinator.CSnapshotDownloadCoordinator) (ev : CoordEvent)
    : Coordinator.CSnapshotDownloadCoordinator :=
  match ev with
  | EvOp op => Coordinator.coord_step c op
  | EvReap nNow => (Coordinator.GetTimedOutRequests nNow c).2
  end.

Definition coord_events (evs : list CoordEvent) : Coordinator.CSnapshotDownloadCoordinator :=
  fold_left coord_event_step evs Coordinator.NewCoordinator.

(** The clock value an event reads, if it reads the clock. *)
Definition event_time (ev : CoordEvent) : option Z :=
  match ev with
  | EvOp (Coordinator.OpRecordRequest nNow _ _) => Some nNow
  | EvOp (Coordinator.OpRecordFailure nNow _ _) => Some nNow
  | EvOp _ => None
  | EvReap nNow => Some nNow
  end.

(** The clock value of the most recent [RecordRequest] for each chunk. *)
Definition request_times (evs : list CoordEvent) : gmap N Z :=
  fold_left (fun g ev =>
               match ev with
               | EvOp op => Coordinator.recorded_step g op
               | EvReap _ => g
               end) evs ∅.

(** The backoff after the given number of consecutive failures. *)
Definition backoff_after (failures : N) : Z :=
  if 4 <=? failures then 300
  else if failures =? 3 then 60
  else if failures =? 2 then 30
  else 10.

(** [RecordFailure] for one peer at the given clock values and chunks. *)
Definition fail_all (c : Coordinator.CSnapshotDownloadCoordinator) (node : Z)
    (fails : list (Z * N)) : Coordinator.CSnapshotDownloadCoordinator :=
  fold_left (fun c f => Coordinator.RecordFailure f.1 c node f.2) fails c.

(** Invariant of the in-flight map along a history: every in-flight chunk
    has a recorded request time, not later than [T] and not later than the
    [nLastRequestTime] of the peer it is assigned to, which has a state
    entry. *)
Definition inflight_inv (T : Z) (c : Coordinator.CSnapshotDownloadCoordinator)
    (g : gmap N Z) : Prop :=
  forall nChunk node, Coordinator.mapChunkToNode c !! nChunk = Some node ->
    exists t st, g !! nChunk = Some t /\ (t <= T)%Z /\
                 Coordinator.mapPeerStates c !! node = Some st /\
                 (t <= Coordinator.nLastRequestTime st)%Z.

(** A coordinator that asked peer 7 at second 1000 and peer 8 at second 990,
    and a download state of three chunks with chunk 0 received. *)
Definition two_peer_coordinator : Coordinator.CSnapshotDownloadCoordinator :=
  Coordinator.coord_run
    [Coordinator.OpRecordRequest 990 8 0; Coordinator.OpRecordRequest 1000 7 1;
     Coordinator.OpRecordSuccess 8 0; Coordinator.OpRecordSuccess 7 1].

Definition one_received : CSnapshotDownloadState :=
  download_run [OpMarkChunkReceived 995 995 0] (NewDownloadState 3).

(** A download loop that sends a request only to the peer and for the chunk
    that [SelectPeerForNextChunk] returned. [nNow] is the clock value read by
    the selection, [nNow'] the one read by [RecordRequest]. *)
Inductive DriverEvent :=
  | DvRequest (nNow nNow' : Z) (pDownloadState : option CSnapshotDownloadState)
      (vAvailablePeers : list Z)
  | DvSuccess (node : Z) (nChunk : N)
  | DvFailure (nNow : Z) (node : Z) (nChunk : N)
  | DvRemovePeer (node : Z)
  | DvReap (nNow : Z).

Definition driver_step (c : Coordinator.CSnapshotDownloadCoordinator) (ev : DriverEvent)
    : Coordinator.CSnapshotDownloadCoordinator :=
  match ev with
  | DvRequest nNow nNow' pDownloadState vAvailablePeers =>
      let r := SelectPeerForNextChunk nNow c pDownloadState vAvailablePeers 0 in
      if (r.1.1 =? -1)%Z then r.2 else Coordinator.RecordRequest nNow' r.2 r.1.1 r.1.2
  | DvSuccess node nChunk => Coordinator.RecordSuccess c node nChunk
  | DvFailure nNow node nChunk => Coordinator.RecordFailure nNow c node nChunk
  | DvRemovePeer node => Coordinator.RemovePeer c node
  | DvReap nNow => (Coordinator.GetTimedOutRequests nNow c).2
  end.

Definition driver_run (evs : list DriverEvent) : Coordinator.CSnapshotDownloadCoordinator :=
  fold_left driver_step evs Coordinator.NewCoordinator.

(** Fourteen selections in a row, three seconds apart, from twenty peers,
    for a download of forty chunks. Before selection [i] the download state
    has the chunks below [i] marked received, and [RecordSuccess] is never
    called, so every request stays in flight. *)
Definition fourteen_requests : list DriverEvent :=
  map (fun i : nat =>
         DvRequest (1000 + 3 * Z.of_nat i) (1000 + 3 * Z.of_nat i)
           (Some (download_run (map (fun k : nat => OpMarkChunkReceived 0 0 (N.of_nat k)) (seq 0 i))
                    (NewDownloadState 40)))
           (map Z.of_nat (seq 1 20)))
      (seq 0 14).

(** A history with a request, a failure, a second request and a reaping. *)
Definition reap_history : list CoordEvent :=
  [EvOp (Coordinator.OpRecordRequest 1000 7 0);
   EvOp (Coordinator.OpRecordRequest 1010 8 1);
   EvOp (Coordinator.OpRecordFailure 1020 8 1);
   EvOp (Coordinator.OpRecordRequest 1050 7 1)].

(** * Proof of work (pow.cpp) *)

Module Pow.

Definition KEY_CHANGE : N := 2048.
Definition SWITCH_KEY : N := 64.

(** [a - b] on [unsigned int]. *)
Definition sub32 (a b : N) : N := u32 (a + 2 ^ 32 - u32 b).

(** An [int] converted to [unsigned int], as the comparison of
    [chainActive.Height()] with an [unsigned int] does. *)
Definition to_u32 (x : Z) : N := Z.to_N (x mod 2 ^ 32).

Section GetKeyBlock.

(** The active chain, as far as [GetKeyBlock] reads it: [chainActive.Height()]
    and [chainActive[i]->GetBlockHash()], which is [None] where
    [chainActive[i]] is a null pointer. *)
Variable ChainHeight : Z.
Variable BlockHash : N -> option uint256.

(** [current_key_block] is the function's static variable before the call.
    The result is the value returned, which is also the value of the static
    variable after the call; [None] when a null pointer is dereferenced. *)
Definition GetKeyBlock (current_key_block : uint256) (nHeight : N) : option uint256 :=
  let remainer := u32 (nHeight mod KEY_CHANGE) in
  let first_check := sub32 nHeight remainer in
  let second_check := sub32 (sub32 nHeight KEY_CHANGE) remainer in
  let updated :=
    if u32 (sub32 nHeight remainer + SWITCH_KEY) <? nHeight then
      if first_check <? to_u32 ChainHeight
      then BlockHash first_check else Some current_key_block
    else
      if second_check <? to_u32 ChainHeight
      then BlockHash second_check else Some current_key_block in
  match updated with
  | None => None
  | Some key => if bool_decide (key = uint256_zero) then BlockHash 0 else Some key
  end.

End GetKeyBlock.

(** [arith_uint256]: the source describes it as unable to represent
    [2**256]; its values are the numbers below [2^256] and its operators
    wrap. A division by zero throws. *)
Definition a256 (x : N) : N := x mod 2 ^ 256.

Section BlockProof.

(** [bnTarget.SetCompact(nBits, &fNegative, &fOverflow)]: the target and the
    two flags. *)
Variable SetCompact : N -> N * bool * bool.

(** [block.nBits] is the only field of the block index that is read.
    [None] stands for the exception of a division by zero. *)
Definition GetBlockProof (nBits : N) : option N :=
  let '(bnTarget, fNegative, fOverflow) := SetCompact nBits in
  if fNegative || fOverflow || (bnTarget =? 0) then Some 0
  else
    (* ~bnTarget / (bnTarget + 1) + 1 *)
    let divisor := a256 (bnTarget + 1) in
    if divisor =? 0 then None
    else Some (a256 ((2 ^ 256 - 1 - bnTarget) / divisor + 1)).

(** [to_work] and [from_work] are [to.nChainWork] and [from.nChainWork],
    [tip_nBits] is [tip.nBits] and [spacing] the [int64_t] value of
    [params.PoWTargetSpacing(tip.nHeight)]. The last line multiplies an [int]
    by a [uint64_t] and returns the product as [int64_t]. *)
Definition GetBlockProofEquivalentTime (to_work from_work : N) (tip_nBits : N)
    (spacing : Z) : option Z :=
  let '(r, sign) :=
    if from_work <? to_work then (to_work - from_work, 1%Z)
    else (from_work - to_work, (-1)%Z) in
  match GetBlockProof tip_nBits with
  | None => None
  | Some proof =>
      if proof =? 0 then None
      else
        let r := a256 (r * Z.to_N (spacing mod 2 ^ 64)) / proof in
        if 2 ^ 63 <=? r (* r.bits() > 63 *)
        then Some (sign * (2 ^ 63 - 1))%Z
        else Some (s64 (((sign mod 2 ^ 64) * Z.of_N (r mod 2 ^ 64)) mod 2 ^ 64))%Z
  end.

End BlockProof.

(** A chain of 5000 blocks in which block [i] has the hash whose first byte
    is [i mod 251 + 1]. *)
Definition sample_hash (i : N) : option uint256 :=
  if i <? 5000 then Some (byte_of_Z (Z.of_N (i mod 251 + 1)) :: repeat x00 31) else None.

(** A compact decoding that returns its argument, without flags. *)
Definition plain_compact (nBits : N) : N * bool * bool := (nBits, false, false).

End Pow.

(** ** Rate limiter: the sweep *)

(** The entry of a peer holds no request later than its [nLastRequestTime]
    and no chunk served more than 300 seconds after it. *)
Definition served_promptly (info : RateLimiter.PeerRequestInfo) : bool :=
  forallb (fun x => (x <=? RateLimiter.nLastRequestTime info)%Z)
          (RateLimiter.requestTimes info) &&
  forallb (fun e : N * Z => (e.2 <=? RateLimiter.nLastRequestTime info + 300)%Z)
          (map_to_list (RateLimiter.servedChunks info)).

(** Peer 1 is allowed chunk 5 at second 1000; the chunk is recorded as
    served at second [tServed]. *)
Definition served_at (tServed : Z) : RateLimiter.CSnapshotRateLimiter :=
  RateLimiter.CompleteTransfer
    (RateLimiter.RecordServed tServed
       (RateLimiter.AllowRequest 1000 (RateLimiter.NewRateLimiter 0) 1 5).2 1 5 100).

(** * The RandomX light cache (pow.cpp) *)

Module RandomX.

(** The calls into the RandomX library, with the pointers passed and
    returned. A pointer is [None] when null; the pointers the library
    returns are numbered in the order of allocation. *)
Inductive LibCall :=
  | randomx_alloc_cache (flags : N) (ret : N)
  | randomx_init_cache (cache : option N) (key : uint256)
  | randomx_create_vm (flags : N) (cache : option N) (ret : N)
  | randomx_destroy_vm (vm : option N)
  | randomx_release_cache (cache : option N).

(** The static variables of pow.cpp, and the number of objects the library
    has handed out so far. *)
Record State := mkState {
  flags : N;
  key_block : uint256;
  myCache : option N;
  myMachineMining : option N;
  myMachineValidating : option N;
  fLightCacheInited : bool;
  allocated : N
}.

(** Static storage is zero-initialised. *)
Definition initial : State := mkState 0 uint256_zero None None None false 0.

Definition IsRandomXLightInit (s : State) : bool := fLightCacheInited s.
Definition GetCurrentKeyBlock (s : State) : uint256 := key_block s.
Definition GetMyMachineMining (s : State) : option N := myMachineMining s.
Definition GetMyMachineValidating (s : State) : option N := myMachineValidating s.

(** The four lines shared by [InitRandomXLightCache] and [KeyBlockChanged]:
    allocate and initialise the cache, create the two machines, set the
    flag. *)
Definition create_cache_and_machines (s : State) : State * list LibCall :=
  let cache := allocated s in
  let mining := allocated s + 1 in
  let validating := allocated s + 2 in
  (mkState (flags s) (key_block s) (Some cache) (Some mining) (Some validating) true
     (allocated s + 3),
   [ randomx_alloc_cache (flags s) cache;
     randomx_init_cache (Some cache) (key_block s);
     randomx_create_vm (flags s) (Some cache) mining;
     randomx_create_vm (flags s) (Some cache) validating ]).

Definition DeallocateRandomXLightCache (s : State) : State * list LibCall :=
  if negb (fLightCacheInited s) then (s, [])
  else
    (mkState (flags s) (key_block s) (myCache s) (myMachineMining s)
       (myMachineValidating s) false (allocated s),
     [ randomx_destroy_vm (myMachineMining s);
       randomx_destroy_vm (myMachineValidating s);
       randomx_release_cache (myCache s) ]).

(** [host_flags] is the value of [randomx_get_flags()] and [key] the value
    of [GetKeyBlock(height)], both read only when the cache is not yet
    initialised. *)
Definition InitRandomXLightCache (host_flags : N) (key : uint256) (s : State)
    : State * list LibCall :=
  if fLightCacheInited s then (s, [])
  else
    create_cache_and_machines
      (mkState host_flags key (myCache s) (myMachineMining s) (myMachineValidating s)
         (fLightCacheInited s) (allocated s)).

Definition KeyBlockChanged (new_block : uint256) (s : State) : State * list LibCall :=
  let s1 := mkState (flags s) new_block (myCache s) (myMachineMining s)
              (myMachineValidating s) (fLightCacheInited s) (allocated s) in
  let '(s2, freed) := DeallocateRandomXLightCache s1 in
  let '(s3, created) := create_cache_and_machines s2 in
  (s3, freed ++ created).

Definition CheckIfKeyShouldChange (check_block : uint256) (s : State)
    : State * list LibCall :=
  if bool_decide (check_block <> key_block s) then KeyBlockChanged check_block s
  else (s, []).

Inductive Op :=
  | OpInit (host_flags : N) (key : uint256)
  | OpKeyBlockChanged (new_block : uint256)
  | OpCheckIfKeyShouldChange (check_block : uint256)
  | OpDeallocate.

Definition op_step (st : State * list LibCall) (op : Op) : State * list LibCall :=
  let r := match op with
           | OpInit host_flags key => InitRandomXLightCache host_flags key st.1
           | OpKeyBlockChanged new_block => KeyBlockChanged new_block st.1
           | OpCheckIfKeyShouldChange check_block => CheckIfKeyShouldChange check_block st.1
           | OpDeallocate => DeallocateRandomXLightCache st.1
           end in
  (r.1, st.2 ++ r.2).

Definition run (ops : list Op) : State * list LibCall :=
  fold_left op_step ops (initial, []).

(** The objects the library holds: each cache with its flags and the key it
    was initialised with, each machine with its flags and its cache. *)
Record Lib := mkLib {
  caches : gmap N (N * option uint256);
  machines : gmap N (N * N)
}.

(** The use of the library that is in order: a pointer handed out is new; a
    cache is initialised, used and released only while it exists, used for a
    machine only once initialised, and released only when no machine uses
    it; a machine is destroyed only while it exists. [None] is a call out of
    order. *)
Definition lib_step (l : Lib) (c : LibCall) : option Lib :=
  match c with
  | randomx_alloc_cache f ret =>
      if bool_decide (caches l !! ret = None /\ machines l !! ret = None)
      then Some (mkLib (<[ret := (f, None)]> (caches l)) (machines l))
      else None
  | randomx_init_cache (Some h) key =>
      match caches l !! h with
      | Some (f, _) => Some (mkLib (<[h := (f, Some key)]> (caches l)) (machines l))
      | None => None
      end
  | randomx_create_vm f (Some h) ret =>
      match caches l !! h with
      | Some (_, Some _) =>
          if bool_decide (caches l !! ret = None /\ machines l !! ret = None)
          then Some (mkLib (caches l) (<[ret := (f, h)]> (machines l)))
          else None
      | _ => None
      end
  | randomx_destroy_vm (Some v) =>
      match machines l !! v with
      | Some _ => Some (mkLib (caches l) (delete v (machines l)))
      | None => None
      end
  | randomx_release_cache (Some h) =>
      match caches l !! h with
      | Some _ =>
          if bool_decide (map_Forall (fun _ m => m.2 <> h) (machines l))
          then Some (mkLib (delete h (caches l)) (machines l))
          else None
      | None => None
      end
  | randomx_init_cache None _ | randomx_create_vm _ None _
  | randomx_destroy_vm None | randomx_release_cache None => None
  end.

Definition replay (l : Lib) (calls : list LibCall) : option Lib :=
  foldl (fun acc c => acc ≫= fun l => lib_step l c) (Some l) calls.

(** The objects that exist when the state says the cache is initialised. *)
Definition live_objects (s : State) (l : Lib) : Prop :=
  if fLightCacheInited s then
    exists c m v,
      myCache s = Some c /\ myMachineMining s = Some m /\ myMachineValidating s = Some v /\
      m <> v /\
      caches l = {[c := (flags s, Some (key_block s))]} /\
      machines l = <[m := (flags s, c)]> {[v := (flags s, c)]}
  else caches l = ∅ /\ machines l = ∅.

(** The invariant: the objects are the ones the state names, and every
    pointer handed out so far is below [allocated]. *)
Definition cache_inv (s : State) (l : Lib) : Prop :=
  live_objects s l /\
  (forall h, is_Some (caches l !! h) \/ is_Some (machines l !! h) -> h < allocated s).

(** A history that changes the key twice and deallocates in between. *)
Definition sample_ops : list Op :=
  [ OpCheckIfKeyShouldChange (repeat x01 32); OpInit 3 (repeat x02 32);
    OpDeallocate; OpDeallocate; OpInit 3 (repeat x02 32);
    OpCheckIfKeyShouldChange (repeat x02 32); OpKeyBlockChanged (repeat x03 32) ].

End RandomX.

(** ** Rate limiter: duplicate requests along a history *)



(** Peer 1 was allowed chunk 5 at second 1000. *)
Definition after_first_request : RateLimiter.CSnapshotRateLimiter :=
  (RateLimiter.AllowRequest 1000 (RateLimiter.NewRateLimiter 0) 1 5).2.

(** The transfer is completed, the peer is allowed chunk 6 at second 1100,
    and the limiter is swept at second 1150. *)
Definition after_service : list (Z * RateLimiter.Call) :=
  [ (1010%Z, RateLimiter.CallCompleteTransfer);
    (1100%Z, RateLimiter.CallAllowRequest 1 6);
    (1150%Z, RateLimiter.CallCleanup) ].

(** * Properties *)

(** ** SHA-256 test vectors (FIPS 180-4, appendix B) *)

Example sha_constants :
  nth 0 SHA256.K 0%Z = 0x428a2f98%Z /\ nth 63 SHA256.K 0%Z = 0xc67178f2%Z /\
  length SHA256.K = 64%nat /\ nth 0 SHA256.H0 0%Z = 0x6a09e667%Z /\
  nth 7 SHA256.H0 0%Z = 0x5be0cd19%Z.
Proof. split_and!; reflexivity. Qed.

Example sha_abc :
  hex_of_bytes (SHA256.digest (bytes_of_string "abc")) =
  "ba7816bf8f01cfea414140de5dae2223b00361a396177a9cb410ff61f20015ad"%string.
Proof. vm_compute. reflexivity. Qed.

Example sha_empty :
  hex_of_bytes (SHA256.digest []) =
  "e3b0c44298fc1c149afbf4c8996fb92427ae41e4649b934ca495991b7852b855"%string.
Proof. vm_compute. reflexivity. Qed.

Example sha_two_blocks :
  hex_of_bytes (SHA256.digest (bytes_of_string
    "abcdbcdecdefdefgefghfghighijhijkijkljklmklmnlmnomnopnopq")) =
  "248d6a61d20638b8e5c026930c3e6039a33ce45964ff2167f6ecedd419db06c1"%string.
Proof. vm_compute. reflexivity. Qed.

(** ** Manifest *)

Lemma chunks_sequential_spec cs : forall i,
  chunks_sequential i cs = true <->
  forall k c, cs !! k = Some c -> nChunkNumber c = i + N.of_nat k.
Proof.
  induction cs as [|c cs IH]; intros i; simpl.
  - split; [intros _ k c Hk; by rewrite lookup_nil in Hk | done].
  - destruct (N.eqb_spec (nChunkNumber c) i) as [Heq|Hne]; simpl.
    + rewrite IH. split.
      * intros H [|k] c' Hk; simpl in Hk.
        -- inversion Hk; subst. lia.
        -- rewrite (H k c' Hk). lia.
      * intros H k c' Hk. rewrite (H (S k) c' Hk). lia.
    + split; [done|]. intros H. exfalso. apply Hne.
      rewrite (H 0%nat c eq_refl). lia.
Qed.

(** What a valid manifest guarantees: exactly the four tests of [IsValid]. *)
Lemma IsValid_spec m :
  IsValid m = true <->
  nBlockHeight m <> 0 /\ vChunks m <> [] /\ nTotalSize m <> 0 /\
  forall k c, vChunks m !! k = Some c -> nChunkNumber c = N.of_nat k.
Proof.
  unfold IsValid.
  destruct (N.eqb_spec (nBlockHeight m) 0) as [Hh|Hh];
    [split; [done | by intros (? & _)] |].
  case_bool_decide as Hc; [split; [done | by intros (_ & ? & _)] |].
  destruct (N.eqb_spec (nTotalSize m) 0) as [Ht|Ht];
    [split; [done | by intros (_ & _ & ? & _)] |].
  rewrite chunks_sequential_spec. split.
  - intros H. split_and!; try done.
  - intros (_ & _ & _ & H) k c Hk. by rewrite (H k c Hk).
Qed.

(** C8 (as stated) fails: [IsValid] accepts a manifest whose chunk sizes sum
    to 5 while [nTotalSize] is 7; the sum is never computed by the code. *)
Lemma C8_sum_not_checked :
  IsValid manifest_wrong_total = true /\
  sum_sizes (vChunks manifest_wrong_total) <> nTotalSize manifest_wrong_total.
Proof. split; [reflexivity | vm_compute; discriminate]. Qed.

(** C8 (amended): a manifest accepted by [IsValid] has a non-empty chunk
    list, a positive height, a non-zero total size, and chunks numbered
    0..N-1 without gaps. *)
Theorem C8_IsValid_invariants m :
  IsValid m = true ->
  vChunks m <> [] /\ 0 < nBlockHeight m /\ nTotalSize m <> 0 /\
  forall i c, vChunks m !! i = Some c -> nChunkNumber c = N.of_nat i.
Proof.
  intros H. apply IsValid_spec in H as (Hh & Hc & Ht & Hseq).
  split_and!; [done | lia | done | done].
Qed.

Lemma C8_IsValid_invariants_witness :
  IsValid GetHardcodedManifest = true /\
  (vChunks GetHardcodedManifest <> [] /\ 0 < nBlockHeight GetHardcodedManifest /\
   nTotalSize GetHardcodedManifest <> 0 /\
   forall i c, vChunks GetHardcodedManifest !! i = Some c ->
               nChunkNumber c = N.of_nat i).
Proof.
  split; [vm_compute; reflexivity |].
  apply (C8_IsValid_invariants GetHardcodedManifest). vm_compute; reflexivity.
Defined.

(** C10: the compile-time blockchain manifest has 171 chunks, all of
    52,428,800 bytes except the last of 40,118,312, their sizes sum to
    [nTotalSize] = 8,953,014,312 and it passes [IsValid]; the params manifest
    has [nBlockHeight] = 0 and is rejected by [IsValid]. *)
Theorem C10_hardcoded_manifests :
  length (vChunks GetHardcodedManifest) = 171%nat /\
  map nSize (vChunks GetHardcodedManifest) = repeat 52428800 170 ++ [40118312] /\
  sum_sizes (vChunks GetHardcodedManifest) = nTotalSize GetHardcodedManifest /\
  nTotalSize GetHardcodedManifest = 8953014312 /\
  IsValid GetHardcodedManifest = true /\
  nBlockHeight GetHardcodedParamsManifest = 0 /\
  IsValid GetHardcodedParamsManifest = false.
Proof. split_and!; vm_compute; reflexivity. Qed.

(** ** Chunk store *)

Lemma digest_length msg : length (SHA256.digest msg) = 32%nat.
Proof.
  unfold SHA256.digest.
  destruct (SHA256.blocks _ _ _) as [[[[[[[a b] c] d] e] f] g] h].
  reflexivity.
Qed.

(** The copy loop of [VerifyChunk] reverses a 32-byte buffer. *)
Lemma reverse_hash_rev (h : list byte) : length h = 32%nat -> reverse_hash h = rev h.
Proof.
  intros H.
  do 32 (destruct h as [|? h]; [discriminate H|]).
  destruct h; [reflexivity | discriminate H].
Qed.

Lemma VerifyChunk_spec st nChunk vData :
  VerifyChunk st nChunk vData = true <->
  exists info, vChunks (manifest st) !! N.to_nat nChunk = Some info /\
               N.of_nat (length vData) = nSize info /\
               rev (SHA256.digest vData) = hashChunk info.
Proof.
  unfold VerifyChunk. rewrite reverse_hash_rev by apply digest_length.
  destruct (vChunks (manifest st) !! N.to_nat nChunk) as [info|].
  - destruct (N.eqb_spec (N.of_nat (length vData)) (nSize info)) as [Hs|Hs]; simpl.
    + case_bool_decide as Hh.
      * split; [done | intros (i & [= <-] & _ & ?); done].
      * split; [| done]. intros _. exists info. split_and!; try done.
    + split; [done | intros (i & [= <-] & ? & _); done].
  - split; [done | intros (i & ? & _); done].
Qed.

Lemma SaveChunk_true st fs io nChunk vData :
  (SaveChunk st fs io nChunk vData).1 = true -> VerifyChunk st nChunk vData = true.
Proof.
  unfold SaveChunk.
  destruct (GetChunkCount (manifest st) <=? nChunk); [done|].
  destruct (VerifyChunk st nChunk vData); [done | done].
Qed.

(** C1: [VerifyChunk(n, b)] returns true exactly when [n] indexes the
    manifest's chunk list, [b.size()] is the recorded size and the
    byte-reversed single SHA-256 of [b] is the recorded digest; hence every
    chunk accepted by [SaveChunk] hashes to the manifest digest in that
    orientation, and so does the file it leaves when the stream took all the
    bytes. *)
Theorem C1_VerifyChunk_iff st nChunk vData :
  (VerifyChunk st nChunk vData = true <->
   exists info, vChunks (manifest st) !! N.to_nat nChunk = Some info /\
                N.of_nat (length vData) = nSize info /\
                rev (SHA256.digest vData) = hashChunk info) /\
  (forall fs io, (SaveChunk st fs io nChunk vData).1 = true ->
     exists info, vChunks (manifest st) !! N.to_nat nChunk = Some info /\
                  rev (SHA256.digest vData) = hashChunk info) /\
  (forall fs k, (SaveChunk st fs (Opened k false) nChunk vData).1 = true ->
     (length vData <= k)%nat ->
     exists stored info,
       (SaveChunk st fs (Opened k false) nChunk vData).2 !! nChunk = Some stored /\
       stored = vData /\
       vChunks (manifest st) !! N.to_nat nChunk = Some info /\
       rev (SHA256.digest stored) = hashChunk info).
Proof.
  split; [apply VerifyChunk_spec|]. split.
  - intros fs io H. apply SaveChunk_true, VerifyChunk_spec in H as (info & ? & _ & ?).
    by exists info.
  - intros fs k H Hk. pose proof H as Hv.
    apply SaveChunk_true, VerifyChunk_spec in Hv as (info & ? & _ & ?).
    exists vData, info. split_and!; try done.
    unfold SaveChunk in *.
    destruct (GetChunkCount (manifest st) <=? nChunk); [done|].
    destruct (VerifyChunk st nChunk vData); [|done]. simpl.
    by rewrite lookup_insert_eq, firstn_all2.
Qed.

(** The published digest is the single hash: the chunk "abc" verifies against
    the text printed by sha256sum, and does not verify against the (reversed)
    double hash. *)
Example VerifyChunk_single_not_double :
  VerifyChunk abc_store 0 abc = true /\ VerifyChunk abc_store_double 0 abc = false.
Proof. split; vm_compute; reflexivity. Qed.

(** C2 (as stated) fails: when an exception is raised after the stream has
    been opened and one byte written, [SaveChunk] returns failure and the
    one-byte file of chunk 0 stays in the directory. *)
Lemma C2_partial_file_remains :
  (SaveChunk abc_store ∅ (Opened 1 true) 0 abc).1 = false /\
  (SaveChunk abc_store ∅ (Opened 1 true) 0 abc).2 !! 0 = Some (firstn 1 abc) /\
  firstn 1 abc <> abc.
Proof. split_and!; vm_compute; (reflexivity || discriminate). Qed.

(** C2 (amended): [SaveChunk] changes the chunk directory only after the
    index, size and digest checks have succeeded; when a check fails or the
    stream does not open it returns failure with the directory exactly as it
    was. It removes no file: every file present before is present after, only
    the file of chunk [n] can change, and it then holds a prefix of the
    data. *)
Theorem C2_SaveChunk_writes st fs io nChunk vData :
  let r := SaveChunk st fs io nChunk vData in
  (r.2 <> fs ->
     nChunk < GetChunkCount (manifest st) /\ VerifyChunk st nChunk vData = true /\
     exists k ex, io = Opened k ex) /\
  ((GetChunkCount (manifest st) <= nChunk \/ VerifyChunk st nChunk vData = false \/
    io = OpenFails) -> r = (false, fs)) /\
  (forall k, is_Some (fs !! k) -> is_Some (r.2 !! k)) /\
  (forall k, k <> nChunk -> r.2 !! k = fs !! k) /\
  (r.2 !! nChunk = fs !! nChunk \/ exists k, r.2 !! nChunk = Some (firstn k vData)).
Proof.
  unfold SaveChunk.
  destruct (N.leb_spec (GetChunkCount (manifest st)) nChunk) as [Hc|Hc]; simpl.
  { split_and!; try done; auto. }
  destruct (VerifyChunk st nChunk vData) eqn:Hv; simpl.
  2:{ split_and!; try done; auto. }
  destruct io as [|k ex]; simpl.
  { split_and!; try done; auto. }
  split_and!.
  - intros _. split_and!; try done. by exists k, ex.
  - intros [H|[H|H]]; [lia | done | done].
  - intros j Hj. rewrite lookup_insert. by case_decide.
  - intros j Hj. by rewrite lookup_insert_ne.
  - right. exists k. by rewrite lookup_insert_eq.
Qed.

(** ** Download state *)

Section download_state.
Implicit Types (s : CSnapshotDownloadState) (m : gmap N bool).

Lemma received_ok_new n : received_ok n (NewDownloadState n).
Proof. split; [done|]. intros k b Hk. simpl in Hk. by rewrite lookup_empty in Hk. Qed.

Lemma MarkChunkReceived_fields tStart tNow s c :
  nTotalChunks (MarkChunkReceived tStart tNow s c) = nTotalChunks s /\
  mapChunksReceived (MarkChunkReceived tStart tNow s c) =
    if c <? nTotalChunks s then <[c := true]> (mapChunksReceived s)
    else mapChunksReceived s.
Proof.
  unfold MarkChunkReceived.
  destruct (c <? nTotalChunks s); [|done].
  destruct (nDownloadStartTime s =? 0)%Z; simpl;
    match goal with |- context [if ?b then _ else _] => destruct b end; done.
Qed.

Lemma received_ok_step n s op : received_ok n s -> received_ok n (download_step s op).
Proof.
  intros [Hn Hk]. destruct op as [t1 t2 c|c t]; [|by split].
  unfold received_ok, download_step.
  destruct (MarkChunkReceived_fields t1 t2 s c) as [-> ->].
  split; [done|]. destruct (N.ltb_spec c (nTotalChunks s)) as [Hc|Hc]; [|done].
  intros k b. rewrite lookup_insert. case_decide as Hkc.
  - intros [= <-]. subst. by split; [lia|].
  - apply Hk.
Qed.

Lemma received_ok_run n ops : forall s,
  received_ok n s -> received_ok n (download_run ops s).
Proof.
  induction ops as [|op ops IH]; intros s Hs; [done|].
  apply IH. by apply received_ok_step.
Qed.

(** A map whose keys are all below [n] has at most [n] entries. *)
Lemma size_keys_below (n : nat) : forall m,
  (forall k, is_Some (m !! k) -> k < N.of_nat n) -> (size m <= n)%nat.
Proof.
  induction n as [|n IH]; intros m Hm.
  - assert (m = ∅) as ->; [|by rewrite map_size_empty].
    apply map_empty. intros k. destruct (m !! k) eqn:Hk; [|done].
    specialize (Hm k (mk_is_Some _ _ Hk)). lia.
  - specialize (IH (delete (N.of_nat n) m)).
    rewrite map_size_delete in IH.
    assert (size (delete (N.of_nat n) m) <= n)%nat as Hd.
    { rewrite map_size_delete. apply IH. intros k.
      rewrite lookup_delete. case_decide as Hk; [by intros [? ?]|].
      intros Hs. specialize (Hm k Hs). lia. }
    rewrite map_size_delete in Hd.
    destruct (m !! N.of_nat n); simpl in Hd; lia.
Qed.

(** A map that holds every key below [n] has at least [n] entries. *)
Lemma size_keys_all (n : nat) : forall m,
  (forall k, k < N.of_nat n -> is_Some (m !! k)) -> (n <= size m)%nat.
Proof.
  induction n as [|n IH]; intros m Hm; [lia|].
  assert (n <= size (delete (N.of_nat n) m))%nat as Hd.
  { apply IH. intros k Hk. rewrite lookup_delete_ne by lia. apply Hm. lia. }
  rewrite map_size_delete in Hd.
  destruct (Hm (N.of_nat n)) as [b Hb]; [lia|].
  rewrite Hb in Hd. simpl in Hd.
  assert (size m <> 0)%nat; [|lia].
  intros H0. apply map_size_empty_inv in H0. subst. by rewrite lookup_empty in Hb.
Qed.

Lemma count_le_size m :
  map_fold (fun _ (b : bool) count => if b then u32 (count + 1) else count) 0 m
  <= N.of_nat (size m).
Proof.
  apply (map_fold_weak_ind (fun r m => r <= N.of_nat (size m))).
  - by rewrite map_size_empty.
  - intros i x m' r Hi Hr. rewrite map_size_insert_None by done.
    destruct x; [|lia]. unfold u32.
    pose proof (N.Div0.mod_le (r + 1) (2 ^ 32)). lia.
Qed.

Lemma count_all_true m :
  (forall k b, m !! k = Some b -> b = true) ->
  map_fold (fun _ (b : bool) count => if b then u32 (count + 1) else count) 0 m
  = u32 (N.of_nat (size m)).
Proof.
  apply (map_fold_weak_ind
           (fun r m => (forall k b, m !! k = Some b -> b = true) ->
                       r = u32 (N.of_nat (size m)))).
  - intros _. by rewrite map_size_empty.
  - intros i x m' r Hi IH Hall. rewrite map_size_insert_None by done.
    rewrite (Hall i x) by apply lookup_insert_eq.
    rewrite IH.
    + unfold u32. rewrite N.Div0.add_mod_idemp_l. f_equal. lia.
    + intros k b Hk. apply (Hall k). rewrite lookup_insert_ne; [done|].
      intros ->. by rewrite Hi in Hk.
Qed.

Lemma first_missing_None s cnt : forall i,
  first_missing s i cnt = None <->
  forall j, i <= j < i + N.of_nat cnt -> IsChunkReceived s j = true.
Proof.
  induction cnt as [|cnt IH]; intros i; simpl.
  - split; [intros _ j Hj; lia | done].
  - destruct (IsChunkReceived s i) eqn:Hi; simpl.
    + rewrite IH. split.
      * intros H j Hj. destruct (decide (j = i)) as [->|]; [done|].
        apply H. lia.
      * intros H j Hj. apply H. lia.
    + split; [done|]. intros H. rewrite H in Hi by lia. done.
Qed.

Lemma IsComplete_spec s :
  IsComplete s = true <-> forall j, j < nTotalChunks s -> IsChunkReceived s j = true.
Proof.
  unfold IsComplete.
  destruct (first_missing s 0 (N.to_nat (nTotalChunks s))) as [i|] eqn:Hf.
  - split; [done|]. intros H.
    assert (first_missing s 0 (N.to_nat (nTotalChunks s)) = None) as Hn;
      [|by rewrite Hn in Hf].
    apply first_missing_None. intros j Hj. apply H. lia.
  - split; [|done]. intros _ j Hj.
    apply (proj1 (first_missing_None s _ 0) Hf). lia.
Qed.
End download_state.

(** C9: [MarkChunkReceived(n)] with [n >= nTotalChunks] changes nothing, so
    after any sequence of operations on a state created for [N] chunks,
    [IsChunkReceived(n)] holds only for [n < N], [GetReceivedCount()] is at
    most [N], and [IsComplete()] implies [GetReceivedCount() == N] and
    [GetNextChunkToRequest() == N]. *)
Theorem C9_download_state_bounds (nTotal : N) (ops : list DownloadOp) :
  nTotal < 2 ^ 32 ->
  let s := download_run ops (NewDownloadState nTotal) in
  (forall tStart tNow n, nTotalChunks s <= n -> MarkChunkReceived tStart tNow s n = s) /\
  (forall n, IsChunkReceived s n = true -> n < nTotal) /\
  GetReceivedCount s <= nTotal /\
  (IsComplete s = true ->
   GetReceivedCount s = nTotal /\ GetNextChunkToRequest s = nTotal).
Proof.
  intros Hrange s.
  destruct (received_ok_run nTotal ops _ (received_ok_new nTotal)) as [Hn Hkeys].
  fold s in Hn, Hkeys. clearbody s.
  assert (size (mapChunksReceived s) <= N.to_nat nTotal)%nat as Hsize.
  { apply size_keys_below. intros k [b Hb]. destruct (Hkeys k b Hb). lia. }
  split_and!.
  - intros tStart tNow n Hge. unfold MarkChunkReceived.
    destruct (N.ltb_spec n (nTotalChunks s)); [lia | done].
  - intros n. unfold IsChunkReceived.
    destruct (mapChunksReceived s !! n) as [b|] eqn:Hb; [|done].
    intros _. by destruct (Hkeys n b Hb).
  - pose proof (count_le_size (mapChunksReceived s)).
    unfold GetReceivedCount. lia.
  - intros Hc'. pose proof (proj1 (IsComplete_spec s) Hc') as Hc. clear Hc'.
    assert (N.to_nat nTotal <= size (mapChunksReceived s))%nat as Hall.
    { apply size_keys_all. intros k Hk. specialize (Hc k).
      unfold IsChunkReceived in Hc.
      destruct (mapChunksReceived s !! k); [done|].
      rewrite Hn in Hc. discriminate Hc. lia. }
    split.
    + unfold GetReceivedCount. rewrite count_all_true.
      * unfold u32. rewrite N.mod_small by lia. lia.
      * intros k b Hb. by destruct (Hkeys k b Hb).
    + unfold GetNextChunkToRequest.
      destruct (first_missing s 0 (N.to_nat (nTotalChunks s))) as [i|] eqn:Hf;
        [|done].
      assert (first_missing s 0 (N.to_nat (nTotalChunks s)) = None) as Hnone;
        [|by rewrite Hnone in Hf].
      apply first_missing_None. intros j Hj. apply Hc. lia.
Qed.

Lemma C9_download_state_bounds_witness :
  3 < 2 ^ 32 /\
  let s := download_run three_chunk_ops (NewDownloadState 3) in
  (forall tStart tNow n, nTotalChunks s <= n -> MarkChunkReceived tStart tNow s n = s) /\
  (forall n, IsChunkReceived s n = true -> n < 3) /\
  GetReceivedCount s <= 3 /\
  (IsComplete s = true -> GetReceivedCount s = 3 /\ GetNextChunkToRequest s = 3).
Proof.
  split; [reflexivity |].
  apply (C9_download_state_bounds 3 three_chunk_ops). reflexivity.
Defined.

(** The same run, evaluated: the download is complete, three chunks are
    counted, and the out-of-range chunk 7 was ignored. *)
Example three_chunk_run :
  let s := download_run three_chunk_ops (NewDownloadState 3) in
  IsComplete s = true /\ GetReceivedCount s = 3 /\ GetNextChunkToRequest s = 3 /\
  IsChunkReceived s 7 = false /\ HasRecentRequest s 1 1060 = true /\
  HasRecentRequest s 1 1061 = false.
Proof. vm_compute. split_and!; reflexivity. Qed.

(** ** Download coordinator *)

Section coordinator.
Import Coordinator.

Lemma key_le_total : Total key_le.
Proof. intros x y. unfold key_le. lia. Qed.

(** The in-flight entries are visited by increasing chunk number. *)
Lemma in_key_order_sorted (m : gmap N Z) : Sorted key_le (in_key_order m).
Proof. apply (Sorted_merge_sort key_le (Total0 := key_le_total)). Qed.

Lemma elem_of_in_key_order (m : gmap N Z) k node :
  (k, node) ∈ in_key_order m <-> m !! k = Some node.
Proof.
  unfold in_key_order. rewrite merge_sort_Permutation.
  apply elem_of_map_to_list.
Qed.

(** The loop of [GetTimedOutRequests] over any list of entries. *)
Lemma reap_fold nNow peers (l : list (N * Z)) : forall acc,
  let r := fold_left (reap_step nNow peers) l acc in
  (forall node k, (node, k) ∈ r.1 <->
     (node, k) ∈ acc.1 \/ ((k, node) ∈ l /\ timed_out nNow peers node = true)) /\
  (forall k node, (k, node) ∈ l -> timed_out nNow peers node = true ->
                  r.2 !! k = None) /\
  (forall k, (forall node, (k, node) ∈ l -> timed_out nNow peers node = false) ->
             r.2 !! k = acc.2 !! k).
Proof.
  induction l as [|[c n] l IH]; intros acc; simpl.
  - split_and!.
    + intros node k. split; [auto|]. intros [?|[H _]]; [done|]. by apply elem_of_nil in H.
    + intros k node H. by apply elem_of_nil in H.
    + done.
  - destruct (IH (reap_step nNow peers acc (c, n))) as (IH1 & IH2 & IH3).
    split_and!.
    + intros node k. rewrite IH1. unfold reap_step.
      destruct (timed_out nNow peers n) eqn:Hn; simpl.
      * rewrite elem_of_app, list_elem_of_singleton, elem_of_cons. split.
        -- intros [[?|[= -> ->]]|[? ?]]; auto.
        -- intros [?|[[[= -> ->]|?] ?]]; auto.
      * rewrite elem_of_cons. split.
        -- intros [?|[? ?]]; auto.
        -- intros [?|[[[= -> ->]|?] ?]]; auto. congruence.
    + intros k node Hin Ht.
      destruct (decide (Exists (fun e : N * Z =>
                          e.1 = k /\ timed_out nNow peers e.2 = true) l))
        as [Hex|Hno].
      { apply Exists_exists in Hex as ([k' n'] & ? & [? ?]); simpl in *; subst.
        by apply (IH2 k n'). }
      rewrite Exists_exists in Hno.
      apply elem_of_cons in Hin as [[= -> ->]|Hin];
        [|exfalso; apply Hno; by exists (k, node)].
      rewrite IH3.
      * unfold reap_step. rewrite Ht. simpl. apply lookup_delete_eq.
      * intros n' Hn'. destruct (timed_out nNow peers n') eqn:E; [|done].
        exfalso; apply Hno; by exists (c, n').
    + intros k Hall. rewrite IH3.
      * unfold reap_step. destruct (timed_out nNow peers n) eqn:Hn; [|done].
        simpl. rewrite lookup_delete_ne; [done|]. intros ->.
        specialize (Hall n). rewrite Hn in Hall.
        discriminate Hall. apply elem_of_cons; auto.
      * intros n' Hn'. apply Hall. apply elem_of_cons; auto.
Qed.

Lemma RecordRequest_stamps nNow c node nChunk :
  mapChunkToNode (RecordRequest nNow c node nChunk) !! nChunk = Some node /\
  nLastRequestTime <$> mapPeerStates (RecordRequest nNow c node nChunk) !! node
    = Some nNow.
Proof. unfold RecordRequest; simpl. by rewrite !lookup_insert_eq. Qed.
End coordinator.

(** C6: the code does not keep the timeout per chunk that the claim, the
    repository's notes ("60 second timeout per chunk") and the header
    ("Timeout after 60 seconds") describe. Peer 7 was asked for chunk 0 at
    second 1000 and for chunk 1 at second 1050; at second 1061 the request for
    chunk 0 has been in flight for 61 s, yet [GetTimedOutRequests] returns
    nothing and chunk 0 stays in the in-flight map, because
    [timeSinceRequest] is taken from the peer's last request (second
    1050). *)
Lemma C6_chunk_request_time_ignored :
  let c := Coordinator.coord_run Coordinator.two_requests in
  Coordinator.mapChunkToNode c !! 0 = Some 7%Z /\
  Coordinator.recorded_at Coordinator.two_requests 0 = Some 1000%Z /\
  (Z.of_N Coordinator.REQUEST_TIMEOUT_SEC < 1061 - 1000)%Z /\
  (Coordinator.GetTimedOutRequests 1061 c).1 = [] /\
  Coordinator.mapChunkToNode (Coordinator.GetTimedOutRequests 1061 c).2 !! 0 = Some 7%Z.
Proof. vm_compute. split_and!; reflexivity. Qed.

(** What [GetTimedOutRequests] computes instead of the timeout per chunk:
    it returns exactly the in-flight (peer, chunk) pairs whose peer has a
    state entry and for which more than [REQUEST_TIMEOUT_SEC] (60 s) elapsed
    since that peer's most recent [RecordRequest] (its [nLastRequestTime],
    which [RecordRequest] sets to the current time for any chunk); it removes
    exactly these chunks from the in-flight map and leaves the peer states as
    they were. *)
Theorem GetTimedOutRequests_per_peer (nNow : Z) (c : Coordinator.CSnapshotDownloadCoordinator) :
  let r := Coordinator.GetTimedOutRequests nNow c in
  (forall node nChunk,
     (node, nChunk) ∈ r.1 <->
     Coordinator.mapChunkToNode c !! nChunk = Some node /\
     exists st, Coordinator.mapPeerStates c !! node = Some st /\
                (60 < nNow - Coordinator.nLastRequestTime st)%Z) /\
  (forall node nChunk,
     (node, nChunk) ∈ r.1 -> Coordinator.mapChunkToNode r.2 !! nChunk = None) /\
  (forall nChunk,
     (forall node, (node, nChunk) ∉ r.1) ->
     Coordinator.mapChunkToNode r.2 !! nChunk = Coordinator.mapChunkToNode c !! nChunk) /\
  Coordinator.mapPeerStates r.2 = Coordinator.mapPeerStates c /\
  (forall t c0 node nChunk,
     Coordinator.nLastRequestTime <$>
       Coordinator.mapPeerStates (Coordinator.RecordRequest t c0 node nChunk) !! node
     = Some t).
Proof.
  intros r.
  pose proof (reap_fold nNow (Coordinator.mapPeerStates c)
                (Coordinator.in_key_order (Coordinator.mapChunkToNode c))
                ([], Coordinator.mapChunkToNode c)) as (Hin & Hdel & Hkeep).
  assert (forall node, Coordinator.timed_out nNow (Coordinator.mapPeerStates c) node = true <->
            exists st, Coordinator.mapPeerStates c !! node = Some st /\
                       (60 < nNow - Coordinator.nLastRequestTime st)%Z) as Htimed.
  { intros node. unfold Coordinator.timed_out.
    destruct (Coordinator.mapPeerStates c !! node) as [st|].
    - rewrite Z.ltb_lt. change (Z.of_N Coordinator.REQUEST_TIMEOUT_SEC) with 60%Z.
      split; [intros ?; by exists st | by intros (? & [= <-] & ?)].
    - split; [done | by intros (? & ? & _)]. }
  assert (forall node nChunk,
     (node, nChunk) ∈ r.1 <->
     Coordinator.mapChunkToNode c !! nChunk = Some node /\
     Coordinator.timed_out nNow (Coordinator.mapPeerStates c) node = true) as Hres.
  { intros node nChunk. unfold r, Coordinator.GetTimedOutRequests. simpl.
    rewrite Hin. simpl. rewrite elem_of_in_key_order. split.
    - intros [H|?]; [by apply elem_of_nil in H | done].
    - auto. }
  split_and!.
  - intros node nChunk. rewrite Hres, Htimed. done.
  - intros node nChunk Hr. apply Hres in Hr as [Hk Ht].
    unfold r, Coordinator.GetTimedOutRequests. simpl.
    apply (Hdel nChunk node); [by apply elem_of_in_key_order | done].
  - intros nChunk Hno. unfold r, Coordinator.GetTimedOutRequests. simpl.
    rewrite Hkeep; [done|]. intros node Hk. apply elem_of_in_key_order in Hk.
    destruct (Coordinator.timed_out nNow (Coordinator.mapPeerStates c) node) eqn:E;
      [|done].
    exfalso. apply (Hno node). by apply Hres.
  - done.
  - intros t c0 node nChunk. apply RecordRequest_stamps.
Qed.

(** ** UTXO-set hash verification *)

Lemma find_checkpoint_nil blockHash height : find_checkpoint [] blockHash height = None.
Proof. reflexivity. Qed.

(** The hash [VerifySnapshotUTXOHash] compares with the checkpoint. *)
Lemma CalculateUTXOSetHash_value env blockHash :
  (CalculateUTXOSetHash env blockHash).1.1 =
  match pcoinsTip env with
  | Some (Some stats) => Stats.hashSerialized stats
  | _ => uint256_zero
  end.
Proof.
  unfold CalculateUTXOSetHash. by destruct (pcoinsTip env) as [[stats|]|].
Qed.

(** C7 (as stated) fails: the checkpoint at height 1 has a real UTXO hash,
    [GetStats] reports that UTXO hash but for another tip, the warning is
    logged, and [VerifySnapshotUTXOHash] still returns success. *)
Lemma C7_tip_mismatch_accepted :
  find_checkpoint [checkpoint_1] (hashBlock checkpoint_1) 1 = Some checkpoint_1 /\
  hashUTXOSet checkpoint_1 <> uint256_zero /\
  (exists stats, pcoinsTip stats_other_tip = Some (Some stats) /\
                 Stats.hashBlock stats <> hashBlock checkpoint_1) /\
  (CalculateUTXOSetHash stats_other_tip (hashBlock checkpoint_1)).2 = true /\
  (VerifySnapshotUTXOHash stats_other_tip [checkpoint_1] (hashBlock checkpoint_1) 1).1
    = true.
Proof.
  split_and!; try (vm_compute; (reflexivity || discriminate)).
  eexists. split; [reflexivity | vm_compute; discriminate].
Qed.

(** C7 (amended): [VerifySnapshotUTXOHash] returns success without calling
    into the validation engine when no checkpoint matches (height and block
    hash) or the matching checkpoint's UTXO hash is all zero. Otherwise it
    computes the UTXO hash once and returns success exactly when
    [hashSerialized] equals the checkpoint's UTXO hash; a missing coins view
    or a failed [GetStats] yields the zero hash and therefore failure. The tip
    hash reported by the statistics is only logged and does not change the
    result. *)
Theorem C7_VerifySnapshotUTXOHash_spec env checkpoints blockHash height :
  let r := VerifySnapshotUTXOHash env checkpoints blockHash height in
  (find_checkpoint checkpoints blockHash height = None -> r = (true, [])) /\
  (forall cp, find_checkpoint checkpoints blockHash height = Some cp ->
     hashBlock cp = blockHash /\
     (hashUTXOSet cp = uint256_zero -> r = (true, [])) /\
     (hashUTXOSet cp <> uint256_zero ->
        r.2 = (CalculateUTXOSetHash env blockHash).1.2 /\
        (r.1 = true <->
         exists stats, pcoinsTip env = Some (Some stats) /\
                       Stats.hashSerialized stats = hashUTXOSet cp))).
Proof.
  intros r. unfold r, VerifySnapshotUTXOHash. split.
  - intros Hf. rewrite Hf. by case_bool_decide.
  - intros cp Hf. rewrite Hf.
    case_bool_decide as Hnil; [subst; discriminate Hf|].
    split.
    { unfold find_checkpoint in Hf. apply find_some in Hf as [_ Hm].
      apply andb_true_iff in Hm as [_ Hb]. by apply bool_decide_eq_true in Hb. }
    split.
    + intros Hz. by rewrite bool_decide_eq_true_2.
    + intros Hz. rewrite bool_decide_eq_false_2 by done.
      pose proof (CalculateUTXOSetHash_value env blockHash) as Hv.
      destruct (CalculateUTXOSetHash env blockHash) as [[actual calls] w].
      simpl in Hv. subst actual.
      case_bool_decide as Hne; simpl; (split; [done|]).
      * split; [done|]. intros (stats & Hs & Heq). rewrite Hs in Hne. done.
      * split; [|done]. intros _.
        destruct (pcoinsTip env) as [[stats|]|].
        -- exists stats. split; [done|].
           by destruct (decide (Stats.hashSerialized stats = hashUTXOSet cp)).
        -- exfalso. apply Hz. symmetry.
           by destruct (decide (uint256_zero = hashUTXOSet cp)).
        -- exfalso. apply Hz. symmetry.
           by destruct (decide (uint256_zero = hashUTXOSet cp)).
Qed.

(** ** Rate limiter *)

Section rate_limiter.
Import RateLimiter.
Implicit Types (rl : CSnapshotRateLimiter) (info : PeerRequestInfo).

(** The four ways out of [AllowRequest]: refused because of a running ban
    (entry untouched); refused by the capacity, pacing or duplicate test
    (an expired ban lifted, nothing else changed); refused by the per-minute
    test (window pruned, possibly banned); allowed. *)
Lemma AllowRequest_cases nNow rl addr nChunk :
  let info := peer_info rl addr in
  let times := drop_old nNow (requestTimes (unban info)) in
  let r := AllowRequest nNow rl addr nChunk in
  (exists until, r = (Rejected (Banned until), store rl addr info (nActiveTransfers rl)) /\
     bIsBanned info = true /\ (nNow < nBanUntil info)%Z) \/
  (exists e, r = (Rejected e, store rl addr (unban info) (nActiveTransfers rl)) /\
     ((forall until, e <> Banned until) /\ (forall nMax, e <> RateLimit nMax)) /\
     (bIsBanned info = true -> (nBanUntil info <= nNow)%Z)) \/
  (exists banned banUntil,
     r = (Rejected (RateLimit (nMaxChunksPerPeerPerMinute rl)),
          store rl addr
            (mkPeerRequestInfo times (servedChunks (unban info))
               (nLastRequestTime (unban info)) (nTotalRequests (unban info))
               banned banUntil)
            (nActiveTransfers rl)) /\
     (bIsBanned info = true -> (nBanUntil info <= nNow)%Z) /\
     nMaxChunksPerPeerPerMinute rl <= N.of_nat (length times) /\
     ((nBanThreshold rl <= N.of_nat (length times) /\ banned = true /\
       banUntil = (nNow + Z.of_N (nBanDurationSec rl))%Z) \/
      (N.of_nat (length times) < nBanThreshold rl /\
       banned = bIsBanned (unban info) /\ banUntil = nBanUntil (unban info)))) \/
  (r = (Allowed,
        store rl addr
          (mkPeerRequestInfo (times ++ [nNow]) (servedChunks (unban info)) nNow
             (u32 (nTotalRequests (unban info) + 1))
             (bIsBanned (unban info)) (nBanUntil (unban info)))
          (u32 (nActiveTransfers rl + 1))) /\
   (bIsBanned info = true -> (nBanUntil info <= nNow)%Z) /\
   nActiveTransfers rl < nMaxConcurrentTransfers rl /\
   N.of_nat (length times) < nMaxChunksPerPeerPerMinute rl).
Proof.
  intros info times r. unfold r, AllowRequest. fold info.
  destruct (bIsBanned info && (nNow <? nBanUntil info)%Z) eqn:Hban.
  { left. apply andb_true_iff in Hban as [Hb Hlt]. apply Z.ltb_lt in Hlt.
    by exists (nBanUntil info). }
  right.
  assert (bIsBanned info = true -> (nBanUntil info <= nNow)%Z) as Hexp.
  { intros Hb. rewrite Hb in Hban. simpl in Hban. apply Z.ltb_ge in Hban. lia. }
  destruct (N.leb_spec (nMaxConcurrentTransfers rl) (nActiveTransfers rl)) as [Hcap|Hcap].
  { left. eexists. split; [reflexivity|]. split; [done | done]. }
  destruct ((0 <? nLastRequestTime (unban info))%Z && _) eqn:Hfast.
  { left. eexists. split; [reflexivity|]. split; [done | done]. }
  destruct (match servedChunks (unban info) !! nChunk with
            | Some tServed => _ | None => None end) as [ago|] eqn:Hdup.
  { left. eexists. split; [reflexivity|]. split; [done | done]. }
  fold times. right.
  destruct (N.leb_spec (nMaxChunksPerPeerPerMinute rl) (N.of_nat (length times)))
    as [Hmax|Hmax].
  - left.
    destruct (N.leb_spec (nBanThreshold rl) (N.of_nat (length times))) as [Hthr|Hthr].
    + eexists _, _. split; [reflexivity|]. split_and!; try done. by left.
    + eexists _, _. split; [reflexivity|]. split_and!; try done. by right.
  - right. done.
Qed.

(** A property kept by every call holds after every history. *)
Lemma run_invariant (P : CSnapshotRateLimiter * list Answer -> Prop) evs :
  forall st, P st -> (forall st ev, P st -> P (step st ev)) ->
             P (fold_left step evs st).
Proof.
  induction evs as [|ev evs IH]; intros st H0 Hstep; [done|].
  simpl. apply IH; [by apply Hstep | done].
Qed.

Lemma store_fields rl addr info active :
  nMaxChunksPerPeerPerMinute (store rl addr info active) = nMaxChunksPerPeerPerMinute rl /\
  nMaxConcurrentTransfers (store rl addr info active) = nMaxConcurrentTransfers rl /\
  nBanThreshold (store rl addr info active) = nBanThreshold rl /\
  nBanDurationSec (store rl addr info active) = nBanDurationSec rl /\
  nActiveTransfers (store rl addr info active) = active /\
  mapPeerRequests (store rl addr info active) = <[addr := info]> (mapPeerRequests rl).
Proof. done. Qed.

Lemma peer_info_store rl a info active addr :
  peer_info (store rl a info active) addr =
  if decide (a = addr) then info else peer_info rl addr.
Proof.
  unfold peer_info, store. simpl. rewrite lookup_insert. by case_decide.
Qed.

(** *** The global transfer counter *)

Lemma AllowRequest_active nNow rl addr nChunk :
  let r := AllowRequest nNow rl addr nChunk in
  nMaxConcurrentTransfers r.2 = nMaxConcurrentTransfers rl /\
  (r.1 = Allowed /\ nActiveTransfers rl < nMaxConcurrentTransfers rl /\
   nActiveTransfers r.2 = u32 (nActiveTransfers rl + 1) \/
   is_allowed r.1 = false /\ nActiveTransfers r.2 = nActiveTransfers rl).
Proof.
  intros r. unfold r.
  destruct (AllowRequest_cases nNow rl addr nChunk)
    as [(u & -> & _)|[(e & -> & _)|[(b & bu & -> & _)|(-> & _ & Hc & _)]]];
    simpl; (split; [done|]); auto.
Qed.

Lemma CompleteTransfer_active rl :
  nMaxConcurrentTransfers (CompleteTransfer rl) = nMaxConcurrentTransfers rl /\
  nActiveTransfers (CompleteTransfer rl) =
    (if 0 <? nActiveTransfers rl then nActiveTransfers rl - 1 else 0).
Proof.
  unfold CompleteTransfer.
  destruct (N.ltb_spec 0 (nActiveTransfers rl)); simpl; [done|]. split; [done | lia].
Qed.

Lemma step_active maxConc st ev :
  nMaxConcurrentTransfers st.1 = maxConc /\ nActiveTransfers st.1 <= maxConc ->
  nMaxConcurrentTransfers (step st ev).1 = maxConc /\
  nActiveTransfers (step st ev).1 <= maxConc.
Proof.
  destruct st as [rl log], ev as [nNow [addr c|addr c b| |]]; simpl; intros [Hm Ha].
  - pose proof (AllowRequest_active nNow rl addr c) as [Hm' Hr].
    destruct (AllowRequest nNow rl addr c) as [v rl']. simpl in *.
    split; [congruence|].
    destruct Hr as [(_ & Hlt & ->)|(_ & ->)]; [|done].
    unfold u32. pose proof (N.Div0.mod_le (nActiveTransfers rl + 1) (2 ^ 32)). lia.
  - done.
  - destruct (CompleteTransfer_active rl) as [-> ->].
    split; [done|]. destruct (0 <? nActiveTransfers rl); lia.
  - unfold Cleanup. by destruct (3600 <? nNow - nLastResetTime rl)%Z.
Qed.
End rate_limiter.

(** C5: after any history of calls on a limiter created with a concurrency
    cap, the counter of active transfers is between 0 and the cap.
    [AllowRequest] admits only while the counter is below the cap, adds one
    exactly when it admits, and [CompleteTransfer] subtracts one unless the
    counter is zero. The default limits are the case (30, 25, 2). *)
Theorem C5_active_transfers_bounded
    (tNow : Z) (maxChunks maxConc minSec : N) (evs : list (Z * RateLimiter.Call)) :
  let rl0 := RateLimiter.SetLimits maxChunks maxConc minSec (RateLimiter.NewRateLimiter tNow) in
  let rl := (RateLimiter.run evs rl0).1 in
  (0 <= RateLimiter.nActiveTransfers rl /\
   RateLimiter.nActiveTransfers rl <= maxConc) /\
  RateLimiter.nMaxConcurrentTransfers rl = maxConc /\
  RateLimiter.SetLimits 30 25 2 (RateLimiter.NewRateLimiter tNow)
    = RateLimiter.NewRateLimiter tNow /\
  (forall nNow rl1 addr nChunk,
     let r := RateLimiter.AllowRequest nNow rl1 addr nChunk in
     (RateLimiter.nMaxConcurrentTransfers rl1 <= RateLimiter.nActiveTransfers rl1 ->
      RateLimiter.is_allowed r.1 = false) /\
     RateLimiter.nActiveTransfers r.2 =
       if RateLimiter.is_allowed r.1 then u32 (RateLimiter.nActiveTransfers rl1 + 1)
       else RateLimiter.nActiveTransfers rl1) /\
  (forall rl1,
     RateLimiter.nActiveTransfers (RateLimiter.CompleteTransfer rl1) =
       if 0 <? RateLimiter.nActiveTransfers rl1
       then RateLimiter.nActiveTransfers rl1 - 1 else 0).
Proof.
  intros rl0 rl.
  assert (RateLimiter.nMaxConcurrentTransfers rl = maxConc /\
          RateLimiter.nActiveTransfers rl <= maxConc) as [Hm Ha].
  { unfold rl, RateLimiter.run.
    apply (run_invariant (fun st =>
             RateLimiter.nMaxConcurrentTransfers st.1 = maxConc /\
             RateLimiter.nActiveTransfers st.1 <= maxConc)).
    - simpl. split; [done | lia].
    - intros st ev. apply step_active. }
  split_and!; try done.
  - lia.
  - intros nNow rl1 addr nChunk r.
    destruct (AllowRequest_active nNow rl1 addr nChunk) as [_ Hr]. fold r in Hr.
    destruct Hr as [(Hv & Hlt & Hn)|(Hv & Hn)]; rewrite Hv, Hn; simpl.
    + split; [lia | done].
    + done.
  - intros rl1. apply CompleteTransfer_active.
Qed.

Section ban.
Import RateLimiter.

Lemma drop_old_length nNow times : (length (drop_old nNow times) <= length times)%nat.
Proof.
  induction times as [|t times IH]; simpl; [done|].
  destruct (60 <? nNow - t)%Z; simpl; lia.
Qed.

Lemma never_banned_step st ev : never_banned st -> never_banned (step st ev).
Proof.
  destruct st as [rl log], ev as [nNow [addr c|addr c b| |]];
    intros (Hmax & Hthr & Hpeers & Hlog); simpl in *.
  - assert (bIsBanned (peer_info rl addr) = false /\
            nBanUntil (peer_info rl addr) = 0%Z /\
            (length (requestTimes (peer_info rl addr)) <= 30)%nat) as (Hb & Hu & Hl).
    { unfold peer_info. destruct (mapPeerRequests rl !! addr) as [i|] eqn:Hi; simpl.
      - by apply (Hpeers addr).
      - split_and!; [done | done | lia]. }
    assert (unban (peer_info rl addr) = peer_info rl addr) as Hunban.
    { unfold unban. by rewrite Hb. }
    pose proof (drop_old_length nNow (requestTimes (peer_info rl addr))) as Hdrop.
    destruct (AllowRequest_cases nNow rl addr c)
      as [(u & Hr & Hban & _)|[(e & Hr & [He _] & _)|[(b & bu & Hr & _ & Hge & Hcase)|
          (Hr & _ & _ & Hlt)]]];
      [congruence|..]; rewrite Hr; rewrite ?Hunban in *; unfold never_banned; simpl;
      (split; [done|]); (split; [done|]); split.
    + intros a info. rewrite lookup_insert. case_decide; [|by apply Hpeers].
      intros [= <-]. done.
    + intros a until [Ha|Ha%list_elem_of_singleton]%elem_of_app; [by apply Hlog|].
      subst a. simpl. intros [= ->]. by apply (He until).
    + intros a info. rewrite lookup_insert. case_decide; [|by apply Hpeers].
      intros [= <-]. simpl. destruct Hcase as [(Hbad & _)|(_ & -> & ->)]; [lia|].
      split_and!; [done | done | lia].
    + intros a until [Ha|Ha%list_elem_of_singleton]%elem_of_app; [by apply Hlog|].
      by subst a.
    + intros a info. rewrite lookup_insert. case_decide; [|by apply Hpeers].
      intros [= <-]. simpl. split_and!; [done | done |].
      rewrite length_app. simpl. lia.
    + intros a until [Ha|Ha%list_elem_of_singleton]%elem_of_app; [by apply Hlog|].
      by subst a.
  - split_and!; try done. intros a info. unfold RecordServed. simpl.
    rewrite lookup_insert.
    case_decide; [|by apply Hpeers]. intros [= <-]. simpl.
    unfold peer_info. destruct (mapPeerRequests rl !! addr) as [i|] eqn:Hi; simpl.
    + by apply (Hpeers addr).
    + split_and!; [done | done | lia].
  - unfold CompleteTransfer. by destruct (0 <? nActiveTransfers rl).
  - unfold Cleanup. destruct (3600 <? nNow - nLastResetTime rl)%Z; simpl;
      (split_and!; try done); intros a info [Hi _]%map_lookup_filter_Some;
      by apply (Hpeers a).
Qed.

Lemma never_banned_run tNow evs : never_banned (run evs (NewRateLimiter tNow)).
Proof.
  unfold run. apply (run_invariant never_banned); [|apply never_banned_step].
  split_and!; try done.
  intros a until H. by apply elem_of_nil in H.
Qed.
End ban.

Section ban_branch.
Import RateLimiter.

(** A running ban refuses the request and leaves the entry as it is. *)
Lemma AllowRequest_banned nNow rl addr nChunk :
  bIsBanned (peer_info rl addr) = true -> (nNow < nBanUntil (peer_info rl addr))%Z ->
  AllowRequest nNow rl addr nChunk =
  (Rejected (Banned (nBanUntil (peer_info rl addr))),
   store rl addr (peer_info rl addr) (nActiveTransfers rl)).
Proof.
  intros Hb Hlt. unfold AllowRequest. rewrite Hb. simpl.
  by rewrite (proj2 (Z.ltb_lt _ _) Hlt).
Qed.

(** A rate-limit refusal with a window of at least [nBanThreshold] clock
    values sets the ban for [nBanDurationSec] seconds. *)
Lemma AllowRequest_sets_ban nNow rl addr nChunk nMax :
  (AllowRequest nNow rl addr nChunk).1 = Rejected (RateLimit nMax) ->
  nBanThreshold rl <=
    N.of_nat (length (drop_old nNow (requestTimes (unban (peer_info rl addr))))) ->
  let info' := peer_info (AllowRequest nNow rl addr nChunk).2 addr in
  bIsBanned info' = true /\ nBanUntil info' = (nNow + Z.of_N (nBanDurationSec rl))%Z.
Proof.
  intros Hv Hthr.
  destruct (AllowRequest_cases nNow rl addr nChunk)
    as [(u & Hr & _)|[(e & Hr & [_ He] & _)|[(b & bu & Hr & _ & _ & Hcase)|(Hr & _)]]];
    rewrite Hr in Hv |- *; simpl in Hv; try discriminate Hv.
  - injection Hv as ->. by destruct (He nMax).
  - simpl. rewrite peer_info_store. case_decide; [|done]. simpl.
    destruct Hcase as [(_ & -> & ->)|(Hlt & _)]; [done | lia].
Qed.
End ban_branch.

(** With the per-minute limit raised to the threshold the branch is reached:
    100 requests are allowed, request 101 is refused by the rate limit and
    sets the ban, request 102 is answered "banned". *)
Example ban_reached_with_raised_limit :
  let r := RateLimiter.run flood_raised_limit
             (RateLimiter.SetLimits 100 25 0 (RateLimiter.NewRateLimiter 0)) in
  map RateLimiter.a_verdict r.2 =
    repeat RateLimiter.Allowed 100 ++
    [RateLimiter.Rejected (RateLimiter.RateLimit 100);
     RateLimiter.Rejected (RateLimiter.Banned 1300)] /\
  RateLimiter.IsBanned 1299 r.1 1 = true /\ RateLimiter.IsBanned 1300 r.1 1 = false.
Proof. vm_compute. split_and!; reflexivity. Qed.

(** C3: with the default limits the ban is never set. A window only receives
    the clock values of allowed requests and a request is allowed only while
    the window holds fewer than 30 of them, so it never holds the 100 of
    [nBanThreshold]: after any history no peer is banned and no request is
    answered "banned". In the flood of 150 requests within 60 seconds the
    first 30 are allowed and every one of the requests 31..150 is refused by
    the rate limit; after request 100, and at the end, [bIsBanned] is false
    and [nBanUntil] is 0. *)
Theorem C3_ban_never_set_by_default :
  (forall tNow evs, never_banned (RateLimiter.run evs (RateLimiter.NewRateLimiter tNow))) /\
  (let r := RateLimiter.run flood_150 (RateLimiter.NewRateLimiter 0) in
   map RateLimiter.a_verdict r.2 =
     repeat RateLimiter.Allowed 30 ++
     repeat (RateLimiter.Rejected (RateLimiter.RateLimit 30)) 120 /\
   RateLimiter.IsBanned 1060 r.1 1 = false /\
   (fun i => (RateLimiter.bIsBanned i, RateLimiter.nBanUntil i,
              length (RateLimiter.requestTimes i)))
     <$> RateLimiter.mapPeerRequests r.1 !! 1 = Some (false, 0%Z, 30%nat)).
Proof.
  split; [apply never_banned_run|].
  vm_compute. split_and!; reflexivity.
Qed.

Section window.
Import RateLimiter.
Implicit Types (rl : CSnapshotRateLimiter) (info : PeerRequestInfo) (g : list Z).

Lemma in_window_app t g1 g2 :
  in_window t (g1 ++ g2) = (in_window t g1 + in_window t g2)%nat.
Proof. unfold in_window. by rewrite filter_app, length_app. Qed.

Lemma in_window_le_length t g : (in_window t g <= length g)%nat.
Proof. apply length_filter. Qed.

Lemma in_window_stale t now g :
  Forall (fun x => x + 60 < now)%Z g -> (now <= t + 60)%Z -> in_window t g = 0%nat.
Proof.
  intros Hg Hnow. unfold in_window.
  induction Hg as [|x g Hx _ IH]; [done|].
  rewrite filter_cons_False by lia. done.
Qed.

Lemma in_window_outside t now :
  ~ (t <= now <= t + 60)%Z -> in_window t [now] = 0%nat.
Proof. intros H. unfold in_window. by rewrite filter_cons_False. Qed.

Lemma granted_snoc addr log a :
  granted addr (log ++ [a]) =
  granted addr log ++
    (if bool_decide (a_addr a = addr) && is_allowed (a_verdict a)
     then [a_time a] else []).
Proof.
  unfold granted. rewrite omap_app. simpl.
  by destruct (bool_decide (a_addr a = addr) && is_allowed (a_verdict a)).
Qed.

Lemma drop_old_split now times :
  exists dropped, times = dropped ++ drop_old now times /\
                  Forall (fun x => x + 60 < now)%Z dropped.
Proof.
  induction times as [|x times (d & Hd & Hf)]; simpl.
  - by exists [].
  - destruct (Z.ltb_spec 60 (now - x)).
    + exists (x :: d). split; [simpl; congruence|]. constructor; [lia | done].
    + by exists [].
Qed.

Lemma unban_fields info :
  bIsBanned (unban info) = false /\
  nLastRequestTime (unban info) = nLastRequestTime info /\
  requestTimes (unban info) = if bIsBanned info then [] else requestTimes info.
Proof. unfold unban. by destruct (bIsBanned info) eqn:E. Qed.

(** The clock moves on. *)
Lemma peer_inv_mono maxChunks T T' g info :
  (T <= T')%Z -> peer_inv maxChunks T g info -> peer_inv maxChunks T' g info.
Proof.
  intros HT ((old & Hg & Hold) & Hle & Hban & Hwin). split_and!; try done.
  - exists old. split; [done|]. eapply Forall_impl; [done|]. simpl. lia.
  - eapply Forall_impl; [done|]. simpl. lia.
Qed.

(** The window is emptied when all of it is older than 60 s. *)
Lemma peer_inv_forget maxChunks now g info info' :
  peer_inv maxChunks now g info ->
  Forall (fun x => x + 60 < now)%Z (requestTimes info) ->
  requestTimes info' = [] ->
  peer_inv maxChunks now g info'.
Proof.
  intros ((old & Hg & Hold) & Hle & Hban & Hwin) Hstale Hnil.
  unfold peer_inv. rewrite Hnil. split_and!; try done.
  exists (old ++ requestTimes info). split; [by rewrite app_nil_r|].
  by apply Forall_app.
Qed.

Lemma peer_inv_unban maxChunks now g info :
  peer_inv maxChunks now g info ->
  (bIsBanned info = true -> (nBanUntil info <= now)%Z) ->
  peer_inv maxChunks now g (unban info).
Proof.
  intros Hinv Hexp. unfold unban.
  destruct (bIsBanned info) eqn:Hb; [|done].
  apply (peer_inv_forget _ _ _ info); [done| |done].
  destruct Hinv as (_ & _ & Hban & _).
  eapply Forall_impl; [by apply Hban|]. simpl. specialize (Hexp eq_refl). lia.
Qed.

(** The window after [drop_old], with any ban state that respects it. *)
Lemma peer_inv_prune maxChunks now g info sc n banned banUntil :
  peer_inv maxChunks now g info ->
  (banned = true -> (now + 300 <= banUntil)%Z) ->
  peer_inv maxChunks now g
    (mkPeerRequestInfo (drop_old now (requestTimes info)) sc
       (nLastRequestTime info) n banned banUntil).
Proof.
  intros ((old & Hg & Hold) & Hle & _ & Hwin) Hban.
  destruct (drop_old_split now (requestTimes info)) as (d & Hd & Hdf).
  assert (Forall (fun x => x <= nLastRequestTime info /\ x <= now)%Z
                 (drop_old now (requestTimes info))) as Hle'.
  { rewrite Hd in Hle. by apply Forall_app in Hle as [_ ?]. }
  unfold peer_inv. simpl. split_and!; try done.
  - exists (old ++ d). split; [by rewrite <- app_assoc, <- Hd|].
    by apply Forall_app.
  - intros Hb. specialize (Hban Hb).
    eapply Forall_impl; [done|]. simpl. lia.
Qed.

(** An allowed request joins the window. *)
Lemma peer_inv_push maxChunks now g info sc n banUntil :
  peer_inv maxChunks now g info ->
  N.of_nat (length (requestTimes info)) < maxChunks ->
  peer_inv maxChunks now (g ++ [now])
    (mkPeerRequestInfo (requestTimes info ++ [now]) sc now n false banUntil).
Proof.
  intros ((old & Hg & Hold) & Hle & _ & Hwin) Hlen.
  unfold peer_inv. simpl. split_and!; try done.
  - exists old. split; [by rewrite Hg, app_assoc | done].
  - apply Forall_app. split.
    + eapply Forall_impl; [done|]. simpl. lia.
    + constructor; [lia | done].
  - intros t. rewrite in_window_app.
    destruct (decide (t <= now <= t + 60)%Z) as [Hin|Hout].
    + rewrite Hg, in_window_app, (in_window_stale t now old) by (done || lia).
      pose proof (in_window_le_length t (requestTimes info)).
      pose proof (in_window_le_length t [now]). simpl in *. lia.
    + rewrite in_window_outside by done. specialize (Hwin t). lia.
Qed.

Lemma peer_info_RecordServed now rl a c b addr :
  peer_info (RecordServed now rl a c b) addr =
  if decide (a = addr) then
    mkPeerRequestInfo (requestTimes (peer_info rl a))
      (<[c := now]> (servedChunks (peer_info rl a)))
      (nLastRequestTime (peer_info rl a)) (nTotalRequests (peer_info rl a))
      (bIsBanned (peer_info rl a)) (nBanUntil (peer_info rl a))
  else peer_info rl addr.
Proof.
  unfold peer_info at 1. unfold RecordServed. simpl. rewrite lookup_insert.
  by case_decide.
Qed.

Lemma window_inv_step maxChunks T now call st :
  window_inv maxChunks T st -> (T <= now)%Z ->
  window_inv maxChunks now (step st (now, call)).
Proof.
  destruct st as [rl log]. intros (Hmax & Hdur & Hpeers) HT. simpl in *.
  assert (forall addr, peer_inv maxChunks now (granted addr log) (peer_info rl addr))
    as Hnow by (intros addr; by apply (peer_inv_mono _ T)).
  clear Hpeers. destruct call as [a c|a c b| |]; simpl.
  - pose proof (Hnow a) as Ha.
    destruct (AllowRequest_cases now rl a c)
      as [(u & Hr & _)|[(e & Hr & _ & Hexp)|[(bn & bu & Hr & Hexp & _ & Hcase)|
          (Hr & Hexp & _ & Hlt)]]];
      rewrite Hr; (split; [done|]); (split; [done|]); intros addr; simpl;
      rewrite granted_snoc, peer_info_store; simpl;
      (case_decide as Haddr;
        [subst addr; rewrite bool_decide_eq_true_2 by done
        |rewrite bool_decide_eq_false_2 by done; simpl; rewrite app_nil_r;
         by apply Hnow]); simpl; rewrite ?app_nil_r.
    + done.
    + by apply peer_inv_unban.
    + destruct (unban_fields (peer_info rl a)) as (_ & -> & _).
      rewrite <- (proj1 (proj2 (unban_fields (peer_info rl a)))).
      apply peer_inv_prune; [by apply peer_inv_unban|].
      intros ->. destruct Hcase as [(_ & _ & ->)|(_ & Hb & _)].
      * rewrite Hdur. lia.
      * destruct (unban_fields (peer_info rl a)) as (Hf & _). congruence.
    + destruct (unban_fields (peer_info rl a)) as (-> & _ & _).
      apply (peer_inv_push _ _ _
               (mkPeerRequestInfo (drop_old now (requestTimes (unban (peer_info rl a))))
                  (servedChunks (unban (peer_info rl a)))
                  (nLastRequestTime (unban (peer_info rl a)))
                  (nTotalRequests (unban (peer_info rl a))) false 0)).
      * apply peer_inv_prune; [by apply peer_inv_unban | done].
      * simpl. lia.
  - split; [done|]. split; [done|]. intros addr. simpl.
    rewrite peer_info_RecordServed.
    case_decide as Haddr; [subst addr|by apply Hnow]. apply (Hnow a).
  - unfold CompleteTransfer.
    destruct (0 <? nActiveTransfers rl); simpl; done.
  - assert (forall addr,
              peer_inv maxChunks now (granted addr log)
                (default NewPeerRequestInfo
                   (filter (fun e : N * PeerRequestInfo => stale now e.2 = false)
                           (mapPeerRequests rl) !! addr))) as Hclean.
    { intros addr. specialize (Hnow addr). unfold peer_info in Hnow.
      rewrite map_lookup_filter.
      destruct (mapPeerRequests rl !! addr) as [i|] eqn:Hi; simpl; [|done].
      simpl in Hnow. destruct (stale now i) eqn:Hs.
      - rewrite option_guard_False by (simpl; congruence). simpl.
        apply (peer_inv_forget _ _ _ i); [done| |done].
        unfold stale in Hs. apply andb_true_iff in Hs as [Hs _].
        apply Z.ltb_lt in Hs.
        destruct Hnow as (_ & Hle & _). eapply Forall_impl; [done|]. simpl. lia.
      - by rewrite option_guard_True. }
    unfold Cleanup. destruct (3600 <? now - nLastResetTime rl)%Z; simpl; done.
Qed.
End window.

Section window_run.
Import RateLimiter.

Lemma window_inv_run maxChunks evs : forall T st,
  window_inv maxChunks T st -> nondecreasing (T :: evs.*1) = true ->
  exists T', window_inv maxChunks T' (fold_left step evs st).
Proof.
  induction evs as [|[t call] evs IH]; intros T st Hinv Hmono; [by exists T|].
  simpl in Hmono. apply andb_true_iff in Hmono as [HT Hmono].
  apply Z.leb_le in HT. simpl.
  apply (IH t); [by apply (window_inv_step _ T) | done].
Qed.

Lemma window_inv_init maxChunks maxConc minSec tNow T :
  window_inv maxChunks T (SetLimits maxChunks maxConc minSec (NewRateLimiter tNow), []).
Proof.
  split; [done|]. split; [done|]. intros addr. unfold peer_inv. simpl.
  split_and!; try done.
  - by exists [].
  - intros t. unfold in_window. simpl. lia.
Qed.

Lemma AllowRequest_allowed nNow rl addr nChunk :
  (AllowRequest nNow rl addr nChunk).1 = Allowed ->
  let times := drop_old nNow (requestTimes (unban (peer_info rl addr))) in
  N.of_nat (length times) < nMaxChunksPerPeerPerMinute rl /\
  requestTimes (peer_info (AllowRequest nNow rl addr nChunk).2 addr) = times ++ [nNow].
Proof.
  intros Hv times.
  destruct (AllowRequest_cases nNow rl addr nChunk)
    as [(u & Hr & _)|[(e & Hr & _)|[(bn & bu & Hr & _)|(Hr & _ & _ & Hlt)]]];
    rewrite Hr in Hv |- *; try discriminate Hv.
  split; [done|]. simpl. rewrite peer_info_store. by case_decide.
Qed.
End window_run.

(** C4: along any history in which the clock does not run backwards, on a
    limiter created with the limit [maxChunks] per peer and minute (30 by
    default), the requests of one peer that were allowed within any window
    [t, t + 60] number at most [maxChunks]. A request is allowed only when,
    after the old clock values have been dropped, the window holds fewer than
    [maxChunks] of them, and an allowed request appends its clock value. *)
Theorem C4_window_bound (tNow : Z) (maxChunks maxConc minSec : N)
    (evs : list (Z * RateLimiter.Call)) (addr : N) (t : Z) :
  RateLimiter.nondecreasing (evs.*1) = true ->
  let rl0 := RateLimiter.SetLimits maxChunks maxConc minSec
               (RateLimiter.NewRateLimiter tNow) in
  (RateLimiter.in_window t (RateLimiter.granted addr (RateLimiter.run evs rl0).2)
   <= N.to_nat maxChunks)%nat /\
  (forall nNow rl a nChunk,
     (RateLimiter.AllowRequest nNow rl a nChunk).1 = RateLimiter.Allowed ->
     let times := RateLimiter.drop_old nNow
                    (RateLimiter.requestTimes
                       (RateLimiter.unban (RateLimiter.peer_info rl a))) in
     N.of_nat (length times) < RateLimiter.nMaxChunksPerPeerPerMinute rl /\
     RateLimiter.requestTimes
       (RateLimiter.peer_info (RateLimiter.AllowRequest nNow rl a nChunk).2 a)
     = times ++ [nNow]).
Proof.
  intros Hmono rl0. split; [|apply AllowRequest_allowed].
  assert (exists T, window_inv maxChunks T (RateLimiter.run evs rl0)) as (T & Hinv).
  { unfold RateLimiter.run. destruct evs as [|[t0 call] evs].
    - exists 0%Z. apply window_inv_init.
    - apply (window_inv_run maxChunks _ t0); [apply window_inv_init|].
      change (((t0, call) :: evs).*1) with (t0 :: evs.*1) in *.
      change (RateLimiter.nondecreasing (t0 :: t0 :: evs.*1))
        with ((t0 <=? t0)%Z && RateLimiter.nondecreasing (t0 :: evs.*1)).
      rewrite Hmono, andb_true_r. apply Z.leb_refl. }
  destruct Hinv as (_ & _ & Hpeers).
  destruct (Hpeers addr) as (_ & _ & _ & Hwin). apply Hwin.
Qed.

Lemma C4_window_bound_witness :
  RateLimiter.nondecreasing (flood_150.*1) = true /\
  let rl0 := RateLimiter.SetLimits 30 25 2 (RateLimiter.NewRateLimiter 0) in
  (RateLimiter.in_window 1000 (RateLimiter.granted 1 (RateLimiter.run flood_150 rl0).2)
   <= N.to_nat 30)%nat /\
  (forall nNow rl a nChunk,
     (RateLimiter.AllowRequest nNow rl a nChunk).1 = RateLimiter.Allowed ->
     let times := RateLimiter.drop_old nNow
                    (RateLimiter.requestTimes
                       (RateLimiter.unban (RateLimiter.peer_info rl a))) in
     N.of_nat (length times) < RateLimiter.nMaxChunksPerPeerPerMinute rl /\
     RateLimiter.requestTimes
       (RateLimiter.peer_info (RateLimiter.AllowRequest nNow rl a nChunk).2 a)
     = times ++ [nNow]).
Proof.
  split; [vm_compute; reflexivity|].
  apply (C4_window_bound 0 30 25 2 flood_150 1 1000). vm_compute. reflexivity.
Defined.

(** The bound is reached: in the flood all 30 allowed requests fall in the
    window that starts at second 1000. *)
Example flood_fills_window :
  RateLimiter.in_window 1000
    (RateLimiter.granted 1 (RateLimiter.run flood_150 (RateLimiter.NewRateLimiter 0)).2)
  = 30%nat.
Proof. vm_compute. reflexivity. Qed.

(** * Further properties *)

(** ** Download state *)

Lemma first_missing_Some s cnt : forall i j,
  first_missing s i cnt = Some j ->
  i <= j < i + N.of_nat cnt /\ IsChunkReceived s j = false /\
  forall k, i <= k < j -> IsChunkReceived s k = true.
Proof.
  induction cnt as [|cnt IH]; intros i j; simpl; [done|].
  destruct (IsChunkReceived s i) eqn:Hi; simpl.
  - intros Hf. apply IH in Hf as (Hr & Hj & Hk). split_and!; [lia | lia | done |].
    intros k Hki. destruct (decide (k = i)) as [->|]; [done|]. apply Hk. lia.
  - intros [= <-]. split_and!; [lia | lia | done |]. intros k Hk. lia.
Qed.

(** X1: [GetNextChunkToRequest] returns the smallest chunk number below
    [nTotalChunks] that is not received, and [nTotalChunks] when there is
    none; [IsComplete] holds exactly in the latter case. *)
Theorem X1_next_chunk_is_smallest_missing (s : CSnapshotDownloadState) :
  let r := GetNextChunkToRequest s in
  r <= nTotalChunks s /\
  (forall i, i < r -> IsChunkReceived s i = true) /\
  (r < nTotalChunks s -> IsChunkReceived s r = false) /\
  (IsComplete s = true <-> r = nTotalChunks s).
Proof.
  unfold GetNextChunkToRequest, IsComplete.
  destruct (first_missing s 0 (N.to_nat (nTotalChunks s))) as [j|] eqn:Hf; simpl.
  - apply first_missing_Some in Hf as (Hr & Hj & Hk).
    split_and!; [lia | intros i Hi; apply Hk; lia | done |].
    split; [done | lia].
  - split_and!; [lia | | lia | done].
    intros i Hi. apply (proj1 (first_missing_None s _ 0) Hf). lia.
Qed.

Lemma download_run_app ops1 ops2 s :
  download_run (ops1 ++ ops2) s = download_run ops2 (download_run ops1 s).
Proof. unfold download_run. apply fold_left_app. Qed.

(** The received map after a history: the in-range marked chunks, all mapped
    to [true]. *)
Lemma received_after_run nTotal ops n :
  mapChunksReceived (download_run ops (NewDownloadState nTotal)) !! n =
  if bool_decide (n ∈ marked_chunks ops /\ n < nTotal) then Some true else None.
Proof.
  induction ops as [|op ops IH] using rev_ind.
  - rewrite bool_decide_eq_false_2; [apply lookup_empty|].
    intros [H _]. by apply elem_of_nil in H.
  - rewrite download_run_app. unfold marked_chunks. rewrite omap_app.
    fold (marked_chunks ops). simpl.
    pose proof (received_ok_run nTotal ops _ (received_ok_new nTotal)) as [Hn _].
    destruct op as [t1 t2 c|c t]; simpl.
    + destruct (MarkChunkReceived_fields t1 t2
                  (download_run ops (NewDownloadState nTotal)) c) as [_ ->].
      rewrite Hn. destruct (N.ltb_spec c nTotal) as [Hc|Hc].
      * rewrite lookup_insert. destruct (decide (c = n)) as [Hcn|Hcn].
        -- subst n. rewrite bool_decide_eq_true_2; [done|].
           split; [|done]. apply elem_of_app. right. by apply list_elem_of_singleton.
        -- rewrite IH. apply (f_equal (fun b : bool => if b then Some true else None)).
           apply bool_decide_ext. rewrite elem_of_app, list_elem_of_singleton.
           split; [intros [? ?]; auto | intros [[?|?] ?]; [done | congruence]].
      * rewrite IH. apply (f_equal (fun b : bool => if b then Some true else None)).
        apply bool_decide_ext. rewrite elem_of_app, list_elem_of_singleton.
        split; [intros [? ?]; auto | intros [[?|?] ?]; [done | lia]].
    + rewrite app_nil_r. apply IH.
Qed.

(** X2: after any history on a state created for [N] chunks, a chunk is
    received exactly when it was marked and is below [N], and
    [GetReceivedCount] is the number of distinct such chunks: marking a chunk
    twice, or marking a chunk out of range, does not count. *)
Theorem X2_received_count_distinct (nTotal : N) (ops : list DownloadOp) :
  nTotal < 2 ^ 32 ->
  let s := download_run ops (NewDownloadState nTotal) in
  (forall n, IsChunkReceived s n = true <-> n ∈ marked_chunks ops /\ n < nTotal) /\
  GetReceivedCount s =
    N.of_nat (size (list_to_set (filter (fun n => n < nTotal) (marked_chunks ops))
                    : gset N)).
Proof.
  intros Hrange s.
  assert (forall n, mapChunksReceived s !! n =
            if bool_decide (n ∈ marked_chunks ops /\ n < nTotal)
            then Some true else None) as Hmap by apply received_after_run.
  split.
  - intros n. unfold IsChunkReceived. rewrite Hmap.
    case_bool_decide; split; done.
  - unfold GetReceivedCount. rewrite count_all_true.
    2:{ intros k b. rewrite Hmap. case_bool_decide; [by intros [= <-] | done]. }
    assert (dom (mapChunksReceived s) =
            list_to_set (filter (fun n => n < nTotal) (marked_chunks ops))) as Hdom.
    { apply set_eq. intros n. rewrite elem_of_dom, Hmap, elem_of_list_to_set,
        list_elem_of_filter.
      case_bool_decide as H.
      - split; [intros _; by destruct H | intros _; by eexists].
      - split; [by intros [? ?] | intros [? ?]; by destruct H]. }
    rewrite <- Hdom, size_dom.
    pose proof (C := size_keys_below (N.to_nat nTotal) (mapChunksReceived s)).
    unfold u32. rewrite N.mod_small; [done|].
    assert (size (mapChunksReceived s) <= N.to_nat nTotal)%nat; [|lia].
    apply C. intros k [b Hb]. rewrite Hmap in Hb.
    case_bool_decide as H; [|done]. destruct H. lia.
Qed.

Lemma X2_received_count_distinct_witness :
  3 < 2 ^ 32 /\
  let s := download_run three_chunk_ops (NewDownloadState 3) in
  (forall n, IsChunkReceived s n = true <-> n ∈ marked_chunks three_chunk_ops /\ n < 3) /\
  GetReceivedCount s =
    N.of_nat (size (list_to_set (filter (fun n => n < 3) (marked_chunks three_chunk_ops))
                    : gset N)).
Proof.
  split; [reflexivity|].
  apply (X2_received_count_distinct 3 three_chunk_ops). reflexivity.
Defined.

Lemma last_request_snoc ops op n :
  last_request (ops ++ [op]) n =
  match op with
  | OpRecordChunkRequest c t => if bool_decide (c = n) then Some t else last_request ops n
  | OpMarkChunkReceived _ _ _ => last_request ops n
  end.
Proof. unfold last_request. rewrite fold_left_app. simpl. by destruct op. Qed.

(** X3: after any history, [HasRecentRequest(n, now)] holds exactly when
    the chunk was requested and fewer than 60 seconds passed since the time
    given to its latest [RecordChunkRequest]; at exactly 60 seconds the
    request is no longer recent. Requests for other chunks and received
    chunks do not matter. *)
Theorem X3_recent_request_latest (nTotal : N) (ops : list DownloadOp) (n : N) (nNow : Z) :
  HasRecentRequest (download_run ops (NewDownloadState nTotal)) n nNow = true <->
  exists t, last_request ops n = Some t /\ (nNow - t < 60)%Z.
Proof.
  assert (mapChunkRequests (download_run ops (NewDownloadState nTotal)) !! n =
          last_request ops n) as Hreq.
  { induction ops as [|op ops IH] using rev_ind; [done|].
    rewrite download_run_app, last_request_snoc. destruct op as [t1 t2 c|c t]; simpl.
    - rewrite <- IH. unfold MarkChunkReceived.
      destruct (c <? nTotalChunks _); [|done].
      destruct (nDownloadStartTime _ =? 0)%Z; simpl;
        match goal with |- context [if ?b then _ else _] => destruct b end; done.
    - rewrite lookup_insert. case_decide as Hc.
      + by rewrite bool_decide_eq_true_2.
      + by rewrite bool_decide_eq_false_2. }
  unfold HasRecentRequest. rewrite Hreq.
  destruct (last_request ops n) as [t|].
  - rewrite Z.ltb_lt. split; [intros ?; by exists t | by intros (? & [= <-] & ?)].
  - split; [done | by intros (? & ? & _)].
Qed.

Lemma MarkChunkReceived_keeps t1 t2 s c n :
  IsChunkReceived s n = true -> IsChunkReceived (MarkChunkReceived t1 t2 s c) n = true.
Proof.
  unfold IsChunkReceived. destruct (MarkChunkReceived_fields t1 t2 s c) as [_ ->].
  destruct (c <? nTotalChunks s); [|done].
  rewrite lookup_insert. by case_decide.
Qed.

(** X4: a received chunk stays received: no sequence of [MarkChunkReceived]
    and [RecordChunkRequest] calls, on any state, clears it. *)
Theorem X4_received_is_permanent (s : CSnapshotDownloadState) (ops : list DownloadOp) (n : N) :
  IsChunkReceived s n = true -> IsChunkReceived (download_run ops s) n = true.
Proof.
  revert s. induction ops as [|op ops IH]; intros s Hn; [done|].
  simpl. apply IH. destruct op as [t1 t2 c|c t]; simpl; [|done].
  by apply MarkChunkReceived_keeps.
Qed.

Lemma X4_received_is_permanent_witness :
  IsChunkReceived (download_run [OpMarkChunkReceived 5 5 1] (NewDownloadState 3)) 1 = true /\
  IsChunkReceived
    (download_run three_chunk_ops
       (download_run [OpMarkChunkReceived 5 5 1] (NewDownloadState 3))) 1 = true.
Proof.
  split; [vm_compute; reflexivity|].
  apply (X4_received_is_permanent _ three_chunk_ops 1). vm_compute. reflexivity.
Defined.

(** ** Chunk store: loading, assembling, initialising *)

Lemma HasChunk_spec st fs n :
  HasChunk st fs n = true <-> n < GetChunkCount (manifest st) /\ is_Some (fs !! n).
Proof.
  unfold HasChunk. destruct (N.leb_spec (GetChunkCount (manifest st)) n).
  - split; [done | lia].
  - rewrite bool_decide_eq_true. split; [done | by intros [_ ?]].
Qed.

Lemma all_chunks_present_spec st fs cnt : forall i,
  all_chunks_present st fs i cnt = true <->
  forall j, i <= j < i + N.of_nat cnt -> HasChunk st fs j = true.
Proof.
  induction cnt as [|cnt IH]; intros i; simpl.
  - split; [intros _ j Hj; lia | done].
  - destruct (HasChunk st fs i) eqn:Hi; simpl.
    + rewrite IH. split.
      * intros H j Hj. destruct (decide (j = i)) as [->|]; [done|]. apply H. lia.
      * intros H j Hj. apply H. lia.
    + split; [done|]. intros H. rewrite H in Hi by lia. done.
Qed.

Lemma LoadChunk_full st fs k n v content :
  n < GetChunkCount (manifest st) -> fs !! n = Some content ->
  (length content <= k)%nat ->
  LoadChunk st fs (ReadBytes k) n v = (true, content).
Proof.
  intros Hn Hf Hk. unfold LoadChunk.
  destruct (N.leb_spec (GetChunkCount (manifest st)) n); [lia|].
  rewrite Hf. f_equal. rewrite firstn_all2 by done.
  rewrite skipn_all2; [apply app_nil_r|].
  unfold resize. rewrite length_firstn. lia.
Qed.

(** X5: a chunk saved by [SaveChunk] is read back unchanged by [LoadChunk]
    when the output stream took all the bytes and the input stream delivers
    the whole file, whatever the caller's buffer held before. *)
Theorem X5_save_load_round_trip st fs k j nChunk vData buf :
  (SaveChunk st fs (Opened k false) nChunk vData).1 = true ->
  (length vData <= k)%nat -> (length vData <= j)%nat ->
  LoadChunk st (SaveChunk st fs (Opened k false) nChunk vData).2 (ReadBytes j) nChunk buf
  = (true, vData).
Proof.
  intros Hok Hk Hj. unfold SaveChunk in *.
  destruct (N.leb_spec (GetChunkCount (manifest st)) nChunk); [done|].
  destruct (VerifyChunk st nChunk vData); [|done]. simpl.
  apply LoadChunk_full; [done | | done].
  by rewrite lookup_insert_eq, firstn_all2.
Qed.

Lemma X5_save_load_round_trip_witness :
  (SaveChunk abc_store ∅ (Opened 3 false) 0 abc).1 = true /\
  (length abc <= 3)%nat /\ (length abc <= 5)%nat /\
  LoadChunk abc_store (SaveChunk abc_store ∅ (Opened 3 false) 0 abc).2 (ReadBytes 5) 0
    [x00; x01] = (true, abc).
Proof.
  split; [vm_compute; reflexivity|].
  split; [vm_compute; lia|]. split; [vm_compute; lia|].
  apply (X5_save_load_round_trip abc_store ∅ 3 5 0 abc [x00; x01]);
    vm_compute; (reflexivity || lia).
Defined.

(** X6: [LoadChunk] succeeds exactly when the chunk number is below the
    manifest's chunk count, the chunk file exists and the stream opens and
    reads; a failed call leaves the caller's buffer as it was; a complete read
    returns the bytes of the file, which are not compared with the manifest's
    size or digest. *)
Theorem X6_LoadChunk_spec st fs io nChunk buf :
  ((LoadChunk st fs io nChunk buf).1 = true <->
   nChunk < GetChunkCount (manifest st) /\ is_Some (fs !! nChunk) /\
   exists k, io = ReadBytes k) /\
  ((LoadChunk st fs io nChunk buf).1 = false -> (LoadChunk st fs io nChunk buf).2 = buf) /\
  (forall content k,
     nChunk < GetChunkCount (manifest st) -> fs !! nChunk = Some content ->
     (length content <= k)%nat ->
     LoadChunk st fs (ReadBytes k) nChunk buf = (true, content)).
Proof.
  split_and!.
  - unfold LoadChunk.
    destruct (N.leb_spec (GetChunkCount (manifest st)) nChunk).
    { split; [done | lia]. }
    destruct (fs !! nChunk) as [content|].
    2:{ split; [done | by intros (_ & [? ?] & _)]. }
    destruct io as [|k|]; simpl.
    + split; [done | by intros (_ & _ & ? & ?)].
    + split; [|done]. intros _. split_and!; [done | by eexists | by exists k].
    + split; [done | by intros (_ & _ & ? & ?)].
  - unfold LoadChunk.
    destruct (GetChunkCount (manifest st) <=? nChunk); [done|].
    destruct (fs !! nChunk); [|done]. by destruct io.
  - intros content k. apply LoadChunk_full.
Qed.

(** The file of chunk 0 holds one byte, which does not verify; it loads. *)
Example LoadChunk_does_not_verify :
  VerifyChunk abc_store 0 [x61] = false /\
  LoadChunk abc_store {[ 0 := [x61] ]} (ReadBytes 1) 0 [] = (true, [x61]).
Proof. split; vm_compute; reflexivity. Qed.

Lemma flat_map_seq_S {A} (f : nat -> list A) n :
  flat_map f (seq 1 n) = flat_map (fun k => f (S k)) (seq 0 n).
Proof.
  rewrite <- seq_shift. induction (seq 0 n) as [|k l IH]; [done|].
  simpl. by rewrite IH.
Qed.

Lemma concat_chunks_full st fs read cnt : forall i written,
  (forall j, i <= j < i + N.of_nat cnt -> HasChunk st fs j = true) ->
  (forall j content, fs !! j = Some content ->
     exists k, read j = ReadBytes k /\ (length content <= k)%nat) ->
  concat_chunks st fs read i cnt written =
  (true, written ++ flat_map (fun n : nat => default [] (fs !! (i + N.of_nat n)))
                             (seq 0 cnt)).
Proof.
  induction cnt as [|cnt IH]; intros i written Hall Hread; simpl.
  - by rewrite app_nil_r.
  - destruct (proj1 (HasChunk_spec st fs i) (Hall i ltac:(lia))) as [Hi [content Hc]].
    destruct (Hread i content Hc) as (k & -> & Hk).
    rewrite (LoadChunk_full st fs k i [] content) by done. simpl.
    rewrite IH; [|intros j Hj; apply Hall; lia | done].
    rewrite flat_map_seq_S, N.add_0_r, Hc. simpl. rewrite <- app_assoc.
    f_equal. f_equal. f_equal. apply flat_map_ext. intros n. do 2 f_equal. lia.
Qed.

(** X7: when a chunk of the manifest is missing, or the combined file does
    not open, [ExtractSnapshot] returns failure before anything is written:
    the directory is as it was and tar is not run. As long as tar is not run
    no chunk file changes. Tar is run only after every chunk has loaded, and
    on the part of the loaded bytes that the output stream took.
    [ExtractSnapshot] returns success only if tar was run and exited with
    status 0 and the removal of the combined file did not throw; the
    combined file is then gone. *)
Theorem X7_ExtractSnapshot_failures st dir env :
  let r := ExtractSnapshot st dir env in
  ((exists i, i < GetChunkCount (manifest st) /\ chunk_files dir !! i = None) ->
   r = (false, dir, None)) /\
  (out_opens env = false -> r = (false, dir, None)) /\
  (r.2 = None -> chunk_files r.1.2 = chunk_files dir) /\
  (forall archive, r.2 = Some archive ->
     exists written,
       concat_chunks st (chunk_files dir) (read_of env) 0
         (N.to_nat (GetChunkCount (manifest st))) [] = (true, written) /\
       archive = firstn (out_takes env) written) /\
  (r.1.1 = true ->
   exists archive,
     r.2 = Some archive /\
     (tar_run env (mkSnapshotDir (chunk_files dir) (Some archive))).1 = 0%Z /\
     remove_throws env = false /\
     combined_file r.1.2 = None).
Proof.
  unfold ExtractSnapshot.
  set (cnt := N.to_nat (GetChunkCount (manifest st))).
  destruct (all_chunks_present st (chunk_files dir) 0 cnt) eqn:Hall; simpl.
  2:{ split_and!; done. }
  assert (~ exists i, i < GetChunkCount (manifest st) /\ chunk_files dir !! i = None)
    as Hno.
  { intros (i & Hi & Hnone).
    pose proof (proj1 (all_chunks_present_spec _ _ _ _) Hall i ltac:(lia)) as Hh.
    apply HasChunk_spec in Hh as [_ [? Hs]]. congruence. }
  destruct (out_opens env); simpl.
  2:{ split_and!; done. }
  destruct (concat_chunks st (chunk_files dir) (read_of env) 0 cnt []) as [ok written].
  destruct ok; simpl.
  2:{ split_and!; done. }
  destruct (tar_run env _) as [result dir2] eqn:Htar.
  destruct (Z.eqb_spec result 0) as [->|Hne]; simpl.
  - destruct (remove_throws env) eqn:Hrm; simpl.
    + split_and!; try done. intros a [= <-]. by exists written.
    + split_and!; try done.
      * intros a [= <-]. by exists written.
      * intros _. eexists. split; [done|]. by rewrite Htar.
  - split_and!; try done. intros a [= <-]. by exists written.
Qed.

(** X8: when every chunk of the manifest is on disk, the combined file
    opens and every chunk is read completely, tar is handed the first
    [out_takes] bytes of the chunk files concatenated in chunk order, which is
    the whole concatenation when the output stream took every byte.
    [ExtractSnapshot] then succeeds exactly when tar exits with status 0 and
    the removal of the combined file does not throw; on success the
    directory is the one tar left without the combined file, on failure it is
    the one tar left. *)
Theorem X8_ExtractSnapshot_archive st dir env :
  (forall i, i < GetChunkCount (manifest st) -> is_Some (chunk_files dir !! i)) ->
  out_opens env = true ->
  (forall j content, chunk_files dir !! j = Some content ->
     exists k, read_of env j = ReadBytes k /\ (length content <= k)%nat) ->
  let archive := archive_of (chunk_files dir) (N.to_nat (GetChunkCount (manifest st))) in
  let on_disk := firstn (out_takes env) archive in
  let after_tar := tar_run env (mkSnapshotDir (chunk_files dir) (Some on_disk)) in
  ExtractSnapshot st dir env =
    (if (after_tar.1 =? 0)%Z && negb (remove_throws env)
     then (true, mkSnapshotDir (chunk_files after_tar.2) None, Some on_disk)
     else (false, after_tar.2, Some on_disk)) /\
  ((length archive <= out_takes env)%nat -> on_disk = archive).
Proof.
  intros Hall Hopen Hread archive on_disk after_tar.
  split; [|intros Hlen; by apply firstn_all2].
  unfold ExtractSnapshot.
  set (cnt := N.to_nat (GetChunkCount (manifest st))).
  assert (forall j, 0 <= j < 0 + N.of_nat cnt -> HasChunk st (chunk_files dir) j = true)
    as Hpresent.
  { intros j Hj. apply HasChunk_spec. split; [lia|]. apply Hall. lia. }
  rewrite (proj2 (all_chunks_present_spec st (chunk_files dir) cnt 0)) by done.
  rewrite Hopen. simpl.
  rewrite (concat_chunks_full st (chunk_files dir) (read_of env) cnt 0 [])
    by done.
  assert (flat_map (fun n : nat => default [] (chunk_files dir !! (0 + N.of_nat n)))
                   (seq 0 cnt) = archive) as ->.
  { apply flat_map_ext. intros n. by rewrite N.add_0_l. }
  simpl. fold on_disk. fold after_tar.
  destruct after_tar as [result dir2]. simpl.
  destruct (result =? 0)%Z; simpl; [|done]. by destruct (remove_throws env).
Qed.

Lemma X8_ExtractSnapshot_archive_witness :
  (forall i, i < GetChunkCount (manifest two_chunk_store) ->
     is_Some (({[ 0 := abc; 1 := [] ]} : Files) !! i)) /\
  ExtractSnapshot two_chunk_store
    (mkSnapshotDir {[ 0 := abc; 1 := [] ]} None) plain_env =
  (true, mkSnapshotDir {[ 0 := abc; 1 := [] ]} None, Some abc).
Proof.
  assert (forall i, i < GetChunkCount (manifest two_chunk_store) ->
            is_Some (({[ 0 := abc; 1 := [] ]} : Files) !! i)) as Hall.
  { intros i Hi. change (GetChunkCount (manifest two_chunk_store)) with 2 in Hi.
    destruct (decide (i = 0)) as [->|]; [by eexists|].
    assert (i = 1) as -> by lia. by eexists. }
  split; [exact Hall|].
  refine (proj1 (X8_ExtractSnapshot_archive two_chunk_store
                   (mkSnapshotDir {[ 0 := abc; 1 := [] ]} None) plain_env Hall eq_refl _)).
  intros j content Hj. exists 3%nat. split; [done|].
  simpl in Hj. destruct (decide (j = 0)) as [->|].
  - rewrite lookup_insert_eq in Hj. injection Hj as <-. vm_compute. lia.
  - rewrite lookup_insert_ne in Hj by done.
    apply lookup_singleton_Some in Hj as [_ <-]. simpl. lia.
Defined.

(** What [ExtractSnapshot] does not check, on the store of two chunks: a
    stream that fails after two bytes still leads to success, with tar run
    on the two bytes; tar can unpack over a chunk file; and a removal that
    throws turns a successful extraction into failure. *)
Example ExtractSnapshot_unchecked :
  ExtractSnapshot two_chunk_store (mkSnapshotDir {[ 0 := abc; 1 := [] ]} None)
    short_write_env
  = (true, mkSnapshotDir {[ 0 := abc; 1 := [] ]} None, Some [x61; x62]) /\
  chunk_files
    (ExtractSnapshot two_chunk_store (mkSnapshotDir {[ 0 := abc; 1 := [] ]} None)
       overwriting_env).1.2 !! 0 = Some [x00] /\
  ExtractSnapshot two_chunk_store (mkSnapshotDir {[ 0 := abc; 1 := [] ]} None)
    remove_fails_env
  = (false, mkSnapshotDir {[ 0 := abc; 1 := [] ]} (Some abc), Some abc).
Proof. vm_compute. split_and!; reflexivity. Qed.

(** X9: [Initialize] fails only when the snapshot directory cannot be
    created. Otherwise the store ends with a manifest that passes [IsValid]:
    the one read from [manifest.dat] when that file deserialises to a valid
    manifest (it is not compared with the compiled-in one), and the
    compiled-in manifest in every other case: when the file is absent, when
    it holds an invalid manifest, and when reading it throws after part of
    it has been stored in the member; whether or not the compiled-in
    manifest could be written back. *)
Theorem X9_Initialize_manifest dir_ok disk written st :
  let r := Initialize dir_ok disk written st in
  r.1 = dir_ok /\
  (dir_ok = false -> r.2 = st) /\
  (dir_ok = true ->
   IsValid (manifest r.2) = true /\
   manifest r.2 =
     match disk with
     | ManifestRead m => if IsValid m then m else GetHardcodedManifest
     | ManifestAbsent | ManifestThrows _ => GetHardcodedManifest
     end).
Proof.
  assert (IsValid GetHardcodedManifest = true) as Hhard by (vm_compute; reflexivity).
  unfold Initialize, LoadManifest, SaveManifest.
  destruct dir_ok; cbn [negb fst snd]; [|done].
  destruct disk as [|m|partly]; [|destruct (IsValid m) eqn:Hm|];
    cbn [negb fst snd manifest]; rewrite ?Hhard; cbn [negb fst snd manifest];
    try done; destruct written; done.
Qed.

(** [LoadManifest] on its own leaves the member changed when it fails on a
    file that stops deserialising. *)
Example LoadManifest_failure_changes_member :
  LoadManifest (ManifestThrows manifest_wrong_total) abc_store
  = (false, {| manifest := manifest_wrong_total |}) /\
  manifest abc_store <> manifest_wrong_total.
Proof. split; [reflexivity|]. vm_compute. discriminate. Qed.

Lemma SaveChunk_keeps_files st fs io nChunk vData k :
  is_Some (fs !! k) -> is_Some ((SaveChunk st fs io nChunk vData).2 !! k).
Proof.
  unfold SaveChunk.
  destruct (GetChunkCount (manifest st) <=? nChunk); [done|].
  destruct (VerifyChunk st nChunk vData); [|done]. simpl.
  destruct io as [|j ex]; [done|]. simpl. intros Hk.
  rewrite lookup_insert. by case_decide.
Qed.

(** X10: [CanServeSnapshots] holds exactly when the store exists, every
    chunk of its manifest has a file in the directory, and the node listens;
    files are only tested for existence. *)
Theorem X10_CanServeSnapshots_iff (psnapshotstore : option (CSnapshotStore * Files))
    (listen : bool) :
  CanServeSnapshots psnapshotstore listen = true <->
  exists st fs, psnapshotstore = Some (st, fs) /\
    (forall i, i < GetChunkCount (manifest st) -> is_Some (fs !! i)) /\
    listen = true.
Proof.
  unfold CanServeSnapshots. destruct psnapshotstore as [[st fs]|].
  2:{ split; [done | by intros (? & ? & ? & _)]. }
  destruct (all_chunks_present st fs 0 _) eqn:Hall; simpl.
  - pose proof (proj1 (all_chunks_present_spec _ _ _ _) Hall) as Hp.
    destruct listen; simpl.
    + split; [|done]. intros _. exists st, fs. split_and!; try done.
      intros i Hi. apply (HasChunk_spec st fs i), Hp. lia.
    + split; [done | by intros (? & ? & _ & _ & ?)].
  - split; [done|]. intros (st' & fs' & [= <- <-] & Hfiles & _).
    rewrite (proj2 (all_chunks_present_spec st fs _ 0)) in Hall; [done|].
    intros j Hj. apply HasChunk_spec. split; [lia|]. apply Hfiles. lia.
Qed.

(** X11: [SaveChunk] only adds to what [HasChunk] reports: a chunk present
    before is present after any [SaveChunk] call, a successful call makes its
    own chunk present, and so a store that can serve snapshots can still
    serve them after further chunks are saved. *)
Theorem X11_SaveChunk_keeps_chunks st fs io nChunk vData listen :
  let fs' := (SaveChunk st fs io nChunk vData).2 in
  (forall m, HasChunk st fs m = true -> HasChunk st fs' m = true) /\
  ((SaveChunk st fs io nChunk vData).1 = true -> HasChunk st fs' nChunk = true) /\
  (CanServeSnapshots (Some (st, fs)) listen = true ->
   CanServeSnapshots (Some (st, fs')) listen = true).
Proof.
  intros fs'.
  assert (forall m, HasChunk st fs m = true -> HasChunk st fs' m = true) as Hmono.
  { intros m. rewrite !HasChunk_spec. intros [Hm Hs]. split; [done|].
    by apply SaveChunk_keeps_files. }
  split_and!; [done | |].
  - intros Hok. apply HasChunk_spec. unfold fs', SaveChunk in *.
    destruct (N.leb_spec (GetChunkCount (manifest st)) nChunk); [done|].
    destruct (VerifyChunk st nChunk vData); [|done]. simpl in *.
    destruct io as [|k ex]; [done|]. simpl. split; [done|].
    rewrite lookup_insert_eq. by eexists.
  - unfold CanServeSnapshots.
    destruct (all_chunks_present st fs 0 _) eqn:Hall; [|done].
    rewrite (proj2 (all_chunks_present_spec st fs' _ 0)); [done|].
    intros j Hj. apply Hmono.
    by apply (proj1 (all_chunks_present_spec st fs _ 0) Hall).
Qed.

(** ** Rate limiter: duplicates, bans, pacing *)

Section limiter_more.
Import RateLimiter.
Implicit Types (rl : CSnapshotRateLimiter) (info : PeerRequestInfo).



(** X13: [IsBanned] and [AllowRequest] agree: at any clock value, a peer is
    reported banned exactly when its request would be answered "banned";
    a peer without an entry is not banned, and [AllowRequest] leaves an entry
    for the requester whatever the verdict while other peers' entries are
    untouched. *)
Theorem X13_IsBanned_agrees nNow rl addr nChunk :
  (IsBanned nNow rl addr = true <->
   exists until, (AllowRequest nNow rl addr nChunk).1 = Rejected (Banned until)) /\
  (mapPeerRequests rl !! addr = None -> IsBanned nNow rl addr = false) /\
  is_Some (mapPeerRequests (AllowRequest nNow rl addr nChunk).2 !! addr) /\
  (forall a, a <> addr ->
     mapPeerRequests (AllowRequest nNow rl addr nChunk).2 !! a = mapPeerRequests rl !! a).
Proof.
  assert (IsBanned nNow rl addr =
          bIsBanned (peer_info rl addr) && (nNow <? nBanUntil (peer_info rl addr))%Z)
    as Hb.
  { unfold IsBanned, peer_info. by destruct (mapPeerRequests rl !! addr). }
  pose proof (AllowRequest_cases nNow rl addr nChunk) as Hc.
  split_and!.
  - rewrite Hb.
    destruct Hc as [(u & Hr & Hban & Hlt)|[(e & Hr & [He _] & Hexp)|
                    [(b & bu & Hr & Hexp & _)|(Hr & Hexp & _)]]]; rewrite Hr; simpl.
    + rewrite Hban, (proj2 (Z.ltb_lt _ _) Hlt). split; [by exists u | done].
    + split; [|intros (u & [= ->]); by destruct (He u)].
      intros [Hban Hlt%Z.ltb_lt]%andb_true_iff. specialize (Hexp Hban). lia.
    + split; [|by intros (u & ?)].
      intros [Hban Hlt%Z.ltb_lt]%andb_true_iff. specialize (Hexp Hban). lia.
    + split; [|by intros (u & ?)].
      intros [Hban Hlt%Z.ltb_lt]%andb_true_iff. specialize (Hexp Hban). lia.
  - intros Hnone. unfold IsBanned. by rewrite Hnone.
  - destruct Hc as [(u & Hr & _)|[(e & Hr & _)|[(b & bu & Hr & _)|(Hr & _)]]];
      rewrite Hr; simpl; rewrite lookup_insert_eq; by eexists.
  - intros a Ha.
    destruct Hc as [(u & Hr & _)|[(e & Hr & _)|[(b & bu & Hr & _)|(Hr & _)]]];
      rewrite Hr; simpl; by rewrite lookup_insert_ne.
Qed.

Lemma Cleanup_IsBanned t nNow rl addr :
  IsBanned t (Cleanup nNow rl) addr = IsBanned t rl addr.
Proof.
  unfold IsBanned.
  assert (mapPeerRequests (Cleanup nNow rl) =
          filter (fun e : N * PeerRequestInfo => stale nNow e.2 = false)
                 (mapPeerRequests rl)) as ->.
  { unfold Cleanup. by destruct (3600 <? nNow - nLastResetTime rl)%Z. }
  rewrite map_lookup_filter.
  destruct (mapPeerRequests rl !! addr) as [i|]; simpl; [|done].
  destruct (stale nNow i) eqn:Hs.
  - rewrite option_guard_False by (simpl; congruence). simpl.
    unfold stale in Hs. apply andb_true_iff in Hs as [_ Hb].
    apply negb_true_iff in Hb. by rewrite Hb.
  - by rewrite option_guard_True.
Qed.

(** X14: the sweep never lifts or sets a ban: [Cleanup], [RecordServed] and
    [CompleteTransfer] leave [IsBanned] as it was for every peer and clock
    value; a banned entry survives [Cleanup] however old it is. *)
Theorem X14_ban_untouched_by_sweep t nNow rl addr :
  IsBanned t (Cleanup nNow rl) addr = IsBanned t rl addr /\
  (forall a c b, IsBanned t (RecordServed nNow rl a c b) addr = IsBanned t rl addr) /\
  IsBanned t (CompleteTransfer rl) addr = IsBanned t rl addr /\
  (forall info, mapPeerRequests rl !! addr = Some info -> bIsBanned info = true ->
     mapPeerRequests (Cleanup nNow rl) !! addr = Some info).
Proof.
  split_and!.
  - apply Cleanup_IsBanned.
  - intros a c b. unfold IsBanned, RecordServed. simpl.
    rewrite lookup_insert. case_decide as Ha; [subst a|done]. simpl.
    unfold peer_info. by destruct (mapPeerRequests rl !! addr).
  - unfold CompleteTransfer. by destruct (0 <? nActiveTransfers rl).
  - intros info Hi Hb.
    assert (mapPeerRequests (Cleanup nNow rl) =
            filter (fun e : N * PeerRequestInfo => stale nNow e.2 = false)
                   (mapPeerRequests rl)) as ->.
    { unfold Cleanup. by destruct (3600 <? nNow - nLastResetTime rl)%Z. }
    apply map_lookup_filter_Some. split; [done|]. simpl.
    unfold stale. rewrite Hb. apply andb_false_r.
Qed.
End limiter_more.

Section limiter_histories.
Import RateLimiter.
Implicit Types (rl : CSnapshotRateLimiter) (info : PeerRequestInfo).

Lemma peer_info_AllowRequest_other nNow rl a c addr :
  a <> addr -> peer_info (AllowRequest nNow rl a c).2 addr = peer_info rl addr.
Proof.
  intros Ha.
  destruct (AllowRequest_cases nNow rl a c)
    as [(u & Hr & _)|[(e & Hr & _)|[(b & bu & Hr & _)|(Hr & _)]]];
    rewrite Hr; simpl; rewrite peer_info_store; by case_decide.
Qed.

Lemma peer_info_Cleanup_banned nNow rl addr :
  bIsBanned (peer_info rl addr) = true ->
  peer_info (Cleanup nNow rl) addr = peer_info rl addr.
Proof.
  intros Hb. unfold peer_info in *.
  assert (mapPeerRequests (Cleanup nNow rl) =
          filter (fun e : N * PeerRequestInfo => stale nNow e.2 = false)
                 (mapPeerRequests rl)) as ->.
  { unfold Cleanup. by destruct (3600 <? nNow - nLastResetTime rl)%Z. }
  rewrite map_lookup_filter.
  destruct (mapPeerRequests rl !! addr) as [i|]; simpl in *; [|done].
  rewrite option_guard_True; [done|]. simpl.
  unfold stale. rewrite Hb. apply andb_false_r.
Qed.

Lemma ban_holds_step U addr times st ev :
  (ev.1 < U)%Z ->
  (bIsBanned (peer_info st.1 addr) = true /\ nBanUntil (peer_info st.1 addr) = U /\
   requestTimes (peer_info st.1 addr) = times /\
   forall a, a ∈ st.2 -> a_addr a = addr -> a_verdict a = Rejected (Banned U)) ->
  bIsBanned (peer_info (step st ev).1 addr) = true /\
  nBanUntil (peer_info (step st ev).1 addr) = U /\
  requestTimes (peer_info (step st ev).1 addr) = times /\
  forall a, a ∈ (step st ev).2 -> a_addr a = addr -> a_verdict a = Rejected (Banned U).
Proof.
  destruct st as [rl log], ev as [nNow [a c|a c b| |]]; simpl;
    intros Hlt (Hb & Hu & Ht & Hlog).
  - destruct (decide (a = addr)) as [->|Ha].
    + rewrite AllowRequest_banned by (done || lia). simpl.
      rewrite peer_info_store. case_decide; [|done]. split_and!; try done.
      intros x [Hx|Hx%list_elem_of_singleton]%elem_of_app; [by apply Hlog|].
      subst x. simpl. by rewrite Hu.
    + pose proof (peer_info_AllowRequest_other nNow rl a c addr Ha) as Hp.
      destruct (AllowRequest nNow rl a c) as [v rl']. simpl in *. rewrite Hp.
      split_and!; try done.
      intros x [Hx|Hx%list_elem_of_singleton]%elem_of_app; [by apply Hlog|].
      subst x. simpl. done.
  - rewrite peer_info_RecordServed. by case_decide; [subst a|].
  - unfold CompleteTransfer. by destruct (0 <? nActiveTransfers rl).
  - by rewrite peer_info_Cleanup_banned.
Qed.

End limiter_histories.

(** X15: a ban holds until it expires. If a peer is banned until [U], then
    along any history of calls made before [U] every request of that peer is
    answered "banned until [U]", and afterwards the peer is still banned
    until [U] with its window unchanged: requests during the ban neither lift
    nor extend it, and neither do requests of other peers, [RecordServed],
    [CompleteTransfer] or [Cleanup]. *)
Theorem X15_ban_holds_until_expiry
    (rl : RateLimiter.CSnapshotRateLimiter) (addr : N) (U : Z)
    (evs : list (Z * RateLimiter.Call)) :
  RateLimiter.bIsBanned (RateLimiter.peer_info rl addr) = true ->
  RateLimiter.nBanUntil (RateLimiter.peer_info rl addr) = U ->
  all_before U evs = true ->
  let r := RateLimiter.run evs rl in
  RateLimiter.bIsBanned (RateLimiter.peer_info r.1 addr) = true /\
  RateLimiter.nBanUntil (RateLimiter.peer_info r.1 addr) = U /\
  RateLimiter.requestTimes (RateLimiter.peer_info r.1 addr) =
    RateLimiter.requestTimes (RateLimiter.peer_info rl addr) /\
  forall a, a ∈ r.2 -> RateLimiter.a_addr a = addr ->
            RateLimiter.a_verdict a = RateLimiter.Rejected (RateLimiter.Banned U).
Proof.
  intros Hb Hu Hbefore r. unfold r, RateLimiter.run.
  assert (forall st : RateLimiter.CSnapshotRateLimiter * list RateLimiter.Answer,
    (RateLimiter.bIsBanned (RateLimiter.peer_info st.1 addr) = true /\
     RateLimiter.nBanUntil (RateLimiter.peer_info st.1 addr) = U /\
     RateLimiter.requestTimes (RateLimiter.peer_info st.1 addr) =
       RateLimiter.requestTimes (RateLimiter.peer_info rl addr) /\
     forall a, a ∈ st.2 -> RateLimiter.a_addr a = addr ->
               RateLimiter.a_verdict a = RateLimiter.Rejected (RateLimiter.Banned U)) ->
    let r := fold_left RateLimiter.step evs st in
    RateLimiter.bIsBanned (RateLimiter.peer_info r.1 addr) = true /\
    RateLimiter.nBanUntil (RateLimiter.peer_info r.1 addr) = U /\
    RateLimiter.requestTimes (RateLimiter.peer_info r.1 addr) =
      RateLimiter.requestTimes (RateLimiter.peer_info rl addr) /\
    forall a, a ∈ r.2 -> RateLimiter.a_addr a = addr ->
              RateLimiter.a_verdict a = RateLimiter.Rejected (RateLimiter.Banned U))
    as Hrun.
  { clear r. induction evs as [|ev evs IH]; intros st Hst; [done|].
    simpl in Hbefore. apply andb_true_iff in Hbefore as [Hev Hrest].
    apply Z.ltb_lt in Hev. simpl. apply (IH Hrest).
    by apply ban_holds_step. }
  apply Hrun. simpl. split_and!; try done. intros a Ha. by apply elem_of_nil in Ha.
Qed.

Lemma X15_ban_holds_until_expiry_witness :
  RateLimiter.bIsBanned (RateLimiter.peer_info banned_state.1 1) = true /\
  RateLimiter.nBanUntil (RateLimiter.peer_info banned_state.1 1) = 1300%Z /\
  all_before 1300 during_ban = true /\
  let r := RateLimiter.run during_ban banned_state.1 in
  RateLimiter.bIsBanned (RateLimiter.peer_info r.1 1) = true /\
  RateLimiter.nBanUntil (RateLimiter.peer_info r.1 1) = 1300%Z /\
  RateLimiter.requestTimes (RateLimiter.peer_info r.1 1) =
    RateLimiter.requestTimes (RateLimiter.peer_info banned_state.1 1) /\
  forall a, a ∈ r.2 -> RateLimiter.a_addr a = 1 ->
            RateLimiter.a_verdict a = RateLimiter.Rejected (RateLimiter.Banned 1300).
Proof.
  split; [vm_compute; reflexivity|]. split; [vm_compute; reflexivity|].
  split; [vm_compute; reflexivity|].
  apply (X15_ban_holds_until_expiry banned_state.1 1 1300 during_ban);
    vm_compute; reflexivity.
Defined.

Section pacing.
Import RateLimiter.
Implicit Types (rl : CSnapshotRateLimiter) (info : PeerRequestInfo) (g : list Z).

Lemma spaced_snoc gap g y :
  spaced gap g -> (forall x, last g = Some x -> (x + gap <= y)%Z) ->
  spaced gap (g ++ [y]).
Proof.
  induction g as [|x g IH]; [done|]. destruct g as [|x' g]; simpl.
  - intros _ H. split; [|done]. by apply H.
  - intros [Hx Hs] H. split; [done|]. apply IH; [done|].
    intros z Hz. by apply H.
Qed.

(** What an allowed request had to pass at the pacing test. *)
Lemma AllowRequest_allowed_pace nNow rl addr nChunk :
  (AllowRequest nNow rl addr nChunk).1 = Allowed ->
  (nLastRequestTime (peer_info rl addr) <= 0 \/
   Z.of_N (nMinSecondsBetweenRequests rl) <= nNow - nLastRequestTime (peer_info rl addr))%Z.
Proof.
  unfold AllowRequest.
  destruct (bIsBanned (peer_info rl addr) && _); [done|].
  assert (nLastRequestTime (unban (peer_info rl addr)) =
          nLastRequestTime (peer_info rl addr)) as ->
    by (unfold unban; by destruct (bIsBanned _)).
  destruct (_ <=? _); [done|].
  destruct (Z.ltb_spec 0 (nLastRequestTime (peer_info rl addr))); [|intros _; lia].
  destruct (Z.ltb_spec (nNow - nLastRequestTime (peer_info rl addr))
              (Z.of_N (nMinSecondsBetweenRequests rl))); simpl; [done|].
  intros _. lia.
Qed.

Lemma pace_inv_mono gap T T' g info :
  (T <= T')%Z -> pace_inv gap T g info -> pace_inv gap T' g info.
Proof.
  intros HT [Hs Hl]. split; [done|]. intros x Hx.
  destruct (Hl x Hx) as (? & ? & [?|[? ?]]); split_and!; try lia.
Qed.

Lemma pace_inv_step minSec T now call st :
  minSec <= 600 -> (T <= now)%Z -> (0 < now)%Z ->
  nMinSecondsBetweenRequests st.1 = minSec /\
  (forall addr, pace_inv (Z.of_N minSec) T (granted addr st.2) (peer_info st.1 addr)) ->
  nMinSecondsBetweenRequests (step st (now, call)).1 = minSec /\
  (forall addr, pace_inv (Z.of_N minSec) now (granted addr (step st (now, call)).2)
                         (peer_info (step st (now, call)).1 addr)).
Proof.
  destruct st as [rl log]. intros Hmin HT Hpos [Hcfg Hpeers]. simpl in *.
  assert (forall addr, pace_inv (Z.of_N minSec) now (granted addr log) (peer_info rl addr))
    as Hnow by (intros addr; by apply (pace_inv_mono _ T)).
  clear Hpeers. destruct call as [a c|a c b| |]; simpl.
  - pose proof (AllowRequest_allowed_pace now rl a c) as Hpace.
    pose proof (Hnow a) as [Hsa Hla].
    destruct (AllowRequest_cases now rl a c)
      as [(u & Hr & _)|[(e & Hr & _)|[(bn & bu & Hr & _)|(Hr & _)]]];
      rewrite Hr in Hpace |- *; (split; [done|]); intros addr; simpl;
      rewrite granted_snoc, peer_info_store; simpl;
      (case_decide as Haddr;
        [subst addr; rewrite bool_decide_eq_true_2 by done
        |rewrite bool_decide_eq_false_2 by done; simpl; rewrite app_nil_r;
         by apply Hnow]); simpl; rewrite ?app_nil_r.
    + done.
    + split; [done|]. intros x Hx. destruct (Hla x Hx) as (? & ? & Hlast).
      split_and!; try done.
      destruct (unban_fields (peer_info rl a)) as (_ & -> & _). done.
    + split; [done|]. intros x Hx. destruct (Hla x Hx) as (? & ? & Hlast).
      split_and!; try done. simpl.
      destruct (unban_fields (peer_info rl a)) as (_ & -> & _). done.
    + split.
      * apply spaced_snoc; [done|]. intros x Hx.
        destruct (Hla x Hx) as (? & ? & [Hl|[Hl ?]]); [|lia].
        destruct (Hpace eq_refl); lia.
      * intros x. rewrite last_snoc. intros [= <-]. simpl. split_and!; try lia.
  - split; [done|]. intros addr. simpl. rewrite peer_info_RecordServed.
    case_decide as Haddr; [subst addr|by apply Hnow]. apply (Hnow a).
  - unfold CompleteTransfer.
    destruct (0 <? nActiveTransfers rl); simpl; done.
  - assert (forall addr,
              pace_inv (Z.of_N minSec) now (granted addr log)
                (default NewPeerRequestInfo
                   (filter (fun e : N * PeerRequestInfo => stale now e.2 = false)
                           (mapPeerRequests rl) !! addr))) as Hclean.
    { intros addr. specialize (Hnow addr). unfold peer_info in Hnow.
      rewrite map_lookup_filter.
      destruct (mapPeerRequests rl !! addr) as [i|] eqn:Hi; simpl; [|done].
      simpl in Hnow. destruct (stale now i) eqn:Hs.
      - rewrite option_guard_False by (simpl; congruence). simpl.
        destruct Hnow as [Hsp Hl]. split; [done|]. intros x Hx.
        destruct (Hl x Hx) as (? & ? & [Hlast|[? ?]]); split_and!; try done; right;
          (split; [done|]); [|done].
        unfold stale in Hs. apply andb_true_iff in Hs as [Hs _].
        apply Z.ltb_lt in Hs. lia.
      - by rewrite option_guard_True. }
    unfold Cleanup. destruct (3600 <? now - nLastResetTime rl)%Z; simpl; done.
Qed.

Lemma pace_inv_run minSec evs : forall T st,
  minSec <= 600 ->
  nMinSecondsBetweenRequests st.1 = minSec /\
  (forall addr, pace_inv (Z.of_N minSec) T (granted addr st.2) (peer_info st.1 addr)) ->
  nondecreasing (T :: evs.*1) = true -> all_positive evs = true ->
  forall addr, spaced (Z.of_N minSec) (granted addr (fold_left step evs st).2).
Proof.
  induction evs as [|[t call] evs IH]; intros T st Hmin Hinv Hmono Hpos addr.
  - simpl. by destruct (proj2 Hinv addr).
  - simpl in Hmono. apply andb_true_iff in Hmono as [HT Hmono].
    apply Z.leb_le in HT. simpl in Hpos. apply andb_true_iff in Hpos as [Ht Hpos].
    apply Z.ltb_lt in Ht. simpl.
    apply (IH t); [done | | done | done].
    by apply (pace_inv_step minSec T).
Qed.
End pacing.

(** X16: along any history with a positive clock that does not run
    backwards, on a limiter created with a minimum spacing of at most 600 s
    (2 s by default), two requests of one peer that are both allowed are at
    least that spacing apart. *)
Theorem X16_allowed_requests_are_paced (tNow : Z) (maxChunks maxConc minSec : N)
    (evs : list (Z * RateLimiter.Call)) (addr : N) :
  minSec <= 600 ->
  RateLimiter.nondecreasing (evs.*1) = true -> all_positive evs = true ->
  spaced (Z.of_N minSec)
    (RateLimiter.granted addr
       (RateLimiter.run evs
          (RateLimiter.SetLimits maxChunks maxConc minSec
             (RateLimiter.NewRateLimiter tNow))).2).
Proof.
  intros Hmin Hmono Hpos. unfold RateLimiter.run.
  destruct evs as [|[t0 call] evs]; [done|].
  apply (pace_inv_run minSec _ t0 _ Hmin); [| |exact Hpos].
  - split; [done|]. intros a. split; [done|]. intros x Hx. done.
  - change (((t0, call) :: evs).*1) with (t0 :: evs.*1) in *.
    change (RateLimiter.nondecreasing (t0 :: t0 :: evs.*1))
      with ((t0 <=? t0)%Z && RateLimiter.nondecreasing (t0 :: evs.*1)).
    rewrite Hmono, andb_true_r. apply Z.leb_refl.
Qed.

Lemma X16_allowed_requests_are_paced_witness :
  2 <= 600 /\ RateLimiter.nondecreasing (flood_150.*1) = true /\
  all_positive flood_150 = true /\
  spaced (Z.of_N 2)
    (RateLimiter.granted 1
       (RateLimiter.run flood_150
          (RateLimiter.SetLimits 30 25 2 (RateLimiter.NewRateLimiter 0))).2).
Proof.
  split; [lia|]. split; [vm_compute; reflexivity|]. split; [vm_compute; reflexivity|].
  apply (X16_allowed_requests_are_paced 0 30 25 2 flood_150 1);
    [lia | vm_compute; reflexivity | vm_compute; reflexivity].
Defined.

(** ** Download coordinator: peer selection *)

Section selection.
Import Coordinator.

Lemma next_chunk_missing ds :
  IsComplete ds = false ->
  GetNextChunkToRequest ds < nTotalChunks ds /\
  IsChunkReceived ds (GetNextChunkToRequest ds) = false.
Proof.
  unfold IsComplete, GetNextChunkToRequest.
  destruct (first_missing ds 0 (N.to_nat (nTotalChunks ds))) as [j|] eqn:Hf; [|done].
  intros _. apply first_missing_Some in Hf as (Hr & Hj & _). split; [lia | done].
Qed.

(** The loop of [SelectPeerForNextChunk] over a list of peers, started with
    no best peer. [view] reads a peer's state as [mapPeerStates[node]]
    would. *)
Lemma select_fold nNow peers0 (l : list Z) :
  let view (m : gmap Z PeerDownloadState) node := default NewPeerDownloadState (m !! node) in
  let ok node := (nBackoffUntil (view peers0 node) <= nNow /\
                  Z.of_N MIN_SECONDS_BETWEEN_REQUESTS
                    <= nNow - nLastRequestTime (view peers0 node))%Z in
  let r := fold_left (select_step nNow) l (peers0, (-1)%Z, nNow) in
  (forall node, view r.1.1 node = view peers0 node) /\
  (r.1.2 <> (-1)%Z -> r.1.2 ∈ l /\ ok r.1.2) /\
  ((-1)%Z ∉ l ->
   (r.1.2 = (-1)%Z -> forall q, q ∈ l -> ~ ok q) /\
   (r.1.2 <> (-1)%Z ->
    r.2 = nLastRequestTime (view peers0 r.1.2) /\
    forall q, q ∈ l -> ok q ->
      (nLastRequestTime (view peers0 r.1.2) <= nLastRequestTime (view peers0 q))%Z)).
Proof.
  intros view ok. induction l as [|node l IH] using rev_ind.
  - simpl. split_and!; try done. intros _. split; [|done].
    intros _ q Hq. by apply elem_of_nil in Hq.
  - intros r. unfold r. rewrite fold_left_app. simpl.
    destruct (fold_left (select_step nNow) l (peers0, (-1)%Z, nNow))
      as [[peers best] old] eqn:Hfold.
    simpl in IH. destruct IH as (Hview & Hsound & Hopt).
    assert (view peers node = view peers0 node) as Hnode by apply Hview.
    assert (forall n, view (<[node := view peers node]> peers) n = view peers0 n)
      as Hview'.
    { intros n. unfold view at 1. rewrite lookup_insert. case_decide as Hn.
      - subst n. simpl. done.
      - apply Hview. }
    unfold select_step. fold (view peers node). rewrite Hnode. rewrite Hnode in Hview'.
    assert (forall q, q ∈ l ++ [node] <-> q ∈ l \/ q = node) as Hin.
    { intros q. by rewrite elem_of_app, list_elem_of_singleton. }
    assert ((-1)%Z ∉ (l ++ [node]) -> ((-1)%Z ∉ l) /\ node <> (-1)%Z) as Hnot.
    { intros H. split; [intros ?|intros ?]; apply H, Hin; auto. }
    change (Z.of_N MIN_SECONDS_BETWEEN_REQUESTS) with 3%Z in *.
    destruct (Z.ltb_spec nNow (nBackoffUntil (view peers0 node))) as [Hb|Hb]; simpl.
    { split_and!; [exact Hview' | | ].
      - intros Hne. destruct (Hsound Hne). split; [apply Hin; auto | done].
      - intros [Hl Hn]%Hnot. destruct (Hopt Hl) as [Hnone Hsome]. split.
        + intros Hb1 q [Hq| ->]%Hin; [by apply Hnone|]. unfold ok. lia.
        + intros Hne. destruct (Hsome Hne) as [Hold Hmin]. split; [done|].
          intros q [Hq| ->]%Hin Hok; [by apply Hmin|]. unfold ok in Hok. lia. }
    destruct (Z.ltb_spec (nNow - nLastRequestTime (view peers0 node)) 3) as [Hs|Hs]; simpl.
    { split_and!; [exact Hview' | | ].
      - intros Hne. destruct (Hsound Hne). split; [apply Hin; auto | done].
      - intros [Hl Hn]%Hnot. destruct (Hopt Hl) as [Hnone Hsome]. split.
        + intros Hb1 q [Hq| ->]%Hin; [by apply Hnone|]. unfold ok. lia.
        + intros Hne. destruct (Hsome Hne) as [Hold Hmin]. split; [done|].
          intros q [Hq| ->]%Hin Hok; [by apply Hmin|]. unfold ok in Hok. lia. }
    assert (ok node) as Hok_node by (unfold ok; lia).
    destruct (Z.eqb_spec best (-1)) as [Hbest|Hbest]; simpl.
    { split_and!; [exact Hview' | | ].
      - intros _. split; [apply Hin; auto | done].
      - intros [Hl Hn]%Hnot. destruct (Hopt Hl) as [Hnone _]. split; [done|].
        intros _. split; [done|]. intros q [Hq| ->]%Hin Hok; [|lia].
        by destruct (Hnone Hbest q Hq). }
    destruct (Z.ltb_spec (nLastRequestTime (view peers0 node)) old) as [Hlt|Hge]; simpl.
    { split_and!; [exact Hview' | | ].
      - intros _. split; [apply Hin; auto | done].
      - intros [Hl Hn]%Hnot. destruct (Hopt Hl) as [_ Hsome]. split; [done|].
        intros _. split; [done|]. destruct (Hsome Hbest) as [Hold Hmin].
        intros q [Hq| ->]%Hin Hok; [|lia]. specialize (Hmin q Hq Hok). lia. }
    split_and!; [exact Hview' | | ].
    + intros Hne. destruct (Hsound Hne). split; [apply Hin; auto | done].
    + intros [Hl Hn]%Hnot. destruct (Hopt Hl) as [_ Hsome]. split; [done|].
      intros Hne. destruct (Hsome Hne) as [Hold Hmin]. split; [done|].
      intros q [Hq| ->]%Hin Hok; [by apply Hmin|]. lia.
Qed.
End selection.

(** X17: [SelectPeerForNextChunk] changes nothing but default entries for
    peers it had no state for: the in-flight map and every peer's state read
    as [mapPeerStates[node]] are as before. When it returns a peer, the
    download is incomplete, the chunk put in [nChunkOut] is the smallest one
    not received, that chunk is not in flight, fewer than 12 requests are in
    flight, and the peer is one of the available peers, out of backoff and
    not asked within the last 3 seconds. *)
Theorem X17_SelectPeer_sound nNow c pDownloadState vAvailablePeers nChunkOut :
  let r := SelectPeerForNextChunk nNow c pDownloadState vAvailablePeers nChunkOut in
  Coordinator.mapChunkToNode r.2 = Coordinator.mapChunkToNode c /\
  (forall node, Coordinator.peer_state r.2 node = Coordinator.peer_state c node) /\
  (r.1.1 <> (-1)%Z ->
   exists ds, pDownloadState = Some ds /\ IsComplete ds = false /\
     r.1.2 = GetNextChunkToRequest ds /\ r.1.2 < nTotalChunks ds /\
     IsChunkReceived ds r.1.2 = false /\
     Coordinator.mapChunkToNode c !! r.1.2 = None /\
     N.of_nat (size (Coordinator.mapChunkToNode c)) < 12 /\
     r.1.1 ∈ vAvailablePeers /\ eligible nNow c r.1.1).
Proof.
  unfold SelectPeerForNextChunk.
  case_bool_decide as Hnil; [done|].
  destruct pDownloadState as [ds|]; [|done].
  destruct (IsComplete ds) eqn:Hc; [done|].
  case_bool_decide as Hfl; [done|].
  destruct (N.leb_spec Coordinator.MAX_CONCURRENT_PEER_REQUESTS
              (N.of_nat (size (Coordinator.mapChunkToNode c)))) as [Hsz|Hsz]; [done|].
  pose proof (select_fold nNow (Coordinator.mapPeerStates c) vAvailablePeers)
    as (Hview & Hsound & _).
  destruct (fold_left (select_step nNow) vAvailablePeers _) as [[peers best] old].
  simpl in *. split_and!; [done | apply Hview |].
  intros Hne. exists ds. destruct (next_chunk_missing ds Hc) as [Hlt Hrecv].
  destruct (Hsound Hne) as [Hin Hok]. split_and!; try done.
  - destruct (Coordinator.mapChunkToNode c !! GetNextChunkToRequest ds) eqn:E; [|done].
    destruct Hfl. by eexists.
Qed.

(** X18: when the download is incomplete, its next chunk is not in flight,
    fewer than 12 requests are in flight and no available peer has the id -1,
    [SelectPeerForNextChunk] returns -1 exactly when no available peer is
    eligible, and otherwise returns an eligible peer whose last request is
    the oldest among the eligible ones. *)
Theorem X18_SelectPeer_least_recent nNow c ds vAvailablePeers nChunkOut :
  (-1)%Z ∉ vAvailablePeers ->
  IsComplete ds = false ->
  Coordinator.mapChunkToNode c !! GetNextChunkToRequest ds = None ->
  N.of_nat (size (Coordinator.mapChunkToNode c)) < 12 ->
  let p := (SelectPeerForNextChunk nNow c (Some ds) vAvailablePeers nChunkOut).1.1 in
  (p = (-1)%Z <-> forall q, q ∈ vAvailablePeers -> ~ eligible nNow c q) /\
  (p <> (-1)%Z ->
   eligible nNow c p /\
   forall q, q ∈ vAvailablePeers -> eligible nNow c q ->
     (Coordinator.nLastRequestTime (Coordinator.peer_state c p)
      <= Coordinator.nLastRequestTime (Coordinator.peer_state c q))%Z).
Proof.
  intros Hneg Hc Hfl Hsz p. unfold p, SelectPeerForNextChunk.
  rewrite Hc, Hfl.
  rewrite (bool_decide_eq_false_2 (is_Some None)) by (by intros [? ?]).
  destruct (N.leb_spec Coordinator.MAX_CONCURRENT_PEER_REQUESTS
              (N.of_nat (size (Coordinator.mapChunkToNode c)))) as [Hsz'|_].
  { change Coordinator.MAX_CONCURRENT_PEER_REQUESTS with 12 in Hsz'. lia. }
  case_bool_decide as Hnil.
  { subst. simpl. split; [|done]. split; [|done].
    intros _ q Hq. by apply elem_of_nil in Hq. }
  pose proof (select_fold nNow (Coordinator.mapPeerStates c) vAvailablePeers)
    as (_ & Hsound & Hopt).
  destruct (fold_left (select_step nNow) vAvailablePeers _) as [[peers best] old].
  simpl in *. destruct (Hopt Hneg) as [Hnone Hsome]. split.
  - split; [done|]. intros Hall.
    destruct (decide (best = (-1)%Z)) as [|Hne]; [done|].
    destruct (Hsound Hne) as [Hin Hok]. by destruct (Hall best Hin).
  - intros Hne. destruct (Hsound Hne) as [Hin Hok]. split; [done|].
    by apply Hsome.
Qed.

Lemma X18_SelectPeer_least_recent_witness :
  ((-1)%Z ∉ [7%Z; 8%Z; 9%Z]) /\ IsComplete one_received = false /\
  let p := (SelectPeerForNextChunk 1010 two_peer_coordinator (Some one_received)
              [7%Z; 8%Z; 9%Z] 0).1.1 in
  (p = (-1)%Z <-> forall q, q ∈ [7%Z; 8%Z; 9%Z] -> ~ eligible 1010 two_peer_coordinator q) /\
  (p <> (-1)%Z ->
   eligible 1010 two_peer_coordinator p /\
   forall q, q ∈ [7%Z; 8%Z; 9%Z] -> eligible 1010 two_peer_coordinator q ->
     (Coordinator.nLastRequestTime (Coordinator.peer_state two_peer_coordinator p)
      <= Coordinator.nLastRequestTime (Coordinator.peer_state two_peer_coordinator q))%Z).
Proof.
  assert ((-1)%Z ∉ [7%Z; 8%Z; 9%Z]) as Hneg by (apply (bool_decide_unpack _); vm_compute; exact I).
  split; [exact Hneg|]. split; [vm_compute; reflexivity|].
  apply (X18_SelectPeer_least_recent 1010 two_peer_coordinator one_received
           [7%Z; 8%Z; 9%Z] 0);
    [exact Hneg | vm_compute; reflexivity | vm_compute; reflexivity
    | vm_compute; reflexivity].
Defined.

(** The same selection, evaluated: peer 9 was never asked, so its last
    request time 0 is the oldest and it is chosen for chunk 1. *)
Example select_prefers_unused_peer :
  (SelectPeerForNextChunk 1010 two_peer_coordinator (Some one_received)
     [7%Z; 8%Z; 9%Z] 0).1 = (9%Z, 1).
Proof. vm_compute. reflexivity. Qed.

(** ** Download coordinator: histories *)

Section coordinator_histories.
Import Coordinator.

(** What [GetTimedOutRequests] leaves in the in-flight map. *)
Lemma reap_lookup nNow c k :
  mapChunkToNode (GetTimedOutRequests nNow c).2 !! k =
  match mapChunkToNode c !! k with
  | Some node => if timed_out nNow (mapPeerStates c) node then None else Some node
  | None => None
  end.
Proof.
  unfold GetTimedOutRequests.
  pose proof (reap_fold nNow (mapPeerStates c) (in_key_order (mapChunkToNode c))
                ([], mapChunkToNode c)) as (_ & Hdel & Hkeep).
  simpl in *. destruct (mapChunkToNode c !! k) as [node|] eqn:Hk.
  - destruct (timed_out nNow (mapPeerStates c) node) eqn:Ht.
    + apply (Hdel k node); [by apply elem_of_in_key_order | done].
    + rewrite Hkeep, Hk; [done|]. intros n Hn%elem_of_in_key_order. congruence.
  - rewrite Hkeep, Hk; [done|]. intros n Hn%elem_of_in_key_order. congruence.
Qed.

Lemma reap_list nNow c node k :
  (node, k) ∈ (GetTimedOutRequests nNow c).1 <->
  mapChunkToNode c !! k = Some node /\ timed_out nNow (mapPeerStates c) node = true.
Proof.
  unfold GetTimedOutRequests.
  pose proof (reap_fold nNow (mapPeerStates c) (in_key_order (mapChunkToNode c))
                ([], mapChunkToNode c)) as (Hin & _ & _).
  simpl in *. rewrite Hin, elem_of_in_key_order. split.
  - intros [H|H]; [by apply elem_of_nil in H | done].
  - auto.
Qed.

Lemma reap_peers nNow c :
  mapPeerStates (GetTimedOutRequests nNow c).2 = mapPeerStates c.
Proof. done. Qed.

Lemma timed_out_mono nNow nNow' peers node :
  (nNow' <= nNow)%Z -> timed_out nNow' peers node = true -> timed_out nNow peers node = true.
Proof.
  unfold timed_out. destruct (peers !! node); [|done].
  rewrite !Z.ltb_lt. lia.
Qed.

Lemma inflight_inv_mono T T' c g :
  (T <= T')%Z -> inflight_inv T c g -> inflight_inv T' c g.
Proof.
  intros HT H k n Hk. destruct (H k n Hk) as (t & st & ? & ? & ? & ?).
  exists t, st. split_and!; [done | lia | done | done].
Qed.

Lemma peer_state_Some c node st :
  mapPeerStates c !! node = Some st -> peer_state c node = st.
Proof. unfold peer_state. by intros ->. Qed.

(** One event keeps the invariant; an event that reads the clock moves the
    bound to the value it read. *)
Lemma inflight_inv_step T c g ev :
  inflight_inv T c g ->
  (forall t, event_time ev = Some t -> (T <= t)%Z) ->
  inflight_inv (default T (event_time ev)) (coord_event_step c ev)
    (match ev with EvOp op => recorded_step g op | EvReap _ => g end).
Proof.
  intros Hinv Htime. destruct ev as [[nNow node nChunk|node nChunk|nNow node nChunk|node]|nNow].
  - simpl in *. specialize (Htime nNow eq_refl). intros k n. unfold RecordRequest. simpl.
    rewrite lookup_insert. case_decide as Hk.
    + intros [= <-]. subst k. eexists nNow, _.
      rewrite !lookup_insert_eq. simpl. split_and!; [done | lia | done | done].
    + intros Hkn. destruct (Hinv k n Hkn) as (t & st & Hg & Ht & Hst & Hle).
      rewrite lookup_insert_ne by done. rewrite lookup_insert. case_decide as Hn.
      * eexists t, _. split_and!; [done | lia | done | simpl; lia].
      * exists t, st. split_and!; [done | lia | done | done].
  - simpl in *. intros k n. unfold RecordSuccess. simpl.
    rewrite lookup_delete_Some. intros [Hk Hkn].
    destruct (Hinv k n Hkn) as (t & st & Hg & Ht & Hst & Hle).
    rewrite lookup_insert. case_decide as Hn.
    + subst n. rewrite (peer_state_Some _ _ _ Hst).
      eexists t, _. split_and!; [done | done | done | done].
    + exists t, st. by split_and!.
  - simpl in *. specialize (Htime nNow eq_refl). intros k n. unfold RecordFailure. simpl.
    rewrite lookup_delete_Some. intros [Hk Hkn].
    destruct (Hinv k n Hkn) as (t & st & Hg & Ht & Hst & Hle).
    rewrite lookup_insert. case_decide as Hn.
    + subst n. rewrite (peer_state_Some _ _ _ Hst).
      eexists t, _. split_and!; [done | lia | done | done].
    + exists t, st. split_and!; [done | lia | done | done].
  - simpl in *. intros k n. unfold RemovePeer. simpl.
    rewrite map_lookup_filter_Some. simpl. intros [Hkn Hn].
    destruct (Hinv k n Hkn) as (t & st & Hg & Ht & Hst & Hle).
    exists t, st. rewrite lookup_delete_ne by done. by split_and!.
  - specialize (Htime nNow eq_refl).
    change (inflight_inv nNow (GetTimedOutRequests nNow c).2 g).
    intros k n. rewrite reap_lookup, reap_peers.
    destruct (mapChunkToNode c !! k) as [n0|] eqn:Hk; [|done].
    destruct (timed_out nNow (mapPeerStates c) n0); [done|]. intros [= <-].
    destruct (Hinv k n0 Hk) as (t & st & Hg & Ht & Hst & Hle).
    exists t, st. split_and!; [done | lia | done | done].
Qed.

Lemma nondecreasing_cons t ts :
  RateLimiter.nondecreasing (t :: ts) = true ->
  RateLimiter.nondecreasing ts = true /\
  forall t', head ts = Some t' -> (t <= t')%Z.
Proof.
  destruct ts as [|t' ts]; simpl; [done|].
  intros [Hle Hrest]%andb_true_iff. split; [done|]. intros ? [= <-]. lia.
Qed.

Lemma nondecreasing_cons_2 t ts :
  RateLimiter.nondecreasing ts = true ->
  (forall t', head ts = Some t' -> (t <= t')%Z) ->
  RateLimiter.nondecreasing (t :: ts) = true.
Proof.
  destruct ts as [|t' ts]; [done|]. intros Hts Hle.
  change (((t <=? t')%Z && RateLimiter.nondecreasing (t' :: ts)) = true).
  rewrite Hts, andb_true_r. apply Z.leb_le, Hle. done.
Qed.

Lemma inflight_inv_run evs : forall T c g,
  inflight_inv T c g ->
  RateLimiter.nondecreasing (T :: omap event_time evs) = true ->
  exists T', inflight_inv T' (fold_left coord_event_step evs c)
    (fold_left (fun g ev => match ev with EvOp op => recorded_step g op | EvReap _ => g end)
       evs g).
Proof.
  induction evs as [|ev evs IH]; intros T c g Hinv Hmono; simpl.
  { by exists T. }
  cbn [omap list_omap] in Hmono.
  pose proof (inflight_inv_step T c g ev Hinv) as Hstep.
  destruct (event_time ev) as [t|] eqn:Het.
  - apply nondecreasing_cons in Hmono as [Hrest Hle].
    apply (IH t); [|done]. apply Hstep. intros t' [= <-]. by apply Hle.
  - apply (IH T); [|done]. by apply Hstep.
Qed.

Lemma inflight_inv_events evs :
  RateLimiter.nondecreasing (omap event_time evs) = true ->
  exists T, inflight_inv T (coord_events evs) (request_times evs).
Proof.
  intros Hmono. unfold coord_events, request_times.
  destruct (omap event_time evs) as [|t0 ts] eqn:Hts.
  - apply (inflight_inv_run evs 0%Z); [|by rewrite Hts].
    intros k n Hk. unfold NewCoordinator in Hk. simpl in Hk. by rewrite lookup_empty in Hk.
  - apply (inflight_inv_run evs t0); [intros k n Hk; unfold NewCoordinator in Hk; simpl in Hk; by rewrite lookup_empty in Hk|].
    rewrite Hts. apply nondecreasing_cons_2; [done|]. intros ? [= <-]. lia.
Qed.
End coordinator_histories.

(** X19: along a history of coordinator calls whose clock never runs
    backwards, every in-flight chunk is assigned to a peer that has a state
    entry, and a request is never reported as timed out before more than 60
    seconds have passed since the [RecordRequest] for that chunk. *)
Theorem X19_no_premature_timeout (evs : list CoordEvent) (nNow : Z) :
  RateLimiter.nondecreasing (omap event_time evs) = true ->
  (forall nChunk node,
     Coordinator.mapChunkToNode (coord_events evs) !! nChunk = Some node ->
     is_Some (Coordinator.mapPeerStates (coord_events evs) !! node)) /\
  (forall node nChunk,
     (node, nChunk) ∈ (Coordinator.GetTimedOutRequests nNow (coord_events evs)).1 ->
     exists t, request_times evs !! nChunk = Some t /\ (60 < nNow - t)%Z).
Proof.
  intros Hmono. destruct (inflight_inv_events evs Hmono) as [T Hinv]. split.
  - intros k n Hk. destruct (Hinv k n Hk) as (t & st & _ & _ & Hst & _). by exists st.
  - intros node k [Hk Hout]%reap_list.
    destruct (Hinv k node Hk) as (t & st & Hg & _ & Hst & Hle).
    exists t. split; [done|]. unfold Coordinator.timed_out in Hout.
    rewrite Hst in Hout. apply Z.ltb_lt in Hout.
    change (Z.of_N Coordinator.REQUEST_TIMEOUT_SEC) with 60%Z in Hout. lia.
Qed.

Lemma X19_no_premature_timeout_witness :
  RateLimiter.nondecreasing (omap event_time reap_history) = true /\
  (7%Z, 0) ∈ (Coordinator.GetTimedOutRequests 1111 (coord_events reap_history)).1 /\
  exists t, request_times reap_history !! 0 = Some t /\ (60 < 1111 - t)%Z.
Proof.
  split; [vm_compute; reflexivity|].
  assert ((7%Z, 0) ∈ (Coordinator.GetTimedOutRequests 1111 (coord_events reap_history)).1)
    as Hin.
  { apply reap_list. vm_compute. split; reflexivity. }
  split; [exact Hin|].
  apply (proj2 (X19_no_premature_timeout reap_history 1111 eq_refl) 7%Z 0 Hin).
Defined.

(** X20: after [GetTimedOutRequests] at clock value [nNow], a second call
    at a clock value not later than [nNow] reports nothing and leaves the
    coordinator as it is. *)
Theorem X20_reap_twice (nNow nNow' : Z) (c : Coordinator.CSnapshotDownloadCoordinator) :
  (nNow' <= nNow)%Z ->
  Coordinator.GetTimedOutRequests nNow' (Coordinator.GetTimedOutRequests nNow c).2
  = ([], (Coordinator.GetTimedOutRequests nNow c).2).
Proof.
  intros Hle.
  assert (forall k node,
            Coordinator.mapChunkToNode (Coordinator.GetTimedOutRequests nNow c).2 !! k
              = Some node ->
            Coordinator.timed_out nNow'
              (Coordinator.mapPeerStates (Coordinator.GetTimedOutRequests nNow c).2) node
              = false) as Hnot.
  { intros k node. rewrite reap_lookup, reap_peers.
    destruct (Coordinator.mapChunkToNode c !! k) as [n0|]; [|done].
    destruct (Coordinator.timed_out nNow (Coordinator.mapPeerStates c) n0) eqn:Ht; [done|].
    intros [= <-].
    destruct (Coordinator.timed_out nNow' (Coordinator.mapPeerStates c) n0) eqn:Ht'; [|done].
    apply (timed_out_mono nNow) in Ht'; [congruence | done]. }
  set (c1 := (Coordinator.GetTimedOutRequests nNow c).2) in *.
  destruct (Coordinator.GetTimedOutRequests nNow' c1) as [l c2] eqn:Hr.
  assert (l = []) as ->.
  { destruct l as [|[node k] l]; [done|].
    assert ((node, k) ∈ (Coordinator.GetTimedOutRequests nNow' c1).1) as Hin
      by (rewrite Hr; apply elem_of_cons; by left).
    apply reap_list in Hin as [Hk Ht]. rewrite (Hnot k node Hk) in Ht. done. }
  f_equal.
  assert (c2 = (Coordinator.GetTimedOutRequests nNow' c1).2) as -> by (by rewrite Hr).
  destruct c1 as [peers inflight] eqn:Hc1.
  assert (Coordinator.mapChunkToNode
            (Coordinator.GetTimedOutRequests nNow' (Coordinator.mkCoordinator peers inflight)).2
          = inflight) as Hmap.
  { apply map_eq. intros k. rewrite reap_lookup. simpl.
    destruct (inflight !! k) as [node|] eqn:Hk; [|done].
    pose proof (Hnot k node Hk) as Hf. simpl in Hf. by rewrite Hf. }
  unfold Coordinator.GetTimedOutRequests in *. simpl in *. by rewrite Hmap.
Qed.

Lemma X20_reap_twice_witness :
  (1100 <= 1111)%Z /\
  Coordinator.GetTimedOutRequests 1100
    (Coordinator.GetTimedOutRequests 1111 (coord_events reap_history)).2
  = ([], (Coordinator.GetTimedOutRequests 1111 (coord_events reap_history)).2).
Proof.
  split; [lia|].
  apply (X20_reap_twice 1111 1100 (coord_events reap_history)). lia.
Defined.

(** ** Download coordinator: the number of requests in flight *)

Lemma reap_subseteq nNow c :
  Coordinator.mapChunkToNode (Coordinator.GetTimedOutRequests nNow c).2
  ⊆ Coordinator.mapChunkToNode c.
Proof.
  apply map_subseteq_spec. intros k n. rewrite reap_lookup.
  destruct (Coordinator.mapChunkToNode c !! k) as [n0|]; [|done].
  by destruct (Coordinator.timed_out nNow (Coordinator.mapPeerStates c) n0).
Qed.

Lemma size_delete_le (m : gmap N Z) k : (size (delete k m) <= size m)%nat.
Proof. rewrite map_size_delete. destruct (m !! k); simpl; lia. Qed.

(** X21: in a download loop that calls [RecordRequest] only with the peer
    and chunk returned by [SelectPeerForNextChunk], there are never more than
    [MAX_CONCURRENT_PEER_REQUESTS] (12) requests in flight, whatever the
    order of requests, successes, failures, disconnections and reapings. *)
Theorem X21_in_flight_bounded (evs : list DriverEvent) :
  N.of_nat (size (Coordinator.mapChunkToNode (driver_run evs)))
  <= Coordinator.MAX_CONCURRENT_PEER_REQUESTS.
Proof.
  change Coordinator.MAX_CONCURRENT_PEER_REQUESTS with 12.
  cut (size (Coordinator.mapChunkToNode (driver_run evs)) <= 12)%nat; [lia|].
  unfold driver_run.
  assert (size (Coordinator.mapChunkToNode Coordinator.NewCoordinator) <= 12)%nat as H0.
  { unfold Coordinator.NewCoordinator. simpl. rewrite map_size_empty. lia. }
  revert H0. generalize Coordinator.NewCoordinator.
  induction evs as [|ev evs IH]; intros c Hc; [done|].
  simpl. apply IH.
  destruct ev as [nNow nNow' pds peers|node k|nNow node k|node|nNow].
  - unfold driver_step.
    unfold SelectPeerForNextChunk.
    case_bool_decide as Hnil; [done|].
    destruct pds as [ds|]; [|done].
    destruct (IsComplete ds) eqn:Hcomp; [done|].
    case_bool_decide as Hfl; [done|].
    destruct (N.leb_spec Coordinator.MAX_CONCURRENT_PEER_REQUESTS
                (N.of_nat (size (Coordinator.mapChunkToNode c)))) as [Hsz|Hsz]; [done|].
    change Coordinator.MAX_CONCURRENT_PEER_REQUESTS with 12 in Hsz.
    destruct (fold_left (select_step nNow) peers _) as [[peers' best] old].
    simpl. destruct (best =? -1)%Z; simpl; [done|].
    rewrite map_size_insert_None; [lia|].
    destruct (Coordinator.mapChunkToNode c !! GetNextChunkToRequest ds) eqn:E; [|done].
    destruct Hfl. by eexists.
  - simpl. etrans; [apply size_delete_le | done].
  - simpl. etrans; [apply size_delete_le | done].
  - simpl. etrans; [apply map_subseteq_size, map_filter_subseteq | done].
  - etrans; [apply map_subseteq_size, reap_subseteq | done].
Qed.

(** The bound is reached: of fourteen selections in a row, twelve lead to a
    request and the last two are refused. *)
Example in_flight_bound_reached :
  size (Coordinator.mapChunkToNode (driver_run fourteen_requests)) = 12%nat /\
  size (Coordinator.mapChunkToNode (driver_run (take 12 fourteen_requests))) = 12%nat /\
  size (Coordinator.mapChunkToNode (driver_run (take 11 fourteen_requests))) = 11%nat.
Proof. vm_compute. split_and!; reflexivity. Qed.

(** ** Download coordinator: backoff *)

Lemma peer_state_RecordFailure nNow c node k :
  Coordinator.peer_state (Coordinator.RecordFailure nNow c node k) node =
  Coordinator.mkPeerDownloadState
    (Coordinator.nLastRequestTime (Coordinator.peer_state c node))
    (Coordinator.nChunksRequested (Coordinator.peer_state c node))
    (u32 (Coordinator.nChunksFailed (Coordinator.peer_state c node) + 1))
    (u32 (Coordinator.nConsecutiveFailures (Coordinator.peer_state c node) + 1))
    (nNow + backoff_after
              (u32 (Coordinator.nConsecutiveFailures (Coordinator.peer_state c node) + 1))).
Proof.
  unfold Coordinator.peer_state at 1. unfold Coordinator.RecordFailure. simpl.
  rewrite lookup_insert_eq. simpl. unfold backoff_after.
  repeat (f_equal; try done).
  destruct (4 <=? _); [done|]. destruct (_ =? 3); [done|]. by destruct (_ =? 2).
Qed.

Lemma fail_all_count c node fails :
  Coordinator.nConsecutiveFailures (Coordinator.peer_state c node)
    + N.of_nat (length fails) < 2 ^ 32 ->
  Coordinator.nConsecutiveFailures (Coordinator.peer_state (fail_all c node fails) node)
  = Coordinator.nConsecutiveFailures (Coordinator.peer_state c node)
    + N.of_nat (length fails).
Proof.
  revert c. induction fails as [|[t k] fails IH]; intros c Hlt; simpl.
  { unfold fail_all. simpl. lia. }
  unfold fail_all in *. simpl. simpl in Hlt.
  assert (u32 (Coordinator.nConsecutiveFailures (Coordinator.peer_state c node) + 1)
          = Coordinator.nConsecutiveFailures (Coordinator.peer_state c node) + 1) as Hu.
  { unfold u32. apply N.mod_small. lia. }
  rewrite IH; rewrite peer_state_RecordFailure; simpl; rewrite Hu; lia.
Qed.

(** X22: once [RecordSuccess] has reset a peer, its [n]-th failure in a row
    (for [n] below 2^32) sets the backoff to 10, 30, 60 and then 300 seconds
    from the clock value of that failure, and [GetPeerBackoff] reports what
    is left of it, 0 once it has passed. *)
Theorem X22_backoff_schedule c node nChunk0 (fails : list (Z * N)) (t : Z) (nChunk : N)
    (nNow : Z) :
  N.of_nat (length fails) + 1 < 2 ^ 32 ->
  let n := N.of_nat (length fails) + 1 in
  let c' := fail_all (Coordinator.RecordSuccess c node nChunk0) node (fails ++ [(t, nChunk)]) in
  Coordinator.nConsecutiveFailures (Coordinator.peer_state c' node) = n /\
  Coordinator.nBackoffUntil (Coordinator.peer_state c' node)
    = (t + (if (n =? 1)%N then 10 else if (n =? 2)%N then 30
            else if (n =? 3)%N then 60 else 300))%Z /\
  Coordinator.GetPeerBackoff nNow c' node
    = Z.max 0 (Coordinator.nBackoffUntil (Coordinator.peer_state c' node) - nNow).
Proof.
  intros Hlt n c'.
  set (c0 := Coordinator.RecordSuccess c node nChunk0).
  assert (Coordinator.nConsecutiveFailures (Coordinator.peer_state c0 node) = 0) as H0.
  { unfold c0, Coordinator.peer_state at 1, Coordinator.RecordSuccess. simpl.
    by rewrite lookup_insert_eq. }
  assert (c' = Coordinator.RecordFailure t (fail_all c0 node fails) node nChunk) as Hc'.
  { unfold c', fail_all. by rewrite fold_left_app. }
  pose proof (fail_all_count c0 node fails) as Hcount. rewrite H0 in Hcount.
  specialize (Hcount ltac:(lia)).
  assert (u32 (Coordinator.nConsecutiveFailures
                 (Coordinator.peer_state (fail_all c0 node fails) node) + 1) = n) as Hn.
  { rewrite Hcount. unfold u32, n. apply N.mod_small. lia. }
  assert (Coordinator.peer_state c' node =
          Coordinator.mkPeerDownloadState
            (Coordinator.nLastRequestTime (Coordinator.peer_state (fail_all c0 node fails) node))
            (Coordinator.nChunksRequested (Coordinator.peer_state (fail_all c0 node fails) node))
            (u32 (Coordinator.nChunksFailed (Coordinator.peer_state (fail_all c0 node fails) node) + 1))
            n (t + backoff_after n)) as Hst.
  { by rewrite Hc', peer_state_RecordFailure, Hn. }
  split_and!.
  - by rewrite Hst.
  - rewrite Hst. simpl. f_equal. unfold backoff_after.
    destruct (N.leb_spec 4 n), (N.eqb_spec n 1), (N.eqb_spec n 2), (N.eqb_spec n 3);
      try lia; done.
  - unfold Coordinator.GetPeerBackoff.
    assert (is_Some (Coordinator.mapPeerStates c' !! node)) as [st Hsome].
    { rewrite Hc'. unfold Coordinator.RecordFailure. simpl. rewrite lookup_insert_eq.
      by eexists. }
    unfold Coordinator.peer_state. rewrite Hsome. simpl.
    destruct (Z.ltb_spec nNow (Coordinator.nBackoffUntil st)); lia.
Qed.

Lemma X22_backoff_schedule_witness :
  N.of_nat (length [(100%Z, 4); (200%Z, 5)]) + 1 < 2 ^ 32 /\
  let c' := fail_all (Coordinator.RecordSuccess Coordinator.NewCoordinator 7 0) 7
              ([(100%Z, 4); (200%Z, 5)] ++ [(300%Z, 6)]) in
  Coordinator.nConsecutiveFailures (Coordinator.peer_state c' 7) = 3 /\
  Coordinator.nBackoffUntil (Coordinator.peer_state c' 7) = 360%Z /\
  Coordinator.GetPeerBackoff 320 c' 7 = 40%Z.
Proof.
  split; [vm_compute; reflexivity|].
  pose proof (X22_backoff_schedule Coordinator.NewCoordinator 7 0
                [(100%Z, 4); (200%Z, 5)] 300 6 320 ltac:(vm_compute; reflexivity))
    as (H1 & H2 & H3).
  cbv zeta in *. split_and!.
  - exact H1.
  - rewrite H2. reflexivity.
  - rewrite H3, H2. reflexivity.
Defined.

(** ** Download coordinator: disconnected peers *)

(** X23: [RemovePeer] drops the peer's state and exactly the in-flight
    chunks assigned to it, and keeps every other peer's state; afterwards
    the peer has no backoff and [GetTimedOutRequests] reports nothing for it,
    at any clock value. *)
Theorem X23_RemovePeer_spec (c : Coordinator.CSnapshotDownloadCoordinator) (node : Z) :
  let c' := Coordinator.RemovePeer c node in
  (forall k n, Coordinator.mapChunkToNode c' !! k = Some n <->
               Coordinator.mapChunkToNode c !! k = Some n /\ n <> node) /\
  Coordinator.mapPeerStates c' !! node = None /\
  (forall n, n <> node ->
             Coordinator.mapPeerStates c' !! n = Coordinator.mapPeerStates c !! n) /\
  (forall nNow, Coordinator.GetPeerBackoff nNow c' node = 0%Z) /\
  (forall nNow k, (node, k) ∉ (Coordinator.GetTimedOutRequests nNow c').1).
Proof.
  intros c'.
  assert (forall k n, Coordinator.mapChunkToNode c' !! k = Some n <->
                      Coordinator.mapChunkToNode c !! k = Some n /\ n <> node) as Hmap.
  { intros k n. unfold c', Coordinator.RemovePeer. simpl.
    by rewrite map_lookup_filter_Some. }
  assert (Coordinator.mapPeerStates c' !! node = None) as Hgone.
  { unfold c', Coordinator.RemovePeer. simpl. apply lookup_delete_eq. }
  split_and!; [done | done | | | ].
  - intros n Hn. unfold c', Coordinator.RemovePeer. simpl. by rewrite lookup_delete_ne.
  - intros nNow. unfold Coordinator.GetPeerBackoff. by rewrite Hgone.
  - intros nNow k [Hk _]%reap_list. apply Hmap in Hk as [_ Hne]. done.
Qed.

(** * Proof of work *)

Lemma sub32_small a b : b <= a -> a < 2 ^ 32 -> Pow.sub32 a b = a - b.
Proof.
  intros Hb Ha. unfold Pow.sub32, u32.
  rewrite (N.mod_small b) by lia.
  replace (a + 2 ^ 32 - b) with ((a - b) + 1 * 2 ^ 32) by lia.
  rewrite N.Div0.mod_add. apply N.mod_small. lia.
Qed.

Lemma sub32_wrap a b : a < b -> b < 2 ^ 32 -> Pow.sub32 a b = a + 2 ^ 32 - b.
Proof.
  intros Ha Hb. unfold Pow.sub32, u32.
  rewrite (N.mod_small b) by lia. apply N.mod_small. lia.
Qed.

Lemma to_u32_small x : (0 <= x < 2 ^ 31)%Z -> Pow.to_u32 x = Z.to_N x.
Proof. intros H. unfold Pow.to_u32. rewrite Z.mod_small; [done | lia]. Qed.

(** X24: for a block height below 2^32 and an active chain of height at
    least 0, the block whose hash [GetKeyBlock] takes as the new key is the
    one at height [K = 2048 * floor((nHeight - 65) / 2048)], provided [K] is
    not negative and the chain is higher than [K]; otherwise the key stays.
    A zero key is replaced by the hash of block 0. For [nHeight >= 65] the
    height [K] is a multiple of 2048 that lies between 65 and 2112 blocks
    below [nHeight]. *)
Theorem X24_GetKeyBlock_closed_form (ChainHeight : Z) (BlockHash : N -> option uint256)
    (current_key_block : uint256) (nHeight : N) :
  nHeight < 2 ^ 32 -> (0 <= ChainHeight < 2 ^ 31)%Z ->
  let K := (2048 * ((Z.of_N nHeight - 65) / 2048))%Z in
  Pow.GetKeyBlock ChainHeight BlockHash current_key_block nHeight =
    match (if (0 <=? K)%Z && (K <? ChainHeight)%Z
           then BlockHash (Z.to_N K) else Some current_key_block) with
    | None => None
    | Some key => if bool_decide (key = uint256_zero) then BlockHash 0 else Some key
    end /\
  (65 <= nHeight ->
   (0 <= K /\ K mod 2048 = 0 /\ 65 <= Z.of_N nHeight - K <= 2112)%Z).
Proof.
  intros Hh Hc K. split.
  2:{ intros H65. unfold K. split_and!.
      - apply Z.mul_nonneg_nonneg; [lia|]. apply Z.div_pos; lia.
      - rewrite Z.mul_comm. apply Z.mod_mul. lia.
      - pose proof (Z.mul_div_le (Z.of_N nHeight - 65) 2048 ltac:(lia)). lia.
      - pose proof (Z.mul_succ_div_gt (Z.of_N nHeight - 65) 2048 ltac:(lia)). lia. }
  unfold Pow.GetKeyBlock.
  change Pow.KEY_CHANGE with 2048. change Pow.SWITCH_KEY with 64.
  pose proof (N.div_mod nHeight 2048 ltac:(lia)) as Hdm.
  pose proof (N.mod_lt nHeight 2048 ltac:(lia)) as Hr.
  set (r := nHeight mod 2048) in *. set (q := nHeight / 2048) in *.
  assert (u32 r = r) as -> by (unfold u32; apply N.mod_small; lia).
  rewrite (sub32_small nHeight r) by lia.
  assert (u32 (nHeight - r + 64) = nHeight - r + 64) as ->.
  { unfold u32. apply N.mod_small.
    assert (q < 2 ^ 21) by (apply N.Div0.div_lt_upper_bound; lia). lia. }
  rewrite (to_u32_small ChainHeight) by lia.
  destruct (N.ltb_spec (nHeight - r + 64) nHeight) as [Hgt|Hle].
  - (* the remainder exceeds SWITCH_KEY *)
    assert (K = Z.of_N (nHeight - r)) as HK.
    { unfold K. replace (Z.of_N nHeight - 65)%Z
        with ((Z.of_N r - 65) + Z.of_N q * 2048)%Z by lia.
      rewrite Z.div_add by lia. rewrite (Z.div_small (Z.of_N r - 65)) by lia. lia. }
    rewrite HK, N2Z.id.
    assert ((0 <=? Z.of_N (nHeight - r))%Z = true) as -> by (apply Z.leb_le; lia).
    simpl.
    destruct (N.ltb_spec (nHeight - r) (Z.to_N ChainHeight)),
             (Z.ltb_spec (Z.of_N (nHeight - r)) ChainHeight); try lia; done.
  - destruct (N.eq_dec q 0) as [Hq|Hq].
    + (* below the first key change: the subtraction wraps *)
      assert (nHeight = r) as Hhr by lia.
      rewrite (sub32_wrap nHeight 2048) by lia.
      rewrite (sub32_small (nHeight + 2 ^ 32 - 2048) r) by lia.
      assert (K = (-2048)%Z) as ->.
      { unfold K. replace (Z.of_N nHeight - 65)%Z
          with ((Z.of_N r + 1983) + (-1) * 2048)%Z by lia.
        rewrite Z.div_add by lia. rewrite (Z.div_small (Z.of_N r + 1983)) by lia. lia. }
      simpl.
      destruct (N.ltb_spec (nHeight + 2 ^ 32 - 2048 - r) (Z.to_N ChainHeight)); [lia|done].
    + rewrite (sub32_small nHeight 2048) by lia.
      rewrite (sub32_small (nHeight - 2048) r) by lia.
      assert (K = Z.of_N (nHeight - 2048 - r)) as HK.
      { unfold K. replace (Z.of_N nHeight - 65)%Z
          with ((Z.of_N r + 1983) + (Z.of_N q - 1) * 2048)%Z by lia.
        rewrite Z.div_add by lia. rewrite (Z.div_small (Z.of_N r + 1983)) by lia. lia. }
      rewrite HK, N2Z.id.
      assert ((0 <=? Z.of_N (nHeight - 2048 - r))%Z = true) as -> by (apply Z.leb_le; lia).
      simpl.
      destruct (N.ltb_spec (nHeight - 2048 - r) (Z.to_N ChainHeight)),
               (Z.ltb_spec (Z.of_N (nHeight - 2048 - r)) ChainHeight); try lia; done.
Qed.

Lemma X24_GetKeyBlock_closed_form_witness :
  4200 < 2 ^ 32 /\ (0 <= 4999 < 2 ^ 31)%Z /\
  Pow.GetKeyBlock 4999 Pow.sample_hash uint256_zero 4200 = Pow.sample_hash 4096 /\
  Pow.GetKeyBlock 4999 Pow.sample_hash uint256_zero 4150 = Pow.sample_hash 2048 /\
  Pow.GetKeyBlock 4999 Pow.sample_hash uint256_zero 64 = Pow.sample_hash 0.
Proof.
  split; [vm_compute; reflexivity|]. split; [lia|].
  split_and!.
  - rewrite (proj1 (X24_GetKeyBlock_closed_form 4999 Pow.sample_hash uint256_zero 4200
                      ltac:(vm_compute; reflexivity) ltac:(lia))).
    vm_compute. reflexivity.
  - vm_compute. reflexivity.
  - vm_compute. reflexivity.
Defined.

(** X25: when [SetCompact] yields a target below 2^256, [GetBlockProof] is
    0 if the negative or the overflow flag is set or the target is 0, fails
    with a division by zero for the target 2^256 - 1, and is otherwise
    [floor(2^256 / (target + 1))], the value the comment in the code
    announces. *)
Theorem X25_GetBlockProof_quotient (SetCompact : N -> N * bool * bool) (nBits bnTarget : N)
    (fNegative fOverflow : bool) :
  SetCompact nBits = (bnTarget, fNegative, fOverflow) ->
  bnTarget < 2 ^ 256 ->
  Pow.GetBlockProof SetCompact nBits =
    if fNegative || fOverflow || (bnTarget =? 0) then Some 0
    else if bnTarget =? 2 ^ 256 - 1 then None
    else Some (2 ^ 256 / (bnTarget + 1)).
Proof.
  intros Hset Hlt. unfold Pow.GetBlockProof. rewrite Hset.
  destruct (fNegative || fOverflow || (bnTarget =? 0)) eqn:Hflags; [done|].
  apply orb_false_iff in Hflags as [_ Hz]. apply N.eqb_neq in Hz.
  assert (0 < 2 ^ 256) as Hpos by (apply N.neq_0_lt_0, N.pow_nonzero; lia).
  unfold Pow.a256. destruct (N.eqb_spec bnTarget (2 ^ 256 - 1)) as [->|Hne].
  - replace (2 ^ 256 - 1 + 1) with (2 ^ 256) by lia.
    rewrite N.Div0.mod_same. done.
  - rewrite (N.mod_small (bnTarget + 1)) by lia.
    destruct (N.eqb_spec (bnTarget + 1) 0) as [?|_]; [lia|].
    f_equal.
    assert (2 ^ 256 / (bnTarget + 1) = (2 ^ 256 - 1 - bnTarget) / (bnTarget + 1) + 1) as Hq.
    { replace (2 ^ 256) with ((2 ^ 256 - 1 - bnTarget) + 1 * (bnTarget + 1)) at 1 by lia.
      rewrite N.div_add by lia. done. }
    rewrite <- Hq. apply N.mod_small.
    apply N.div_lt; lia.
Qed.

Lemma X25_GetBlockProof_quotient_witness :
  Pow.plain_compact 255 = (255, false, false) /\ 255 < 2 ^ 256 /\
  Pow.GetBlockProof Pow.plain_compact 255 = Some (2 ^ 248).
Proof.
  split; [reflexivity|]. split; [vm_compute; reflexivity|].
  rewrite (X25_GetBlockProof_quotient Pow.plain_compact 255 255 false false eq_refl
             ltac:(vm_compute; reflexivity)).
  vm_compute. reflexivity.
Defined.

Lemma signed_product (sign r : Z) :
  sign = 1%Z \/ sign = (-1)%Z -> (0 <= r < 2 ^ 63)%Z ->
  s64 (((sign mod 2 ^ 64) * (r mod 2 ^ 64)) mod 2 ^ 64) = (sign * r)%Z.
Proof.
  intros Hs Hr. unfold s64. rewrite (Z.mod_small r) by lia.
  destruct Hs as [-> | ->].
  - change (1 mod 2 ^ 64)%Z with 1%Z.
    rewrite Z.mul_1_l, (Z.mod_small r) by lia. rewrite Z.mod_small; lia.
  - change (-1 mod 2 ^ 64)%Z with (2 ^ 64 - 1)%Z.
    replace ((2 ^ 64 - 1) * r)%Z with (- r + r * 2 ^ 64)%Z by lia.
    rewrite Z.mod_add by lia. rewrite Zplus_mod_idemp_l.
    replace (- r + 2 ^ 63)%Z with (2 ^ 63 - r)%Z by lia.
    rewrite Z.mod_small; lia.
Qed.

(** The value of [GetBlockProofEquivalentTime] without machine arithmetic. *)
Lemma GetBlockProofEquivalentTime_value SetCompact to_work from_work nBits spacing :
  Pow.GetBlockProofEquivalentTime SetCompact to_work from_work nBits spacing =
  match Pow.GetBlockProof SetCompact nBits with
  | None => None
  | Some proof =>
      if proof =? 0 then None
      else
        let d := if from_work <? to_work then to_work - from_work else from_work - to_work in
        Some ((if (from_work <? to_work)%N then 1 else -1)
              * Z.min (Z.of_N (Pow.a256 (d * Z.to_N (spacing mod 2 ^ 64)) / proof))
                      (2 ^ 63 - 1))%Z
  end.
Proof.
  unfold Pow.GetBlockProofEquivalentTime.
  destruct (Pow.GetBlockProof SetCompact nBits) as [proof|].
  2:{ by destruct (from_work <? to_work). }
  assert (forall d sign, sign = 1%Z \/ sign = (-1)%Z ->
            (if 2 ^ 63 <=? Pow.a256 (d * Z.to_N (spacing mod 2 ^ 64)) / proof
             then Some (sign * (2 ^ 63 - 1))%Z
             else Some (s64 (((sign mod 2 ^ 64)
                              * Z.of_N ((Pow.a256 (d * Z.to_N (spacing mod 2 ^ 64)) / proof)
                                        mod 2 ^ 64)) mod 2 ^ 64))%Z)
            = Some (sign * Z.min (Z.of_N (Pow.a256 (d * Z.to_N (spacing mod 2 ^ 64)) / proof))
                                 (2 ^ 63 - 1))%Z) as Hval.
  { intros d sign Hs.
    set (r := Pow.a256 (d * Z.to_N (spacing mod 2 ^ 64)) / proof).
    destruct (N.leb_spec (2 ^ 63) r) as [Hbig|Hsmall].
    - f_equal. rewrite Z.min_r; [done|]. lia.
    - f_equal. rewrite Z.min_l by lia.
      rewrite (N.mod_small r) by lia.
      rewrite <- (Z.mod_small (Z.of_N r) (2 ^ 64)) at 1 by lia.
      apply signed_product; [done | lia]. }
  destruct (from_work <? to_work); destruct (proof =? 0); try done;
    apply Hval; auto.
Qed.

(** X26: [GetBlockProofEquivalentTime] is antisymmetric in its two blocks:
    exchanging [to] and [from] negates the result. The result lies between
    -(2^63 - 1) and 2^63 - 1 and is not negative when [to] has more chain
    work than [from]; the call fails exactly when the proof of the tip is 0
    or cannot be computed. *)
Theorem X26_equivalent_time_antisymmetric (SetCompact : N -> N * bool * bool)
    (to_work from_work nBits : N) (spacing : Z) :
  Pow.GetBlockProofEquivalentTime SetCompact from_work to_work nBits spacing
  = Z.opp <$> Pow.GetBlockProofEquivalentTime SetCompact to_work from_work nBits spacing /\
  (forall v,
     Pow.GetBlockProofEquivalentTime SetCompact to_work from_work nBits spacing = Some v ->
     (- (2 ^ 63 - 1) <= v <= 2 ^ 63 - 1)%Z /\ (from_work < to_work -> (0 <= v)%Z)) /\
  (Pow.GetBlockProofEquivalentTime SetCompact to_work from_work nBits spacing = None <->
   Pow.GetBlockProof SetCompact nBits = None \/ Pow.GetBlockProof SetCompact nBits = Some 0).
Proof.
  rewrite !GetBlockProofEquivalentTime_value.
  destruct (Pow.GetBlockProof SetCompact nBits) as [proof|].
  2:{ split_and!; [done | done | split; auto]. }
  destruct (N.eqb_spec proof 0) as [->|Hp].
  { split_and!; [done | done | split; auto]. }
  split_and!.
  - simpl. f_equal.
    destruct (N.ltb_spec from_work to_work), (N.ltb_spec to_work from_work); try lia.
    assert (to_work = from_work) as -> by lia.
    rewrite N.sub_diag, N.mul_0_l. unfold Pow.a256.
    rewrite N.Div0.mod_0_l, N.Div0.div_0_l. done.
  - intros v [= <-]. cbv zeta.
    destruct (N.ltb_spec from_work to_work) as [Hlt|Hge].
    + set (m := Z.min _ _).
      assert (0 <= m <= 2 ^ 63 - 1)%Z
        by (unfold m; split;
            [apply Z.min_glb; [apply N2Z.is_nonneg | lia] | apply Z.le_min_r]).
      clearbody m. lia.
    + set (m := Z.min _ _).
      assert (0 <= m <= 2 ^ 63 - 1)%Z
        by (unfold m; split;
            [apply Z.min_glb; [apply N2Z.is_nonneg | lia] | apply Z.le_min_r]).
      clearbody m. lia.
  - split; [done|]. intros [?|[= ?]]; [done|]. by subst.
Qed.

(** ** Rate limiter: the sweep and the verdicts *)

Section sweep.
Import RateLimiter.

Lemma Cleanup_peers nNow rl :
  mapPeerRequests (Cleanup nNow rl) =
  filter (fun e : N * PeerRequestInfo => stale nNow e.2 = false) (mapPeerRequests rl).
Proof. unfold Cleanup. by destruct (3600 <? nNow - nLastResetTime rl)%Z. Qed.

Lemma Cleanup_limits nNow rl :
  nActiveTransfers (Cleanup nNow rl) = nActiveTransfers rl /\
  nMaxChunksPerPeerPerMinute (Cleanup nNow rl) = nMaxChunksPerPeerPerMinute rl /\
  nMaxConcurrentTransfers (Cleanup nNow rl) = nMaxConcurrentTransfers rl /\
  nMinSecondsBetweenRequests (Cleanup nNow rl) = nMinSecondsBetweenRequests rl /\
  nDuplicateChunkWindowSec (Cleanup nNow rl) = nDuplicateChunkWindowSec rl /\
  nBanThreshold (Cleanup nNow rl) = nBanThreshold rl /\
  nBanDurationSec (Cleanup nNow rl) = nBanDurationSec rl.
Proof. unfold Cleanup. by destruct (3600 <? nNow - nLastResetTime rl)%Z. Qed.

(** The sweep leaves the entry of a peer as it is or, when the entry is
    stale, erases it. *)
Lemma peer_info_Cleanup nNow rl addr :
  peer_info (Cleanup nNow rl) addr = peer_info rl addr \/
  (stale nNow (peer_info rl addr) = true /\
   peer_info (Cleanup nNow rl) addr = NewPeerRequestInfo).
Proof.
  unfold peer_info. rewrite Cleanup_peers, map_lookup_filter.
  destruct (mapPeerRequests rl !! addr) as [i|]; simpl; [|by left].
  destruct (stale nNow i) eqn:Hs.
  - right. split; [done|]. by rewrite option_guard_False by (simpl; congruence).
  - left. by rewrite option_guard_True.
Qed.

Lemma drop_old_all nNow times :
  Forall (fun x => 60 < nNow - x)%Z times -> drop_old nNow times = [].
Proof.
  induction 1 as [|x times Hx _ IH]; simpl; [done|].
  by destruct (Z.ltb_spec 60 (nNow - x)); [|lia].
Qed.

(** The verdict of [AllowRequest] is a function of the entry of the peer,
    the transfer counter and the limits. *)
Lemma AllowRequest_verdict_ext nNow rl rl' addr nChunk :
  peer_info rl' addr = peer_info rl addr ->
  nActiveTransfers rl' = nActiveTransfers rl ->
  nMaxChunksPerPeerPerMinute rl' = nMaxChunksPerPeerPerMinute rl ->
  nMaxConcurrentTransfers rl' = nMaxConcurrentTransfers rl ->
  nMinSecondsBetweenRequests rl' = nMinSecondsBetweenRequests rl ->
  nDuplicateChunkWindowSec rl' = nDuplicateChunkWindowSec rl ->
  (AllowRequest nNow rl' addr nChunk).1 = (AllowRequest nNow rl addr nChunk).1.
Proof.
  intros Hi Ha Hm Hc Hs Hd. unfold AllowRequest. rewrite Hi, Ha, Hm, Hc, Hs, Hd.
  destruct (bIsBanned (peer_info rl addr) && (nNow <? nBanUntil (peer_info rl addr))%Z);
    [done|].
  destruct (nMaxConcurrentTransfers rl <=? nActiveTransfers rl); [done|].
  destruct ((0 <? nLastRequestTime (unban (peer_info rl addr)))%Z &&
            (nNow - nLastRequestTime (unban (peer_info rl addr))
             <? Z.of_N (nMinSecondsBetweenRequests rl))%Z); [done|].
  destruct (servedChunks (unban (peer_info rl addr)) !! nChunk) as [t|].
  - destruct (nNow - t <? Z.of_N (nDuplicateChunkWindowSec rl))%Z; [done|].
    destruct (nMaxChunksPerPeerPerMinute rl <=? _); [|done].
    by destruct (nBanThreshold rl' <=? _), (nBanThreshold rl <=? _).
  - destruct (nMaxChunksPerPeerPerMinute rl <=? _); [|done].
    by destruct (nBanThreshold rl' <=? _), (nBanThreshold rl <=? _).
Qed.
End sweep.

(** X27: [Cleanup] does not change what [AllowRequest] answers afterwards:
    for a peer whose entry holds no request later than its last request time
    and no chunk served more than 300 seconds after it, with a pacing limit
    of at most 600 seconds and a duplicate window of at most 300 seconds, a
    request made at or after the sweep gets the verdict it would have got
    without the sweep. *)
Theorem X27_Cleanup_keeps_verdicts (nNow nNow' : Z) (rl : RateLimiter.CSnapshotRateLimiter)
    (addr nChunk : N) :
  (nNow' <= nNow)%Z ->
  RateLimiter.nMinSecondsBetweenRequests rl <= 600 ->
  RateLimiter.nDuplicateChunkWindowSec rl <= 300 ->
  served_promptly (RateLimiter.peer_info rl addr) = true ->
  (RateLimiter.AllowRequest nNow (RateLimiter.Cleanup nNow' rl) addr nChunk).1
  = (RateLimiter.AllowRequest nNow rl addr nChunk).1.
Proof.
  intros Hle Hmin Hdup Hprompt.
  destruct (Cleanup_limits nNow' rl) as (Ha & Hm & Hc & Hs & Hd & Ht & Hb).
  destruct (peer_info_Cleanup nNow' rl addr) as [Hsame|[Hstale Hnew]].
  { by apply AllowRequest_verdict_ext. }
  unfold RateLimiter.stale in Hstale.
  apply andb_true_iff in Hstale as [Hold Hnb].
  apply Z.ltb_lt in Hold. apply negb_true_iff in Hnb.
  apply andb_true_iff in Hprompt as [Htimes Hserved].
  rewrite forallb_forall in Htimes. rewrite forallb_forall in Hserved.
  unfold RateLimiter.AllowRequest.
  rewrite Hnew, Ha, Hm, Hc, Hs, Hd, Hnb. simpl.
  unfold RateLimiter.unban. rewrite Hnb. simpl.
  destruct (RateLimiter.nMaxConcurrentTransfers rl <=? RateLimiter.nActiveTransfers rl);
    [done|].
  set (info := RateLimiter.peer_info rl addr) in *.
  assert ((nNow - RateLimiter.nLastRequestTime info
           <? Z.of_N (RateLimiter.nMinSecondsBetweenRequests rl))%Z = false) as ->
    by (apply Z.ltb_ge; lia).
  rewrite andb_false_r, lookup_empty.
  assert (match RateLimiter.servedChunks info !! nChunk with
          | Some tServed =>
              if (nNow - tServed <? Z.of_N (RateLimiter.nDuplicateChunkWindowSec rl))%Z
              then Some (nNow - tServed)%Z else None
          | None => None
          end = None) as ->.
  { destruct (RateLimiter.servedChunks info !! nChunk) as [t|] eqn:Hk; [|done].
    assert ((t <=? RateLimiter.nLastRequestTime info + 300)%Z = true) as Ht'.
    { apply (Hserved (nChunk, t)). apply list_elem_of_In. by apply elem_of_map_to_list. }
    apply Z.leb_le in Ht'.
    destruct (Z.ltb_spec (nNow - t) (Z.of_N (RateLimiter.nDuplicateChunkWindowSec rl)));
      [lia | done]. }
  rewrite (drop_old_all nNow (RateLimiter.requestTimes info)).
  2:{ apply Forall_forall. intros x Hx%list_elem_of_In%Htimes.
      apply Z.leb_le in Hx. lia. }
  simpl.
  destruct (RateLimiter.nMaxChunksPerPeerPerMinute rl <=? N.of_nat 0); [|done].
  by destruct (RateLimiter.nBanThreshold (RateLimiter.Cleanup nNow' rl) <=? N.of_nat 0),
              (RateLimiter.nBanThreshold rl <=? N.of_nat 0).
Qed.

Lemma X27_Cleanup_keeps_verdicts_witness :
  (1700 <= 1705)%Z /\
  served_promptly (RateLimiter.peer_info (served_at 1010) 1) = true /\
  (RateLimiter.AllowRequest 1705 (RateLimiter.Cleanup 1700 (served_at 1010)) 1 5).1
  = (RateLimiter.AllowRequest 1705 (served_at 1010) 1 5).1.
Proof.
  split; [lia|]. split; [vm_compute; reflexivity|].
  apply (X27_Cleanup_keeps_verdicts 1705 1700 (served_at 1010) 1 5);
    [lia | vm_compute; discriminate | vm_compute; discriminate | vm_compute; reflexivity].
Defined.

(** A chunk recorded as served 650 seconds after the request: the sweep
    erases the peer's entry, and the same chunk is allowed again 55 seconds
    after it was served, which [AllowRequest] refuses without the sweep. *)
Example Cleanup_forgets_late_service :
  served_promptly (RateLimiter.peer_info (served_at 1650) 1) = false /\
  (RateLimiter.AllowRequest 1705 (served_at 1650) 1 5).1
  = RateLimiter.Rejected (RateLimiter.AlreadyServed 5 55) /\
  (RateLimiter.AllowRequest 1705 (RateLimiter.Cleanup 1700 (served_at 1650)) 1 5).1
  = RateLimiter.Allowed.
Proof. vm_compute. split_and!; reflexivity. Qed.

(** * The RandomX light cache *)

Section randomx.
Import RandomX.

Lemma replay_app l calls calls' :
  replay l (calls ++ calls') = replay l calls ≫= fun l' => replay l' calls'.
Proof.
  unfold replay. rewrite foldl_app.
  destruct (foldl _ (Some l) calls) as [l'|]; simpl; [done|].
  induction calls' as [|c calls' IH]; simpl; [done | apply IH].
Qed.

Lemma create_ok s l :
  caches l = ∅ -> machines l = ∅ -> fLightCacheInited s = false ->
  exists l', replay l (create_cache_and_machines s).2 = Some l' /\
             cache_inv (create_cache_and_machines s).1 l'.
Proof.
  destruct l as [cs ms]. simpl. intros -> -> Hf.
  unfold replay, create_cache_and_machines. simpl.
  rewrite bool_decide_eq_true_2 by (split; apply lookup_empty). simpl.
  rewrite lookup_insert_eq. simpl. rewrite insert_insert_eq.
  rewrite lookup_insert_eq. simpl.
  rewrite bool_decide_eq_true_2.
  2:{ split; [|apply lookup_empty]. rewrite lookup_insert_ne by lia. apply lookup_empty. }
  simpl. rewrite lookup_insert_eq. simpl.
  rewrite bool_decide_eq_true_2.
  2:{ split; [rewrite lookup_insert_ne by lia; apply lookup_empty|].
      rewrite lookup_insert_ne by lia. apply lookup_empty. }
  simpl. eexists. split; [done|]. split.
  - unfold live_objects. simpl.
    exists (allocated s), (allocated s + 1), (allocated s + 2).
    split_and!; try done; [lia|].
    apply insert_insert_ne. lia.
  - simpl. intros h [[x Hx]|[x Hx]].
    + apply lookup_insert_Some in Hx as [[<- _]|[_ Hx]]; [lia|].
      by rewrite lookup_empty in Hx.
    + apply lookup_insert_Some in Hx as [[<- _]|[_ Hx]]; [lia|].
      apply lookup_insert_Some in Hx as [[<- _]|[_ Hx]]; [lia|].
      by rewrite lookup_empty in Hx.
Qed.

Lemma deallocate_ok s l :
  cache_inv s l ->
  exists l', replay l (DeallocateRandomXLightCache s).2 = Some l' /\
             caches l' = ∅ /\ machines l' = ∅ /\
             fLightCacheInited (DeallocateRandomXLightCache s).1 = false /\
             flags (DeallocateRandomXLightCache s).1 = flags s /\
             key_block (DeallocateRandomXLightCache s).1 = key_block s /\
             allocated (DeallocateRandomXLightCache s).1 = allocated s.
Proof.
  intros [Hlive _]. unfold DeallocateRandomXLightCache, live_objects in *.
  destruct (fLightCacheInited s) eqn:Hf; simpl.
  - destruct Hlive as (c & m & v & -> & -> & -> & Hmv & Hc & Hm).
    destruct l as [cs ms]. simpl in *. subst cs ms.
    unfold replay. simpl. rewrite lookup_insert_eq. simpl.
    rewrite delete_insert_eq.
    rewrite delete_singleton_ne by done.
    rewrite lookup_singleton_eq. simpl.
    rewrite delete_singleton_eq. rewrite lookup_singleton_eq. simpl.
    rewrite bool_decide_eq_true_2 by apply map_Forall_empty. simpl.
    rewrite delete_singleton_eq. eexists. by split_and!.
  - destruct Hlive as [Hc Hm]. exists l. by split_and!.
Qed.

Lemma cache_inv_step s l op :
  cache_inv s l ->
  exists l', replay l (op_step (s, []) op).2 = Some l' /\
             cache_inv (op_step (s, []) op).1 l'.
Proof.
  intros Hinv. unfold op_step. simpl.
  assert (forall new_block,
            exists l', replay l (KeyBlockChanged new_block s).2 = Some l' /\
                       cache_inv (KeyBlockChanged new_block s).1 l') as Hchanged.
  { intros new_block. unfold KeyBlockChanged.
    set (s1 := mkState (flags s) new_block (myCache s) (myMachineMining s)
                 (myMachineValidating s) (fLightCacheInited s) (allocated s)).
    assert (cache_inv s1 l \/ fLightCacheInited s1 = true) as H1.
    { destruct (fLightCacheInited s) eqn:Hf; [by right|]. left.
      destruct Hinv as [Hlive Hbound]. split; [|done].
      unfold live_objects in *. simpl. by rewrite Hf in *. }
    assert (exists l', replay l (DeallocateRandomXLightCache s1).2 = Some l' /\
                       caches l' = ∅ /\ machines l' = ∅) as (l1 & Hr1 & Hc1 & Hm1).
    { destruct (deallocate_ok s l Hinv) as (l1 & Hr & Hc & Hm & _).
      exists l1. split; [|done]. revert Hr.
      unfold DeallocateRandomXLightCache. simpl. by destruct (fLightCacheInited s). }
    destruct (DeallocateRandomXLightCache s1) as [s2 freed] eqn:Hd.
    assert (fLightCacheInited s2 = false) as Hf2.
    { revert Hd. unfold DeallocateRandomXLightCache. simpl.
      destruct (fLightCacheInited s) eqn:Hf; simpl; intros [= <- _]; done. }
    destruct (create_ok s2 l1 Hc1 Hm1 Hf2) as (l3 & Hr3 & Hinv3).
    destruct (create_cache_and_machines s2) as [s3 created] eqn:Hcr.
    simpl in *. exists l3. split; [|done].
    rewrite replay_app, Hr1. done. }
  destruct op as [host_flags key|new_block|check_block|]; simpl.
  - unfold InitRandomXLightCache.
    destruct (fLightCacheInited s) eqn:Hf; simpl; [by exists l|].
    destruct Hinv as [Hlive _]. unfold live_objects in Hlive. rewrite Hf in Hlive.
    destruct Hlive as [Hc Hm].
    exact (create_ok (mkState host_flags key (myCache s) (myMachineMining s)
                        (myMachineValidating s) false (allocated s)) l Hc Hm eq_refl).
  - apply Hchanged.
  - unfold CheckIfKeyShouldChange. case_bool_decide; [apply Hchanged | by exists l].
  - destruct (deallocate_ok s l Hinv) as (l' & Hr & Hc & Hm & Hf & _).
    exists l'. split; [done|]. split.
    + unfold live_objects. by rewrite Hf.
    + intros h [[x Hx]|[x Hx]]; [rewrite Hc in Hx | rewrite Hm in Hx];
        by rewrite lookup_empty in Hx.
Qed.

Lemma op_step_trace st op :
  op_step st op = ((op_step (st.1, []) op).1, st.2 ++ (op_step (st.1, []) op).2).
Proof. by destruct st. Qed.
End randomx.

(** X28: along any history of [InitRandomXLightCache], [KeyBlockChanged],
    [CheckIfKeyShouldChange] and [DeallocateRandomXLightCache] calls, the
    library is used in order: nothing is freed twice or used after it was
    freed, and no machine outlives its cache. Afterwards the objects that
    exist are exactly one cache, initialised with the current [key_block],
    and two machines on it when [fLightCacheInited] is set, and none when it
    is not. *)
Theorem X28_randomx_cache_lifecycle (ops : list RandomX.Op) :
  exists l, RandomX.replay (RandomX.mkLib ∅ ∅) (RandomX.run ops).2 = Some l /\
            RandomX.live_objects (RandomX.run ops).1 l.
Proof.
  unfold RandomX.run.
  cut (exists l, RandomX.replay (RandomX.mkLib ∅ ∅)
                   (fold_left RandomX.op_step ops (RandomX.initial, [])).2 = Some l /\
                 RandomX.cache_inv (fold_left RandomX.op_step ops (RandomX.initial, [])).1 l).
  { intros (l & Hr & Hlive & _). by exists l. }
  induction ops as [|op ops IH] using rev_ind.
  - exists (RandomX.mkLib ∅ ∅). split; [done|]. split; [by split|].
    simpl. intros h [[x Hx]|[x Hx]]; by rewrite lookup_empty in Hx.
  - rewrite fold_left_app. cbn [fold_left].
    destruct IH as (l & Hr & Hinv).
    rewrite op_step_trace.
    destruct (cache_inv_step _ l op Hinv) as (l' & Hr' & Hinv').
    exists l'. simpl. split; [|done].
    by rewrite replay_app, Hr.
Qed.

(** On the sample history the cache ends initialised with the last key, and
    nine objects have been handed out, of which three exist. *)
Example randomx_sample_history :
  RandomX.GetCurrentKeyBlock (RandomX.run RandomX.sample_ops).1 = repeat x03 32 /\
  RandomX.IsRandomXLightInit (RandomX.run RandomX.sample_ops).1 = true /\
  RandomX.allocated (RandomX.run RandomX.sample_ops).1 = 9 /\
  RandomX.GetMyMachineValidating (RandomX.run RandomX.sample_ops).1 = Some 8.
Proof. vm_compute. split_and!; reflexivity. Qed.

(** ** Rate limiter: duplicate requests along a history *)

Section duplicates.
Import RateLimiter.










End duplicates.



(** The verdicts on that history: the repeated request for chunk 5 is
    refused as served 190 s ago, a request for chunk 7 is allowed. *)
Example duplicate_refused_after_sweep :
  (RateLimiter.AllowRequest 1200
     (RateLimiter.run ((1010%Z, RateLimiter.CallRecordServed 1 5 100) :: after_service)
        after_first_request).1 1 5).1
  = RateLimiter.Rejected (RateLimiter.AlreadyServed 5 190) /\
  (RateLimiter.AllowRequest 1200
     (RateLimiter.run ((1010%Z, RateLimiter.CallRecordServed 1 5 100) :: after_service)
        after_first_request).1 1 7).1
  = RateLimiter.Allowed.
Proof. vm_compute. split; reflexivity. Qed.
